(** * Snapshot acquisition and local-cache synchronisation

    A shallow embedding of the Express server of the snapshot demo
    (the two handlers [GET /get-snapshots] and [GET /get-local-snapshots],
    the table [SUPPORTED_CHARTS] and the function [saveSnapshots]) together
    with the properties of its specification.

    Modelling conventions.
    - JavaScript values that reach the code are JSON values ([json]);
      [undefined] is the [None] of [jsval].  Numbers are integers: no
      property below depends on a fractional number.
    - An object is an association list in insertion order with distinct
      keys, which is the order [JSON.stringify] prints.
    - The store [public/snapshots] is a two-level tree: the root maps a
      name to a plain file or to a directory, a directory maps a file name
      to its content.  A task identifier is used as an opaque directory
      name (path normalisation of empty, dotted or slashed identifiers is
      outside the model).
    - A file written with [JSON.stringify (v, null, 2)] is kept as
      [JsonText v]: [JSON.stringify] is a function of the value, so equal
      values are equal byte sequences, and [JSON.parse] gives the value
      back.  Bytes that are not a JSON text are [Bytes].
    - The remote service, the clock and the faults of the file system are
      the environment [env]: an operation listed by [fails] raises an I/O
      error, which is how a write or a removal that the code guards with a
      [catch] is made to fail.  The server is a state-and-exception monad
      over the [world], which also records the remote requests made and
      the changes done to the store, in order. *)

From Stdlib Require Import String Ascii ZArith List Bool DecimalString.
From stdpp Require Import base option list gmap strings.

Local Open Scope string_scope.
Local Open Scope Z_scope.
#[local] Set Warnings "-register-all".

(** ** JavaScript values *)

Inductive json : Type :=
| JNull
| JBool (b : bool)
| JNum (z : Z)
| JStr (s : string)
| JArr (l : list json)
| JObj (o : list (string * json)).

(** An object: own enumerable properties in insertion order. *)
Abbreviation obj := (list (string * json)).

(** A value or [undefined]. *)
Abbreviation jsval := (option json).

Definition undefined : jsval := None.

(** ToBoolean. *)
Definition truthy (v : jsval) : bool :=
  match v with
  | None => false
  | Some JNull => false
  | Some (JBool b) => b
  | Some (JNum z) => negb (z =? 0)
  | Some (JStr s) => negb (String.eqb s "")
  | Some (JArr _) => true
  | Some (JObj _) => true
  end.

(** [a || b]. *)
Definition js_or (a b : jsval) : jsval := if truthy a then a else b.

Fixpoint obj_get (k : string) (o : obj) : jsval :=
  match o with
  | [] => None
  | (k', v) :: o' => if String.eqb k k' then Some v else obj_get k o'
  end.

(** Defining a property: an existing key keeps its position, a new key
    goes last. *)
Fixpoint obj_set (k : string) (v : json) (o : obj) : obj :=
  match o with
  | [] => [(k, v)]
  | (k', v') :: o' =>
      if String.eqb k k' then (k', v) :: o' else (k', v') :: obj_set k v o'
  end.

(** ** Results of computations that may throw *)

Inductive res (A : Type) : Type :=
| Val (a : A)
| Exn (msg : string).
Arguments Val {A} a.
Arguments Exn {A} msg.

(** Property access [v.k] for the keys this program reads ([id], [name],
    [visualization], [imageAvailable], [snapshotAvailable], [displayMode]):
    none of them is a built-in property of a string, a number, a boolean
    or an array, so only objects carry them; on [null] the access throws. *)
Definition get_prop (v : json) (k : string) : res jsval :=
  match v with
  | JNull => Exn "TypeError: Cannot read properties of null"
  | JObj o => Val (obj_get k o)
  | _ => Val undefined
  end.

(** ** Strings *)

Definition lower_ascii (c : ascii) : ascii :=
  let n := nat_of_ascii c in
  if (Nat.leb 65 n && Nat.leb n 90)%bool then ascii_of_nat (n + 32) else c.

(** [String.prototype.toLowerCase] on ASCII text. *)
Fixpoint toLowerCase (s : string) : string :=
  match s with
  | EmptyString => EmptyString
  | String c s' => String (lower_ascii c) (toLowerCase s')
  end.

(** [hay.includes(needle)]. *)
Fixpoint includes (needle hay : string) : bool :=
  if String.prefix needle hay then true
  else match hay with
       | EmptyString => false
       | String _ hay' => includes needle hay'
       end.

(** ** The remote service *)

(** The [data] of a response of the client library. *)
Inductive body : Type :=
| DJson (j : json)
| DBlob (b : list Byte.byte)
| DBuffer (b : list Byte.byte).

Record response : Type := mkResponse {
  status : Z;
  content_type : option string;   (* headers.get("content-type") *)
  data : body
}.

(** ** The store *)

Inductive content : Type :=
| JsonText (j : json)
| Bytes (b : list Byte.byte).

Inductive node : Type :=
| File (c : content)
| Dir (d : gmap string content).

Inductive event : Type :=
| EvFetch (id fileAlias : string)
| EvMkdirRoot
| EvMkdir (id : string)
| EvWrite (id name : string)
| EvRm (id : string).

(** [root] is [public/snapshots] ([None]: it does not exist), [ticks]
    counts the readings of the clock, [trace] lists the remote requests
    made and the file-system operations that succeeded and changed the
    store, oldest first. *)
Record world : Type := mkWorld {
  root : option (gmap string node);
  ticks : nat;
  trace : list event
}.

Definition set_root (r : option (gmap string node)) (w : world) : world :=
  mkWorld r (ticks w) (trace w).

Definition log (e : event) (w : world) : world :=
  mkWorld (root w) (ticks w) (trace w ++ [e]).

Inductive fsop : Type :=
| OpMkdirRoot
| OpMkdir (id : string)
| OpWrite (id name : string)
| OpRm (id : string)
| OpRead (id name : string)
| OpReaddir.

(** The collaborators of the server: the remote catalogue
    ([qlikItems.getItems], reduced to the resource identifiers of its
    items), the task details ([qlikSharing.getSharingTask]), the files of
    an execution ([qlikSharing.getSharingTaskExecutionFile]), each of them
    answering or throwing (the client throws for an HTTP status from 300
    on, so a response that arrives has a status below); the readings of
    the clock; the file-system
    operations that raise an I/O error; for a recursive removal that
    raises one, the files of the directory it could not delete
    ([rm_keeps id name]: the file [name] of the directory of [id] is still
    there afterwards; the removal deletes the others before it rejects);
    and Node's [Buffer.from] on the values a payload can be. *)
Record env : Type := mkEnv {
  getItems : res (list string);
  getSharingTask : string -> res obj;
  getSharingTaskExecutionFile : string -> string -> string -> res response;
  clock : nat -> string;
  fails : fsop -> bool;
  rm_keeps : string -> string -> bool;
  Buffer_from : json -> res (list Byte.byte)
}.

(** ** The monad of the server *)

Definition M (A : Type) : Type := world -> world * res A.

Definition ret {A} (a : A) : M A := fun w => (w, Val a).

Definition throw {A} (msg : string) : M A := fun w => (w, Exn msg).

Definition bind {A B} (c : M A) (k : A -> M B) : M B :=
  fun w => match c w with
           | (w', Val a) => k a w'
           | (w', Exn msg) => (w', Exn msg)
           end.

(** [try { c } catch (err) { h err.message }]. *)
Definition try_catch {A} (c : M A) (h : string -> M A) : M A :=
  fun w => match c w with
           | (w', Val a) => (w', Val a)
           | (w', Exn msg) => h msg w'
           end.

Definition lift {A} (r : res A) : M A := fun w => (w, r).

Notation "'do' x <- c ; k" := (bind c (fun x => k))
  (at level 10, x name, c at level 100, k at level 200).
Notation "c ;; k" := (bind c (fun _ => k))
  (at level 100, k at level 200, right associativity).

(** ** File system, remote calls and clock *)

Section Server.

Variable E : env.

(** [fs.mkdir(root, { recursive: true })]. *)
Definition fs_mkdir_root : M unit := fun w =>
  if fails E OpMkdirRoot then (w, Exn "mkdir failed")
  else match root w with
       | Some _ => (w, Val tt)
       | None => (log EvMkdirRoot (set_root (Some ∅) w), Val tt)
       end.

(** [fs.mkdir(path.join(root, id), { recursive: true })]: an existing
    directory is kept, a plain file of that name is an error. *)
Definition fs_mkdir (id : string) : M unit := fun w =>
  if fails E (OpMkdir id) then (w, Exn "mkdir failed")
  else match root w with
       | None => (log (EvMkdir id) (set_root (Some {[ id := Dir ∅ ]}) w), Val tt)
       | Some r =>
           match r !! id with
           | None => (log (EvMkdir id) (set_root (Some (<[ id := Dir ∅ ]> r)) w), Val tt)
           | Some (Dir _) => (w, Val tt)
           | Some (File _) => (w, Exn "EEXIST: file already exists")
           end
       end.

(** [fs.writeFile(path.join(root, id, name), c)]. *)
Definition fs_writeFile (id name : string) (c : content) : M unit := fun w =>
  if fails E (OpWrite id name) then (w, Exn "write failed")
  else match root w with
       | None => (w, Exn "ENOENT: no such file or directory")
       | Some r =>
           match r !! id with
           | Some (Dir d) =>
               (log (EvWrite id name)
                    (set_root (Some (<[ id := Dir (<[ name := c ]> d) ]> r)) w),
                Val tt)
           | _ => (w, Exn "ENOENT: no such file or directory")
           end
       end.

(** What a recursive removal that raises an error leaves of a node: the
    directory itself, with the files it could not delete. *)
Definition survivors (id : string) (n : node) : node :=
  match n with
  | Dir d => Dir (filter (fun kv => rm_keeps E id kv.1 = true) d)
  | File c => File c
  end.

(** [fs.rm(path.join(root, id), { recursive: true })]: without [force] a
    missing path is an error; a removal that raises an I/O error has
    deleted what it could before. *)
Definition fs_rm (id : string) : M unit := fun w =>
  match root w with
  | None => (w, Exn "ENOENT: no such file or directory")
  | Some r =>
      match r !! id with
      | Some n =>
          if fails E (OpRm id)
          then (set_root (Some (<[ id := survivors id n ]> r)) w, Exn "rm failed")
          else (log (EvRm id) (set_root (Some (delete id r)) w), Val tt)
      | None => (w, Exn "ENOENT: no such file or directory")
      end
  end.

(** [fs.readFile(path.join(root, id, name), "utf8")]. *)
Definition fs_readFile (id name : string) : M content := fun w =>
  if fails E (OpRead id name) then (w, Exn "read failed")
  else match root w with
       | None => (w, Exn "ENOENT: no such file or directory")
       | Some r =>
           match r !! id with
           | Some (Dir d) =>
               match d !! name with
               | Some c => (w, Val c)
               | None => (w, Exn "ENOENT: no such file or directory")
               end
           | _ => (w, Exn "ENOENT: no such file or directory")
           end
       end.

(** [fs.access(root)]: fails when the root does not exist. *)
Definition fs_access_root : M unit := fun w =>
  match root w with
  | Some _ => (w, Val tt)
  | None => (w, Exn "ENOENT: no such file or directory")
  end.

Definition is_dir (n : node) : bool :=
  match n with Dir _ => true | File _ => false end.

(** [fs.readdir(root, { withFileTypes: true })]: the entries of the root
    in the order the system lists them. *)
Definition fs_readdir_root : M (list (string * node)) := fun w =>
  if fails E OpReaddir then (w, Exn "readdir failed")
  else match root w with
       | Some r => (w, Val (map_to_list r))
       | None => (w, Exn "ENOENT: no such file or directory")
       end.

(** [JSON.parse]. *)
Definition JSON_parse (c : content) : M json :=
  match c with
  | JsonText j => ret j
  | Bytes _ => throw "SyntaxError: Unexpected token"
  end.

(** [new Date().toISOString()]. *)
Definition Date_now : M string := fun w =>
  (mkWorld (root w) (S (ticks w)) (trace w), Val (clock E (ticks w))).

(** [qlikSharing.getSharingTaskExecutionFile(id, executionId, fileAlias, ...)]. *)
Definition qlik_getFile (id executionId fileAlias : string) : M response :=
  fun w => (log (EvFetch id fileAlias) w,
            getSharingTaskExecutionFile E id executionId fileAlias).

(** ** Payloads *)

(** Lines 239-247: the bytes of a binary payload; a payload that is
    neither a [Blob] nor a [Buffer] goes through [Buffer.from], which
    answers or throws as Node has it. *)
Definition to_buffer (d : body) : res (list Byte.byte) :=
  match d with
  | DBlob b => Val b
  | DBuffer b => Val b
  | DJson j => Buffer_from E j
  end.

(** The value [JSON.stringify] prints for a payload: a [Blob] has no own
    property, a [Buffer] prints through its [toJSON]. *)
Definition body_json (d : body) : json :=
  match d with
  | DJson j => j
  | DBlob _ => JObj []
  | DBuffer b =>
      JObj [("type", JStr "Buffer");
            ("data", JArr (map (fun x => JNum (Z.of_N (Byte.to_N x))) b))]
  end.

Definition body_truthy (d : body) : bool :=
  match d with
  | DJson j => truthy (Some j)
  | _ => true
  end.

Definition body_prop (d : body) (k : string) : res jsval :=
  match d with
  | DJson j => get_prop j k
  | _ => Val undefined
  end.

(** ** saveSnapshots *)

Definition SUPPORTED_CHARTS : list string :=
  [ "barchart"; "piechart"; "linechart"; "mekkochart";
    "qlik-funnel-chart-ext"; "qlik-sankey-chart-ext"; "kpi"; "bulletchart";
    "sn-org-chart"; "combochart"; "scatterplot"; "histogram";
    "waterfallchart"; "gauge"; "childObject" ].

(** [SUPPORTED_CHARTS.includes(v)]: only a string equals a string. *)
Definition charts_include (v : json) : bool :=
  match v with
  | JStr s => existsb (String.eqb s) SUPPORTED_CHARTS
  | _ => false
  end.

(** The variables of one iteration of the task loop (lines 195-199). *)
Record locals : Type := mkLocals {
  snapshotData : option body;
  imageSmallSaved : bool;
  imageLargeSaved : bool;
  snapshotSaved : bool;
  hasFailures : bool
}.

Definition init_locals : locals := mkLocals None false false false false.

Definition set_snapshot (d : body) (st : locals) : locals :=
  mkLocals (Some d) (imageSmallSaved st) (imageLargeSaved st) true (hasFailures st).

Definition set_imageSmall (st : locals) : locals :=
  mkLocals (snapshotData st) true (imageLargeSaved st) (snapshotSaved st) (hasFailures st).

Definition set_imageLarge (st : locals) : locals :=
  mkLocals (snapshotData st) (imageSmallSaved st) true (snapshotSaved st) (hasFailures st).

Definition set_hasFailures (st : locals) : locals :=
  mkLocals (snapshotData st) (imageSmallSaved st) (imageLargeSaved st) (snapshotSaved st) true.

Definition executionId : string := "latest".

Definition fileFormats : list string := ["snapshot"; "image-small"; "image-large"].

(** [fileResponse.status = 200] (line 215) is an assignment: it stores 200
    in the response and has the value 200. *)
Definition assign_status (r : response) (v : Z) : response * Z :=
  (mkResponse v (content_type r) (data r), v).

(** [headers.get("content-type") || ""]. *)
Definition header_or_empty (h : option string) : string :=
  match h with
  | Some s => s
  | None => ""
  end.

(** The body of the [try] of lines 207-271.  The result is the updated
    variables and whether the loop goes on ([false]: [break]). *)
Definition download_try (id fileAlias : string) (st : locals) : M (locals * bool) :=
  do fileResponse <- qlik_getFile id executionId fileAlias;
  let (fileResponse, cond) := assign_status fileResponse 200 in
  if truthy (Some (JNum cond)) then
    let contentType := toLowerCase (header_or_empty (content_type fileResponse)) in
    if includes "application/json" contentType then
      let json := data fileResponse in
      let outName := fileAlias ++ ".json" in
      fs_writeFile id outName (JsonText (body_json json)) ;;
      if String.eqb fileAlias "snapshot" then ret (set_snapshot json st, true)
      else ret (st, true)
    else
      do buf <- lift (to_buffer (data fileResponse));
      let outName :=
        if includes "image/png" contentType then fileAlias ++ ".png" else fileAlias in
      fs_writeFile id outName (Bytes buf) ;;
      if String.eqb fileAlias "image-small" then ret (set_imageSmall st, true)
      else if String.eqb fileAlias "image-large" then ret (set_imageLarge st, true)
      else ret (st, true)
  else
    ret (set_hasFailures st, false).

(** One iteration of the loop of line 206, with its [catch]. *)
Definition download_one (id fileAlias : string) (st : locals) : M (locals * bool) :=
  try_catch (download_try id fileAlias st)
            (fun _ => ret (set_hasFailures st, false)).

Fixpoint download_loop (id : string) (aliases : list string) (st : locals) : M locals :=
  match aliases with
  | [] => ret st
  | fileAlias :: rest =>
      do r <- download_one id fileAlias st;
      if r.2 then download_loop id rest r.1 else ret r.1
  end.

(** Line 284. *)
Definition incomplete (st : locals) : bool :=
  hasFailures st || negb (imageSmallSaved st) || negb (imageLargeSaved st)
  || negb (snapshotSaved st).

(** Lines 303-306. *)
Definition visualization_of (snapshotData : option body) : json :=
  match snapshotData with
  | None => JStr "unknown"
  | Some d =>
      if body_truthy d then
        match body_prop d "visualization" with
        | Val (Some v) => if truthy (Some v) then v else JStr "unknown"
        | _ => JStr "unknown"
        end
      else JStr "unknown"
  end.

(** Lines 309-311. *)
Definition displayMode_of (visualization : json) : string :=
  if charts_include visualization then "snapshot" else "image".

(** Lines 314-321: the task's own properties first, then the derived ones. *)
Definition enhancedMetadata (task : obj) (visualization : json)
    (displayMode lastUpdated : string) : obj :=
  obj_set "lastUpdated" (JStr lastUpdated)
    (obj_set "displayMode" (JStr displayMode)
       (obj_set "snapshotAvailable" (JBool true)
          (obj_set "imageAvailable" (JBool true)
             (obj_set "visualization" visualization task)))).

(** [path.join] resolves an identifier against the root.  An identifier
    that is a plain name (not empty, neither [.] nor [..], without a
    separator) names the entry of the root of that name; any other one is
    normalised to the root itself, its parent, a nested path or the entry
    of another name. *)
Definition is_separator (c : ascii) : bool :=
  Ascii.eqb c "/" || Ascii.eqb c "\".

Fixpoint has_separator (s : string) : bool :=
  match s with
  | EmptyString => false
  | String c rest => is_separator c || has_separator rest
  end.

Definition plain_name (id : string) : bool :=
  negb (String.eqb id "") && negb (String.eqb id ".")
  && negb (String.eqb id "..") && negb (has_separator id).

(** [path.join(root, task.id)]: the identifier has to be a string.  The
    store is keyed by the identifier, which is where the folder is when
    the identifier is a [plain_name]; the statements about the place of a
    folder are made for such identifiers. *)
Definition task_dir (task : obj) : M string :=
  match obj_get "id" task with
  | Some (JStr id) => ret id
  | _ => throw "TypeError [ERR_INVALID_ARG_TYPE]: The path argument must be of type string"
  end.

(** The body of the task loop (lines 191-328). *)
Definition save_task (task : obj) : M unit :=
  do id <- task_dir task;
  fs_mkdir id ;;
  do st <- download_loop id fileFormats init_locals;
  if incomplete st then
    try_catch (fs_rm id) (fun _ => ret tt)
  else
    let visualization := visualization_of (snapshotData st) in
    let displayMode := displayMode_of visualization in
    do now <- Date_now;
    fs_writeFile id "metadata.json"
      (JsonText (JObj (enhancedMetadata task visualization displayMode now))).

Fixpoint save_tasks (tasks : list obj) : M unit :=
  match tasks with
  | [] => ret tt
  | task :: rest => save_task task ;; save_tasks rest
  end.

Definition saveSnapshots (tasks : list obj) : M unit :=
  fs_mkdir_root ;; save_tasks tasks.

(** ** The handlers *)

(** An element of the array a handler answers with. *)
Record entry : Type := mkEntry {
  e_id : jsval;
  e_name : jsval;
  e_visualization : jsval;
  e_imageAvailable : jsval;
  e_snapshotAvailable : jsval;
  e_displayMode : jsval
}.

Inductive http : Type :=
| Json200 (entries : list entry)
| Err500 (error : string).

(** [err.message || "Unexpected error"]. *)
Definition message_or_default (msg : string) : string :=
  if String.eqb msg "" then "Unexpected error" else msg.

(** Lines 54-60. *)
Fixpoint fetch_tasks (items : list string) : M (list obj) :=
  match items with
  | [] => ret []
  | resourceId :: rest =>
      do t <- lift (getSharingTask E resourceId);
      do ts <- fetch_tasks rest;
      ret (t :: ts)
  end.

(** Lines 77-84. *)
Definition refresh_entry (metadata : json) : M entry :=
  do id <- lift (get_prop metadata "id");
  do name <- lift (get_prop metadata "name");
  do visualization <- lift (get_prop metadata "visualization");
  do imageAvailable <- lift (get_prop metadata "imageAvailable");
  do snapshotAvailable <- lift (get_prop metadata "snapshotAvailable");
  do displayMode <- lift (get_prop metadata "displayMode");
  ret (mkEntry id name
         (js_or visualization (Some (JStr "unknown")))
         (js_or imageAvailable (Some (JBool false)))
         (js_or snapshotAvailable (Some (JBool false)))
         (js_or displayMode (Some (JStr "image")))).

(** The [try] of lines 72-91 for the folder of one task. *)
Definition read_task (id : string) : M (list entry) :=
  try_catch
    (do metadataContent <- fs_readFile id "metadata.json";
     do metadata <- JSON_parse metadataContent;
     do e <- refresh_entry metadata;
     ret [e])
    (fun _ => ret []).

(** Lines 70-92: the entries pushed for the tasks, in order. *)
Fixpoint read_enhanced (tasks : list obj) : M (list entry) :=
  match tasks with
  | [] => ret []
  | task :: rest =>
      do id <- task_dir task;
      do pushed <- read_task id;
      do more <- read_enhanced rest;
      ret (pushed ++ more)%list
  end.

(** [GET /get-snapshots]. *)
Definition get_snapshots : M http :=
  try_catch
    (do items <- lift (getItems E);
     do tasks <- fetch_tasks items;
     saveSnapshots tasks ;;
     do enhancedTasks <- read_enhanced tasks;
     ret (Json200 enhancedTasks))
    (fun msg => ret (Err500 (message_or_default msg))).

(** Lines 143-150. *)
Definition local_entry (folder : string) (metadata : json) : M entry :=
  do id <- lift (get_prop metadata "id");
  do name <- lift (get_prop metadata "name");
  do visualization <- lift (get_prop metadata "visualization");
  do imageAvailable <- lift (get_prop metadata "imageAvailable");
  do snapshotAvailable <- lift (get_prop metadata "snapshotAvailable");
  do displayMode <- lift (get_prop metadata "displayMode");
  ret (mkEntry
         (js_or id (Some (JStr folder)))
         (js_or name (Some (JStr ("Snapshot " ++ folder))))
         (js_or visualization (Some (JStr "unknown")))
         (js_or imageAvailable (Some (JBool false)))
         (js_or snapshotAvailable (Some (JBool false)))
         (js_or displayMode (Some (JStr "image")))).

(** The [try] of lines 137-155 for one folder. *)
Definition read_folder (folder : string) : M (list entry) :=
  try_catch
    (do metadataContent <- fs_readFile folder "metadata.json";
     do metadata <- JSON_parse metadataContent;
     do e <- local_entry folder metadata;
     ret [e])
    (fun _ => ret []).

(** Lines 130-156. *)
Fixpoint read_local (snapshotFolders : list (string * node)) : M (list entry) :=
  match snapshotFolders with
  | [] => ret []
  | folder :: rest =>
      do pushed <- read_folder folder.1;
      do more <- read_local rest;
      ret (pushed ++ more)%list
  end.

(** [GET /get-local-snapshots]. *)
Definition get_local_snapshots : M http :=
  try_catch
    (do present <- try_catch (fs_access_root ;; ret true) (fun _ => ret false);
     if negb present then ret (Json200 [])
     else
       do entries <- fs_readdir_root;
       let snapshotFolders := filter (fun e => is_dir e.2 = true) entries in
       do snapshots <- read_local snapshotFolders;
       ret (Json200 snapshots))
    (fun msg => ret (Err500 (message_or_default msg))).

End Server.

(** * Observations on the store

    State predicates and summaries used to state the properties; the
    lemmas of the next part relate them to the code above. *)

(** The folder of a task, when the root has one. *)
Definition task_folder (w : world) (id : string) : option (gmap string content) :=
  match root w with
  | Some r => match r !! id with
              | Some (Dir d) => Some d
              | _ => None
              end
  | None => None
  end.

Definition has_file (w : world) (id name : string) : bool :=
  match task_folder w id with
  | Some d => bool_decide (is_Some (d !! name))
  | None => false
  end.

(** The folder holds a metadata record. *)
Definition has_metadata (w : world) (id : string) : bool :=
  has_file w id "metadata.json".

(** The folder holds the three artifact files: the JSON payload and the
    two images, each image with or without the [.png] suffix. *)
Definition has_artifacts (w : world) (id : string) : bool :=
  has_file w id "snapshot.json"
  && (has_file w id "image-small.png" || has_file w id "image-small")
  && (has_file w id "image-large.png" || has_file w id "image-large").

(** The transaction of a task wrote its metadata record between [w] and
    [w']. *)
Definition committed (id : string) (w w' : world) : Prop :=
  ∃ evs, trace w' = (trace w ++ evs)%list ∧ EvWrite id "metadata.json" ∈ evs.

(** Lines 191-281 of the task loop: the directory and the three downloads. *)
Definition downloaded (E : env) (id : string) : M locals :=
  fs_mkdir E id ;; download_loop E id fileFormats init_locals.

(** What one download does to a task's folder, as the environment decides
    it: a JSON file saved, a binary file saved, or a failure. *)
Inductive outcome : Type :=
| SavedJson (d : body)
| SavedBinary (png : bool) (buf : list Byte.byte)
| Failed.

Definition json_name (fileAlias : string) : string := fileAlias ++ ".json".

Definition binary_name (fileAlias : string) (png : bool) : string :=
  if png then fileAlias ++ ".png" else fileAlias.

Definition role_outcome (E : env) (id fileAlias : string) : outcome :=
  match getSharingTaskExecutionFile E id executionId fileAlias with
  | Exn _ => Failed
  | Val fileResponse =>
      let contentType := toLowerCase (header_or_empty (content_type fileResponse)) in
      if includes "application/json" contentType then
        if fails E (OpWrite id (json_name fileAlias)) then Failed
        else SavedJson (data fileResponse)
      else
        match to_buffer E (data fileResponse) with
        | Exn _ => Failed
        | Val buf =>
            let png := includes "image/png" contentType in
            if fails E (OpWrite id (binary_name fileAlias png)) then Failed
            else SavedBinary png buf
        end
  end.

(** A successful write into an existing folder. *)
Definition put (id name : string) (c : content) (w : world) : world :=
  match root w with
  | Some r =>
      match r !! id with
      | Some (Dir d) =>
          log (EvWrite id name)
              (set_root (Some (<[ id := Dir (<[ name := c ]> d) ]> r)) w)
      | _ => w
      end
  | None => w
  end.

(** An event of the download loop of a task: a request for one of the
    three formats, or the write of the file it was saved as. *)
Definition artifact_event (id : string) (e : event) : Prop :=
  ∃ a, a ∈ fileFormats ∧
       (e = EvFetch id a ∨ e = EvWrite id (json_name a)
        ∨ ∃ png, e = EvWrite id (binary_name a png)).

(** The invariant of the download loop, relative to the world [w0] the
    loop starts in: the loop touches the folder of the task only and adds
    files to it, never the metadata record; the clock is not read; each
    flag that is set is backed by a file in the folder and by its write
    in the trace, and the snapshot data is the payload of the response. *)
Definition loop_inv (E : env) (id : string) (w0 : world) (st : locals) (w : world) : Prop :=
  ∃ r0 d0 d evs,
    root w0 = Some r0 ∧ r0 !! id = Some (Dir d0) ∧
    root w = Some (<[ id := Dir d ]> r0) ∧
    ticks w = ticks w0 ∧
    trace w = (trace w0 ++ evs)%list ∧
    (∀ e, e ∈ evs → artifact_event id e) ∧
    (∀ n, is_Some (d0 !! n) → is_Some (d !! n)) ∧
    d !! "metadata.json" = d0 !! "metadata.json" ∧
    (snapshotSaved st = true →
       is_Some (d !! "snapshot.json") ∧ EvWrite id "snapshot.json" ∈ evs ∧
       ∃ resp, getSharingTaskExecutionFile E id executionId "snapshot" = Val resp ∧
               snapshotData st = Some (data resp)) ∧
    (imageSmallSaved st = true →
       ∃ png, is_Some (d !! binary_name "image-small" png) ∧
              EvWrite id (binary_name "image-small" png) ∈ evs) ∧
    (imageLargeSaved st = true →
       ∃ png, is_Some (d !! binary_name "image-large" png) ∧
              EvWrite id (binary_name "image-large" png) ∈ evs).

(** What the root holds under a name. *)
Definition node_at (w : world) (name : string) : option node :=
  match root w with
  | Some r => r !! name
  | None => None
  end.

(** A successful removal of a task's folder. *)
Definition removed (id : string) (w : world) : world :=
  match root w with
  | Some r => log (EvRm id) (set_root (Some (delete id r)) w)
  | None => w
  end.

(** A removal of a task's folder that raised an error. *)
Definition partly_removed (E : env) (id : string) (w : world) : world :=
  match root w with
  | Some r =>
      match r !! id with
      | Some n => set_root (Some (<[ id := survivors E id n ]> r)) w
      | None => w
      end
  | None => w
  end.

(** The content of a file of a task's folder. *)
Definition file_at (w : world) (id name : string) : option content :=
  match task_folder w id with
  | Some d => d !! name
  | None => None
  end.

(** The world after one reading of the clock. *)
Definition tick (w : world) : world := mkWorld (root w) (S (ticks w)) (trace w).

(** The record the commit of line 323 writes, from the variables the
    download loop ended with and the clock reading. *)
Definition record_of (task : obj) (st : locals) (now : string) : obj :=
  enhancedMetadata task (visualization_of (snapshotData st))
    (displayMode_of (visualization_of (snapshotData st))) now.

(** In a run of events, every write of the record of [id] comes after a
    write of each of its three artifact files. *)
Definition record_after_artifacts (id : string) (evs : list event) : Prop :=
  ∀ pre post, evs = (pre ++ EvWrite id "metadata.json" :: post)%list →
    EvWrite id "snapshot.json" ∈ pre ∧
    (∃ png, EvWrite id (binary_name "image-small" png) ∈ pre) ∧
    (∃ png, EvWrite id (binary_name "image-large" png) ∈ pre).

(** The folder of a task is complete (record and artifacts), or the root
    holds nothing under its name. *)
Definition complete_or_absent (w : world) (id : string) : Prop :=
  (has_metadata w id = true ∧ has_artifacts w id = true) ∨ node_at w id = None.

(** The entry lists of two answers have the same members. *)
Definition same_entries (L L' : list entry) : Prop := ∀ e, e ∈ L ↔ e ∈ L'.

(** * Scenarios

    Concrete environments and stores on which the properties below are
    run. *)

Module Scenario.

(** A removal that fails after it has deleted every file of the folder,
    and one that cannot delete the file [name]. *)
Definition nothing_kept (_ _ : string) : bool := false.

Definition busy (name : string) (_ file : string) : bool := String.eqb file name.

(** [Buffer.from] on the payloads of the scenarios: text is encoded,
    [null], a boolean and a number are a [TypeError].  The binary payloads
    below are Blobs, which do not go through it. *)
Definition buffer_of_text (j : json) : res (list Byte.byte) :=
  match j with
  | JStr s => Val (list_byte_of_string s)
  | _ => Exn "TypeError [ERR_INVALID_ARG_TYPE]"
  end.

(** No remote task, no clock reading of interest, no fault. *)
Definition idle : env :=
  mkEnv (Val []) (fun _ => Exn "not found") (fun _ _ _ => Exn "not found")
        (fun _ => "") (fun _ => false) nothing_kept buffer_of_text.

Definition store (r : gmap string node) : world := mkWorld (Some r) 0 [].

Definition record_T1 : obj :=
  [("id", JStr "T1"); ("name", JStr "Sales KPI"); ("visualization", JStr "kpi");
   ("imageAvailable", JBool true); ("snapshotAvailable", JBool true);
   ("displayMode", JStr "snapshot"); ("lastUpdated", JStr "2025-01-01T00:00:00.000Z")].

(** A store with one sound record and one that does not parse. *)
Definition good_and_bad : gmap string node :=
  {[ "T1" := Dir {[ "metadata.json" := JsonText (JObj record_T1) ]};
     "T9" := Dir {[ "metadata.json" := Bytes [] ]} ]}.

(** A record of an older format: no [id], no [name]. *)
Definition old_format : gmap string node :=
  {[ "T1" := Dir {[ "metadata.json" := JsonText (JObj [("visualization", JStr "kpi")]) ]} ]}.

Definition empty : world := mkWorld None 0 [].

Definition task_T1 : obj := [("id", JStr "T1"); ("name", JStr "Sales KPI")].

Definition payload_kpi : response :=
  mkResponse 200 (Some "application/json; charset=utf-8")
    (DJson (JObj [("visualization", JStr "kpi")])).

Definition payload_mappng : response :=
  mkResponse 200 (Some "application/json; charset=utf-8")
    (DJson (JObj [("visualization", JStr "mappng")])).

Definition image_png : response :=
  mkResponse 200 (Some "image/png") (DBlob [Byte.x89; Byte.x50; Byte.x4e; Byte.x47]).

(** An answer 202 Accepted: a status of the success class, which the
    client returns as a response, and not the 200 of line 215. *)
Definition accepted : response :=
  mkResponse 202 (Some "application/json")
    (DJson (JObj [("status", JStr "pending")])).

(** The remote files of a task, given the answer for each format. *)
Definition remote (snapshot small large : res response)
    (id executionId fileAlias : string) : res response :=
  if String.eqb fileAlias "snapshot" then snapshot
  else if String.eqb fileAlias "image-small" then small
  else large.

Definition monitor_keeping (files : string → string → string → res response)
    (now : string) (faults : fsop → bool) (keeps : string → string → bool) : env :=
  mkEnv (Val ["r1"]) (fun _ => Val task_T1) files (fun _ => now) faults
        keeps buffer_of_text.

Definition monitor (files : string → string → string → res response)
    (now : string) (faults : fsop → bool) : env :=
  monitor_keeping files now faults nothing_kept.

Definition no_fault (_ : fsop) : bool := false.

(** Everything answers as it should. *)
Definition healthy : env :=
  monitor (remote (Val payload_kpi) (Val image_png) (Val image_png))
          "2025-01-01T00:00:00.000Z" no_fault.

(** The same remote answers one day later. *)
Definition healthy_later : env :=
  monitor (remote (Val payload_kpi) (Val image_png) (Val image_png))
          "2025-01-02T00:00:00.000Z" no_fault.

Definition healthy_mappng : env :=
  monitor (remote (Val payload_mappng) (Val image_png) (Val image_png))
          "2025-01-01T00:00:00.000Z" no_fault.

(** The snapshot request is answered 202. *)
Definition status202 : env :=
  monitor (remote (Val accepted) (Val image_png) (Val image_png))
          "2025-01-01T00:00:00.000Z" no_fault.

(** The removal of a folder fails. *)
Definition rm_fault (op : fsop) : bool :=
  match op with
  | OpRm _ => true
  | _ => false
  end.

(** A metadata record cannot be written (the disk is full, say). *)
Definition record_fault (op : fsop) : bool :=
  match op with
  | OpWrite _ name => String.eqb name "metadata.json"
  | _ => false
  end.

(** The request for the large image throws. *)
Definition large_missing : env :=
  monitor (remote (Val payload_kpi) (Val image_png) (Exn "404 Not Found"))
          "2025-01-01T00:00:00.000Z" no_fault.

(** The same, and the cleanup fails on the small image, which it cannot
    delete (the file is in use); it deletes the rest of the folder. *)
Definition large_missing_stuck : env :=
  monitor_keeping (remote (Val payload_kpi) (Val image_png) (Exn "404 Not Found"))
          "2025-01-01T00:00:00.000Z" rm_fault (busy "image-small.png").

(** The first request throws, and the cleanup fails on the record, which
    it cannot delete; it deletes the rest of the folder. *)
Definition snapshot_down_stuck : env :=
  monitor_keeping (remote (Exn "503 Service Unavailable") (Val image_png) (Val image_png))
          "2025-01-02T00:00:00.000Z" rm_fault (busy "metadata.json").

Definition record_unwritable : env :=
  monitor (remote (Val payload_kpi) (Val image_png) (Val image_png))
          "2025-01-01T00:00:00.000Z" record_fault.

(** The empty store once its root is made. *)
Definition rooted : world := (fs_mkdir_root healthy empty).1.

(** The store after a first fetch of [T1], and after a second one a day
    later. *)
Definition fetched_once : world := (saveSnapshots healthy [task_T1] empty).1.

Definition fetched_twice : world :=
  (saveSnapshots healthy_later [task_T1] fetched_once).1.

(** A refresh from the empty store whose cleanup fails. *)
Definition stuck_once : world := (saveSnapshots large_missing_stuck [task_T1] empty).1.

(** A failed refresh of a task fetched before, with and without a
    failing cleanup. *)
Definition stale : world := (saveSnapshots snapshot_down_stuck [task_T1] fetched_once).1.

Definition dropped : world := (saveSnapshots large_missing [task_T1] fetched_once).1.

(** The store after a refresh against [healthy] and against
    [record_unwritable]. *)
Definition refreshed : world := (get_snapshots healthy empty).1.

Definition unwritten : world := (get_snapshots record_unwritable empty).1.

Definition entry_T1 : entry :=
  mkEntry (Some (JStr "T1")) (Some (JStr "Sales KPI")) (Some (JStr "kpi"))
          (Some (JBool true)) (Some (JBool true)) (Some (JStr "snapshot")).

End Scenario.

(** * Further observations

    Definitions used by the further properties at the end: the requests
    of a run of events, an environment with other statuses, the checks
    made before the server starts, and the two functions of the page that
    call the handlers. *)

(** The formats requested in a run of events, in order. *)
Fixpoint fetched (evs : list event) : list string :=
  match evs with
  | [] => []
  | EvFetch _ fileAlias :: rest => fileAlias :: fetched rest
  | _ :: rest => fetched rest
  end.

(** The environment [E] with the status [f s] in every response that has
    the status [s]; headers and data are kept. *)
Definition restatus (f : Z → Z) (E : env) : env :=
  mkEnv (getItems E) (getSharingTask E)
    (fun id executionId fileAlias =>
       match getSharingTaskExecutionFile E id executionId fileAlias with
       | Val r => Val (mkResponse (f (status r)) (content_type r) (data r))
       | Exn msg => Exn msg
       end)
    (clock E) (fails E) (rm_keeps E) (Buffer_from E).

(** A request that ends with a JSON file in the task's folder: it is
    answered, the content type names JSON, and the write does not fail
    (lines 209-236). *)
Definition saved_as_json (E : env) (id fileAlias : string) : Prop :=
  ∃ resp,
    getSharingTaskExecutionFile E id executionId fileAlias = Val resp ∧
    includes "application/json"
      (toLowerCase (header_or_empty (content_type resp))) = true ∧
    fails E (OpWrite id (fileAlias ++ ".json")) = false.

(** A request that ends with a binary file in the task's folder: it is
    answered, the content type does not name JSON, the data can be made a
    buffer, and the write does not fail (lines 237-262). *)
Definition saved_as_binary (E : env) (id fileAlias : string) : Prop :=
  ∃ resp buf,
    getSharingTaskExecutionFile E id executionId fileAlias = Val resp ∧
    includes "application/json"
      (toLowerCase (header_or_empty (content_type resp))) = false ∧
    to_buffer E (data resp) = Val buf ∧
    fails E (OpWrite id
               (if includes "image/png"
                     (toLowerCase (header_or_empty (content_type resp)))
                then fileAlias ++ ".png" else fileAlias)) = false.

(** The three downloads of a task end with its three files saved. *)
Definition downloads_complete (E : env) (id : string) : Prop :=
  saved_as_json E id "snapshot" ∧
  saved_as_binary E id "image-small" ∧
  saved_as_binary E id "image-large".

(** The two operations of a task's iteration that no [try] encloses: the
    creation of its folder (line 192) and, once the downloads are
    complete, the write of its record (line 323).  The iteration passes
    when neither raises an error, and stops the whole call when one
    does. *)
Definition task_passes (E : env) (id : string) : Prop :=
  fails E (OpMkdir id) = false ∧
  (downloads_complete E id → fails E (OpWrite id "metadata.json") = false).

Definition task_stops (E : env) (id : string) : Prop :=
  fails E (OpMkdir id) = true ∨
  (downloads_complete E id ∧ fails E (OpWrite id "metadata.json") = true).

(** The keys of an object, in order. *)
Definition keys (o : obj) : list string := map fst o.

(** The five properties lines 316-320 define after the spread of the
    task. *)
Definition derived_keys : list string :=
  ["visualization"; "imageAvailable"; "snapshotAvailable"; "displayMode";
   "lastUpdated"].

(** The entry both handlers build from a record that has none of the
    fields, for a folder. *)
Definition default_entry (folder : string) : entry :=
  mkEntry (Some (JStr folder)) (Some (JStr ("Snapshot " ++ folder)))
          (Some (JStr "unknown")) (Some (JBool false)) (Some (JBool false))
          (Some (JStr "image")).

(** ** Start of the server (lines 13-25) *)

Definition requiredEnvVars : list string :=
  ["QLIK_TENANT_URL"; "QLIK_M2M_CLIENT_ID"; "QLIK_M2M_CLIENT_SECRET"].

(** [!process.env[envVar]]: the variable is not set, or set to the empty
    string. *)
Definition env_unset (penv : string → option string) (envVar : string) : bool :=
  match penv envVar with
  | None => true
  | Some s => String.eqb s ""
  end.

(** What the loop of lines 19-25 ends with: the server goes on, or the
    process exits with a code after reporting a variable. *)
Inductive startup : Type :=
| Proceed
| Exit (code : Z) (envVar : string).

Fixpoint check_env (penv : string → option string) (vars : list string) : startup :=
  match vars with
  | [] => Proceed
  | envVar :: rest =>
      if env_unset penv envVar then Exit 1 envVar else check_env penv rest
  end.

(** ** The page's calls (src/snapshots.js) *)

(** What [fetch] resolves to, as the two functions use it: [res.ok],
    [res.status] and the result of [res.json()]. *)
Record fetch_response : Type := mkFetch {
  res_ok : bool;
  res_status : Z;
  res_json : res json
}.

(** [`Server error (${res.status})`]. *)
Definition server_error (st : Z) : string :=
  "Server error (" ++ DecimalString.NilZero.string_of_int (Z.to_int st) ++ ")".

(** The body shared by [getSnapshots] and [getLocalSnapshots]. *)
Definition fetch_json (fetch : string → res fetch_response) (url : string) : res json :=
  match fetch url with
  | Exn msg => Exn msg
  | Val r => if negb (res_ok r) then Exn (server_error (res_status r))
             else res_json r
  end.

Definition getSnapshots (fetch : string → res fetch_response) : res json :=
  fetch_json fetch "/get-snapshots".

Definition getLocalSnapshots (fetch : string → res fetch_response) : res json :=
  fetch_json fetch "/get-local-snapshots".

(** [JSON.stringify] of an entry: the properties in the order of the
    object literal, a property whose value is [undefined] left out. *)
Definition entry_json (e : entry) : obj :=
  omap (fun kv => match kv.2 with Some v => Some (kv.1, v) | None => None end)
    [("id", e_id e); ("name", e_name e); ("visualization", e_visualization e);
     ("imageAvailable", e_imageAvailable e);
     ("snapshotAvailable", e_snapshotAvailable e);
     ("displayMode", e_displayMode e)].

(** What the page receives for an answer of a handler: [res.json(v)]
    sends status 200, [res.status(500).json(v)] status 500; [res.ok] is
    true for the statuses 200 to 299. *)
Definition sent (h : http) : fetch_response :=
  match h with
  | Json200 entries =>
      mkFetch true 200 (Val (JArr (map (fun e => JObj (entry_json e)) entries)))
  | Err500 error =>
      mkFetch false 500 (Val (JObj [("error", JStr error)]))
  end.

(** More scenarios. *)
Module Scenario2.

(** A store whose root holds a plain file and a folder with a record
    that is a number. *)
Definition odd_store : gmap string node :=
  {[ "notes.txt" := File (Bytes []);
     "T7" := Dir {[ "metadata.json" := JsonText (JNum 42) ]} ]}.

(** The listing cannot be read. *)
Definition readdir_fault (op : fsop) : bool :=
  match op with
  | OpReaddir => true
  | _ => false
  end.

Definition unlistable : env :=
  mkEnv (Val []) (fun _ => Exn "not found") (fun _ _ _ => Exn "not found")
        (fun _ => "") readdir_fault Scenario.nothing_kept Scenario.buffer_of_text.

(** The catalogue cannot be reached. *)
Definition offline : env :=
  mkEnv (Exn "fetch failed") (fun _ => Exn "not found")
        (fun _ _ _ => Exn "not found") (fun _ => "") Scenario.no_fault
        Scenario.nothing_kept Scenario.buffer_of_text.

Definition penv_complete (v : string) : option string :=
  if String.eqb v "QLIK_TENANT_URL" then Some "tenant.eu.qlikcloud.com"
  else if String.eqb v "QLIK_M2M_CLIENT_ID" then Some "id"
  else if String.eqb v "QLIK_M2M_CLIENT_SECRET" then Some "secret"
  else None.

(** The download phase of [T1] with the large image missing, from the
    rooted empty store. *)
Definition attempted : world :=
  (downloaded Scenario.large_missing "T1" Scenario.rooted).1.

Definition attempted_locals : locals :=
  mkLocals (Some (data Scenario.payload_kpi)) true false true true.

(** The same download phase when the cleanup that follows will fail. *)
Definition attempted_stuck : world :=
  (downloaded Scenario.large_missing_stuck "T1" Scenario.rooted).1.

(** The complete download phase of [T1]. *)
Definition downloaded_all : world :=
  (downloaded Scenario.healthy "T1" Scenario.rooted).1.

Definition all_saved : locals :=
  mkLocals (Some (data Scenario.payload_kpi)) true true true false.

(** The rooted store with the empty folder of [T1], and with the small
    image saved in it. *)
Definition folder_made : world := (fs_mkdir Scenario.healthy "T1" Scenario.rooted).1.

Definition small_saved : world :=
  (download_one Scenario.healthy "T1" "image-small" init_locals folder_made).1.

(** A refresh of [T1] on a store that holds two other folders. *)
Definition beside : world :=
  (saveSnapshots Scenario.large_missing [Scenario.task_T1]
     (Scenario.store Scenario.good_and_bad)).1.

(** The page's [fetch] in front of a handler that answered [h]. *)
Definition delivers (h : http) (url : string) : res fetch_response := Val (sent h).

End Scenario2.

(** * Properties *)

(** Membership in an explicit list. *)
Ltac in_list :=
  repeat first [ apply list_elem_of_here | apply list_elem_of_further ].

(** An equation between closed terms, by evaluation. *)
Ltac by_run := vm_compute; reflexivity.

(** ** Objects *)

Lemma obj_get_set_eq (k : string) (v : json) (o : obj) :
  obj_get k (obj_set k v o) = Some v.
Proof.
  induction o as [|[k' v'] o IH]; simpl.
  - by rewrite String.eqb_refl.
  - destruct (String.eqb k k') eqn:Hk; simpl; rewrite Hk; [done | exact IH].
Qed.

Lemma obj_get_set_ne (k k' : string) (v : json) (o : obj) :
  k ≠ k' → obj_get k (obj_set k' v o) = obj_get k o.
Proof.
  intros Hne. induction o as [|[k0 v0] o IH]; simpl.
  - destruct (String.eqb_spec k k'); [done | reflexivity].
  - destruct (String.eqb_spec k' k0) as [->|Hk0]; simpl.
    + destruct (String.eqb_spec k k0); [done | reflexivity].
    + destruct (String.eqb_spec k k0); [reflexivity | exact IH].
Qed.

(** ** Reading the store *)

Section Reading.

Variable E : env.

Lemma fs_readFile_world (id name : string) (w : world) :
  (fs_readFile E id name w).1 = w.
Proof.
  unfold fs_readFile. destruct (fails E _); [done|].
  destruct (root w) as [r|]; [|done].
  destruct (r !! id) as [[c|d]|]; try done.
  by destruct (d !! name).
Qed.

Lemma fs_readFile_lookup (id name : string) (w w' : world) (c : content) :
  fs_readFile E id name w = (w', Val c) ↔
  w' = w ∧ fails E (OpRead id name) = false ∧
  ∃ r d, root w = Some r ∧ r !! id = Some (Dir d) ∧ d !! name = Some c.
Proof.
  unfold fs_readFile. destruct (fails E _).
  { split; [done | by intros (_ & ? & _)]. }
  destruct (root w) as [r|]; [|split; [done | by intros (_ & _ & ? & ? & ? & _)]].
  destruct (r !! id) as [[c0|d]|] eqn:Hid.
  - split; [done | intros (_ & _ & r' & d' & [= <-] & ? & _); congruence].
  - destruct (d !! name) as [c0|] eqn:Hn.
    + split.
      * intros [= <- <-]. eauto 10.
      * intros (-> & _ & r' & d' & [= <-] & Hd & Hc). congruence.
    + split; [done | intros (_ & _ & r' & d' & [= <-] & Hd & Hc); congruence].
  - split; [done | intros (_ & _ & r' & d' & [= <-] & ? & _); congruence].
Qed.

(** A property access on a value other than [null] does not throw. *)
Lemma local_entry_val (folder : string) (j : json) (w : world) :
  j ≠ JNull → ∃ e, local_entry folder j w = (w, Val e).
Proof. intros Hj. destruct j; try done; eexists; reflexivity. Qed.

Lemma local_entry_inv (folder : string) (j : json) (w w' : world) (e : entry) :
  local_entry folder j w = (w', Val e) → w' = w ∧ j ≠ JNull.
Proof. destruct j; intros H; try done; by inversion H. Qed.

(** What one folder contributes: nothing, or the entry of its record. *)
Lemma read_folder_cases (folder : string) (w : world) :
  (read_folder E folder w = (w, Val []) ∧
   ∀ j e, fs_readFile E folder "metadata.json" w = (w, Val (JsonText j)) →
          local_entry folder j w ≠ (w, Val e)) ∨
  (∃ j e, fs_readFile E folder "metadata.json" w = (w, Val (JsonText j)) ∧
          local_entry folder j w = (w, Val e) ∧
          read_folder E folder w = (w, Val [e])).
Proof.
  unfold read_folder, try_catch, bind.
  pose proof (fs_readFile_world folder "metadata.json" w) as Hw.
  destruct (fs_readFile E folder "metadata.json" w) as [w1 [c|msg]]; simpl in Hw; subst w1.
  - destruct c as [j|b]; simpl.
    + assert (j = JNull ∨ j ≠ JNull) as [->|Hj] by (destruct j; auto).
      * left. split; [reflexivity|]. intros j e [= <-] H. by apply local_entry_inv in H as [_ ?].
      * right. destruct (local_entry_val folder j w Hj) as [e He].
        exists j, e. rewrite He. done.
    + left. split; [reflexivity | intros j e [=]].
  - left. split; [reflexivity | intros j e [=]].
Qed.

Lemma read_local_spec (l : list (string * node)) (w : world) :
  ∃ L, read_local E l w = (w, Val L) ∧
       ∀ e, e ∈ L ↔ ∃ d n, (d, n) ∈ l ∧ read_folder E d w = (w, Val [e]).
Proof.
  induction l as [|[d n] l (L & HL & Hmem)]; simpl.
  - exists []. split; [reflexivity|]. intros e. split.
    + by intros ?%elem_of_nil.
    + by intros (? & ? & ?%elem_of_nil & _).
  - unfold bind at 1.
    destruct (read_folder_cases d w) as [[Hr _]|(j & e0 & _ & _ & Hr)]; rewrite Hr.
    + unfold bind. rewrite HL. exists L. split; [reflexivity|].
      intros e. rewrite Hmem. split.
      * intros (d' & n' & Hin & He). exists d', n'. split; [by right | done].
      * intros (d' & n' & Hin & He). apply elem_of_cons in Hin as [[= -> ->]|Hin].
        -- rewrite Hr in He. done.
        -- eauto.
    + unfold bind. rewrite HL. exists (e0 :: L). split; [reflexivity|].
      intros e. rewrite elem_of_cons, Hmem. split.
      * intros [->|(d' & n' & Hin & He)].
        -- exists d, n. split; [by left | done].
        -- exists d', n'. split; [by right | done].
      * intros (d' & n' & Hin & He). apply elem_of_cons in Hin as [[= -> ->]|Hin].
        -- left. rewrite Hr in He. by inversion He.
        -- right. eauto.
Qed.

End Reading.

(** ** Saving the artifacts of one task *)

Section Saving.

Variable E : env.

Lemma task_folder_root (w : world) (id : string) (d : gmap string content) :
  task_folder w id = Some d ↔ ∃ r, root w = Some r ∧ r !! id = Some (Dir d).
Proof.
  unfold task_folder. destruct (root w) as [r|].
  - destruct (r !! id) as [[c|d']|] eqn:Hid; split; try done.
    + intros (r' & [= <-] & ?). congruence.
    + intros [= ->]. eauto.
    + intros (r' & [= <-] & ?). congruence.
    + intros (r' & [= <-] & ?). congruence.
  - split; [done | by intros (? & ? & _)].
Qed.

Lemma fs_writeFile_put (id name : string) (c : content) (w : world) (d : gmap string content) :
  task_folder w id = Some d →
  fails E (OpWrite id name) = false →
  fs_writeFile E id name c w = (put id name c w, Val tt).
Proof.
  intros (r & Hr & Hid)%task_folder_root Hf.
  unfold fs_writeFile, put. by rewrite Hf, Hr, Hid.
Qed.

Lemma fs_writeFile_fails (id name : string) (c : content) (w : world) :
  fails E (OpWrite id name) = true →
  ∃ msg, fs_writeFile E id name c w = (w, Exn msg).
Proof. intros Hf. unfold fs_writeFile. rewrite Hf. eauto. Qed.

Lemma put_folder (id name : string) (c : content) (w : world) (d : gmap string content) :
  task_folder w id = Some d →
  task_folder (put id name c w) id = Some (<[ name := c ]> d).
Proof.
  intros (r & Hr & Hid)%task_folder_root. unfold put. rewrite Hr, Hid.
  apply task_folder_root. eexists. split; [reflexivity|]. apply lookup_insert_eq.
Qed.

(** One iteration is decided by the environment. *)
Lemma download_one_eq (id fileAlias : string) (st : locals) (w : world)
    (d : gmap string content) :
  task_folder w id = Some d →
  download_one E id fileAlias st w =
  match role_outcome E id fileAlias with
  | SavedJson b =>
      (put id (json_name fileAlias) (JsonText (body_json b)) (log (EvFetch id fileAlias) w),
       Val (if String.eqb fileAlias "snapshot" then set_snapshot b st else st, true))
  | SavedBinary png buf =>
      (put id (binary_name fileAlias png) (Bytes buf) (log (EvFetch id fileAlias) w),
       Val (if String.eqb fileAlias "image-small" then set_imageSmall st
            else if String.eqb fileAlias "image-large" then set_imageLarge st
            else st, true))
  | Failed => (log (EvFetch id fileAlias) w, Val (set_hasFailures st, false))
  end.
Proof.
  intros Hd.
  assert (Hd' : task_folder (log (EvFetch id fileAlias) w) id = Some d) by exact Hd.
  unfold download_one, try_catch, download_try, bind, qlik_getFile, role_outcome.
  destruct (getSharingTaskExecutionFile E id executionId fileAlias) as [resp|msg];
    [|reflexivity].
  simpl.
  destruct (includes "application/json" _).
  - fold (json_name fileAlias).
    destruct (fails E (OpWrite id (json_name fileAlias))) eqn:Hf.
    + destruct (fs_writeFile_fails id (json_name fileAlias)
                  (JsonText (body_json (data resp))) (log (EvFetch id fileAlias) w) Hf)
        as [msg ->].
      reflexivity.
    + rewrite (fs_writeFile_put _ _ _ _ _ Hd' Hf).
      by destruct (String.eqb fileAlias "snapshot").
  - unfold lift. destruct (to_buffer E (data resp)) as [buf|msg]; [|reflexivity].
    destruct (includes "image/png" _); simpl.
    + destruct (fails E (OpWrite id (fileAlias ++ ".png"))) eqn:Hf.
      * destruct (fs_writeFile_fails id (fileAlias ++ ".png") (Bytes buf)
                    (log (EvFetch id fileAlias) w) Hf) as [msg ->].
        reflexivity.
      * rewrite (fs_writeFile_put _ _ _ _ _ Hd' Hf).
        destruct (String.eqb fileAlias "image-small"); [done|].
        by destruct (String.eqb fileAlias "image-large").
    + destruct (fails E (OpWrite id fileAlias)) eqn:Hf.
      * destruct (fs_writeFile_fails id fileAlias (Bytes buf)
                    (log (EvFetch id fileAlias) w) Hf) as [msg ->].
        reflexivity.
      * rewrite (fs_writeFile_put _ _ _ _ _ Hd' Hf).
        destruct (String.eqb fileAlias "image-small"); [done|].
        by destruct (String.eqb fileAlias "image-large").
Qed.

Lemma role_outcome_json (id fileAlias : string) (b : body) :
  role_outcome E id fileAlias = SavedJson b →
  ∃ resp, getSharingTaskExecutionFile E id executionId fileAlias = Val resp ∧
          b = data resp.
Proof.
  unfold role_outcome.
  destruct (getSharingTaskExecutionFile E id executionId fileAlias) as [resp|]; [|done].
  simpl. destruct (includes "application/json" _).
  - destruct (fails E _); [done|]. intros [= <-]. eauto.
  - destruct (to_buffer _); [|done]. by destruct (fails E _).
Qed.

Lemma artifact_not_metadata (id : string) (e : event) :
  artifact_event id e → e ≠ EvWrite id "metadata.json".
Proof.
  intros (a & Ha & He). unfold fileFormats in Ha.
  repeat (apply elem_of_cons in Ha as [->|Ha]);
    [| | | by apply elem_of_nil in Ha];
    destruct He as [->|[->|[[] ->]]]; done.
Qed.

Lemma loop_inv_init (id : string) (w0 : world) (d0 : gmap string content) :
  task_folder w0 id = Some d0 → loop_inv E id w0 init_locals w0.
Proof.
  intros (r0 & Hr & Hid)%task_folder_root.
  exists r0, d0, d0, []. rewrite insert_id by done. rewrite app_nil_r.
  repeat split; try done. by intros e ?%elem_of_nil.
Qed.

Lemma loop_inv_folder (id : string) (w0 w : world) (st : locals) :
  loop_inv E id w0 st w → ∃ d, task_folder w id = Some d.
Proof.
  intros (r0 & d0 & d & evs & _ & _ & Hr & _). exists d.
  apply task_folder_root. eexists. split; [exact Hr | apply lookup_insert_eq].
Qed.

(** The events of a saved file extend the trace by artifact events. *)
Lemma artifact_events_app (id a : string) (evs : list event) (e : event) :
  a ∈ fileFormats →
  (∀ e', e' ∈ evs → artifact_event id e') →
  (e = EvWrite id (json_name a) ∨ ∃ png, e = EvWrite id (binary_name a png)) →
  ∀ e', e' ∈ (evs ++ [EvFetch id a; e])%list → artifact_event id e'.
Proof.
  intros Ha Hevs He e' [Hin|Hin]%elem_of_app; [by apply Hevs|].
  exists a. split; [done|].
  apply elem_of_cons in Hin as [->|Hin]; [by left|].
  apply list_elem_of_singleton in Hin as ->. by right.
Qed.

Lemma download_one_inv (id a : string) (w0 w : world) (st : locals) :
  a ∈ fileFormats →
  loop_inv E id w0 st w →
  ∃ w' st' c, download_one E id a st w = (w', Val (st', c)) ∧
              loop_inv E id w0 st' w' ∧
              (c = false → hasFailures st' = true) ∧
              hasFailures st' = (hasFailures st || negb c)%bool.
Proof.
  intros Ha Hinv. destruct (loop_inv_folder _ _ _ _ Hinv) as [d' Hd'].
  rewrite (download_one_eq id a st w d' Hd').
  destruct Hinv as (r0 & d0 & d & evs & Hr0 & Hid0 & Hr & Ht & Htr & Hevs & Hmono
                    & Hmeta & Hsnap & Hsmall & Hlarge).
  assert (d' = d) as ->.
  { apply task_folder_root in Hd' as (r & Hr' & Hd'). rewrite Hr in Hr'.
    inversion Hr'; subst r. rewrite lookup_insert_eq in Hd'. by inversion Hd'. }
  assert (Hput : ∀ name c,
    root (put id name c (log (EvFetch id a) w))
    = Some (<[ id := Dir (<[ name := c ]> d) ]> r0)
    ∧ ticks (put id name c (log (EvFetch id a) w)) = ticks w0
    ∧ trace (put id name c (log (EvFetch id a) w))
      = (trace w0 ++ (evs ++ [EvFetch id a; EvWrite id name]))%list).
  { intros name c. unfold put. simpl. rewrite Hr, lookup_insert_eq. simpl.
    rewrite insert_insert_eq, Htr, Ht. rewrite <- !app_assoc. done. }
  assert (Hkeep : ∀ name c n, is_Some (d !! n) → is_Some (<[ name := c ]> d !! n)).
  { intros name c n Hn. destruct (decide (name = n)) as [->|Hne].
    - rewrite lookup_insert_eq. eauto.
    - by rewrite lookup_insert_ne. }
  assert (Hin : ∀ e0 e1 e2 : event, e0 ∈ evs → e0 ∈ (evs ++ [e1; e2])%list).
  { intros. apply elem_of_app. by left. }
  assert (Hlast : ∀ e1 e2 : event, e2 ∈ (evs ++ [e1; e2])%list).
  { intros. apply elem_of_app. right. apply elem_of_cons. right.
    by apply list_elem_of_singleton. }
  destruct (role_outcome E id a) as [b|png buf|] eqn:Hout.
  - (* a JSON file was saved *)
    destruct (Hput (json_name a) (JsonText (body_json b))) as (Hr' & Ht' & Htr').
    eexists _, _, true. split; [reflexivity|]. split; [|split; [done|]].
    + exists r0, d0, (<[ json_name a := JsonText (body_json b) ]> d),
        (evs ++ [EvFetch id a; EvWrite id (json_name a)])%list.
      split; [done|]. split; [done|]. split; [done|]. split; [done|]. split; [done|].
      split; [apply artifact_events_app; auto|].
      split; [intros n Hn; apply Hkeep, Hmono, Hn|].
      split.
      { rewrite lookup_insert_ne; [done|].
        unfold fileFormats in Ha.
        repeat (apply elem_of_cons in Ha as [->|Ha]); try done.
        by apply elem_of_nil in Ha. }
      destruct (String.eqb_spec a "snapshot") as [->|Hne]; simpl.
      * split; [|split].
        -- intros _. split; [|split].
           ++ change (json_name "snapshot") with "snapshot.json".
              rewrite lookup_insert_eq. eauto.
           ++ apply Hlast.
           ++ apply role_outcome_json in Hout as (resp & Hresp & ->). eauto.
        -- intros (png & Hf & He)%Hsmall. exists png. split; [by apply Hkeep | by apply Hin].
        -- intros (png & Hf & He)%Hlarge. exists png. split; [by apply Hkeep | by apply Hin].
      * split; [|split].
        -- intros (Hf & He & Hresp)%Hsnap. split; [by apply Hkeep|]. split; [by apply Hin | done].
        -- intros (png & Hf & He)%Hsmall. exists png. split; [by apply Hkeep | by apply Hin].
        -- intros (png & Hf & He)%Hlarge. exists png. split; [by apply Hkeep | by apply Hin].
    + simpl. by destruct (String.eqb a "snapshot"); simpl; rewrite orb_false_r.
  - (* a binary file was saved *)
    destruct (Hput (binary_name a png) (Bytes buf)) as (Hr' & Ht' & Htr').
    eexists _, _, true. split; [reflexivity|]. split; [|split; [done|]].
    + exists r0, d0, (<[ binary_name a png := Bytes buf ]> d),
        (evs ++ [EvFetch id a; EvWrite id (binary_name a png)])%list.
      split; [done|]. split; [done|]. split; [done|]. split; [done|]. split; [done|].
      split; [apply artifact_events_app; eauto|].
      split; [intros n Hn; apply Hkeep, Hmono, Hn|].
      split.
      { rewrite lookup_insert_ne; [done|].
        unfold fileFormats in Ha.
        repeat (apply elem_of_cons in Ha as [->|Ha]); try (by destruct png).
        by apply elem_of_nil in Ha. }
      destruct (String.eqb_spec a "image-small") as [->|Hne1]; simpl.
      * split; [|split].
        -- intros (Hf & He & Hresp)%Hsnap. split; [by apply Hkeep|]. split; [by apply Hin | done].
        -- intros _. exists png. split; [rewrite lookup_insert_eq; eauto | apply Hlast].
        -- intros (png' & Hf & He)%Hlarge. exists png'. split; [by apply Hkeep | by apply Hin].
      * destruct (String.eqb_spec a "image-large") as [->|Hne2]; simpl.
        -- split; [|split].
           ++ intros (Hf & He & Hresp)%Hsnap. split; [by apply Hkeep|]. split; [by apply Hin | done].
           ++ intros (png' & Hf & He)%Hsmall. exists png'. split; [by apply Hkeep | by apply Hin].
           ++ intros _. exists png. split; [rewrite lookup_insert_eq; eauto | apply Hlast].
        -- split; [|split].
           ++ intros (Hf & He & Hresp)%Hsnap. split; [by apply Hkeep|]. split; [by apply Hin | done].
           ++ intros (png' & Hf & He)%Hsmall. exists png'. split; [by apply Hkeep | by apply Hin].
           ++ intros (png' & Hf & He)%Hlarge. exists png'. split; [by apply Hkeep | by apply Hin].
    + simpl. destruct (String.eqb a "image-small"); simpl; [by rewrite orb_false_r|].
      by destruct (String.eqb a "image-large"); simpl; rewrite orb_false_r.
  - (* the download failed *)
    eexists _, _, false. split; [reflexivity|]. split; [|split; [done|]].
    + exists r0, d0, d, (evs ++ [EvFetch id a])%list.
      split; [done|]. split; [done|]. split; [done|]. split; [done|].
      split; [simpl; by rewrite Htr, <- app_assoc|].
      split.
      { intros e [He|He]%elem_of_app; [by apply Hevs|].
        apply list_elem_of_singleton in He as ->. exists a. split; [done | by left]. }
      split; [done|]. split; [done|].
      assert (Hin1 : ∀ e0 : event, e0 ∈ evs → e0 ∈ (evs ++ [EvFetch id a])%list).
      { intros. apply elem_of_app. by left. }
      simpl. split; [|split].
      * intros (Hf & He & Hresp)%Hsnap. split; [done|]. split; [by apply Hin1 | done].
      * intros (png' & Hf & He)%Hsmall. exists png'. split; [done | by apply Hin1].
      * intros (png' & Hf & He)%Hlarge. exists png'. split; [done | by apply Hin1].
    + simpl. by rewrite orb_true_r.
Qed.

Lemma download_loop_inv (id : string) (aliases : list string) (w0 w : world)
    (st : locals) :
  (∀ a, a ∈ aliases → a ∈ fileFormats) →
  loop_inv E id w0 st w →
  ∃ w' st', download_loop E id aliases st w = (w', Val st') ∧
            loop_inv E id w0 st' w'.
Proof.
  revert w st. induction aliases as [|a aliases IH]; intros w st Hsub Hinv; simpl.
  - by exists w, st.
  - destruct (download_one_inv id a w0 w st) as (w1 & st1 & c & Hone & Hinv1 & _);
      [apply Hsub; by left | done |].
    unfold bind. rewrite Hone. simpl. destruct c.
    + apply IH; [|done]. intros a' Ha'. apply Hsub. by right.
    + by exists w1, st1.
Qed.

Lemma fs_mkdir_cases (id : string) (w : world) :
  (∃ msg, fs_mkdir E id w = (w, Exn msg)) ∨
  (∃ w1 d1, fs_mkdir E id w = (w1, Val tt) ∧
     task_folder w1 id = Some d1 ∧
     ticks w1 = ticks w ∧
     (∃ evs, trace w1 = (trace w ++ evs)%list ∧ ∀ e, e ∈ evs → e = EvMkdir id) ∧
     (∀ name, name ≠ id → node_at w1 name = node_at w name) ∧
     (task_folder w id = Some d1 ∨ (node_at w id = None ∧ d1 = ∅))).
Proof.
  unfold fs_mkdir, task_folder, node_at. destruct (fails E _); [left; eauto|].
  destruct (root w) as [r|] eqn:Hr.
  - destruct (r !! id) as [[c|d]|] eqn:Hid.
    + left; eauto.
    + right. exists w, d. rewrite Hr, Hid. repeat split; try done.
      * exists []. rewrite app_nil_r. split; [done | by intros e ?%elem_of_nil].
      * by left.
    + right. eexists _, ∅. split; [reflexivity|]. simpl. rewrite lookup_insert_eq.
      repeat split; try done.
      * exists [EvMkdir id]. split; [done | by intros e ->%list_elem_of_singleton].
      * intros name Hne. by rewrite lookup_insert_ne.
      * by right.
  - right. eexists _, ∅. split; [reflexivity|]. simpl. rewrite lookup_singleton_eq.
    repeat split; try done.
    + exists [EvMkdir id]. split; [done | by intros e ->%list_elem_of_singleton].
    + intros name Hne. by rewrite lookup_singleton_ne.
    + by right.
Qed.

(** The task loop body is the download phase followed by the cleanup or
    the commit. *)
Lemma save_task_unfold (task : obj) (id : string) (w : world) :
  obj_get "id" task = Some (JStr id) →
  save_task E task w =
  match downloaded E id w with
  | (w2, Val st) =>
      if incomplete st then try_catch (fs_rm E id) (fun _ => ret tt) w2
      else fs_writeFile E id "metadata.json"
             (JsonText (JObj (record_of task st (clock E (ticks w2))))) (tick w2)
  | (w2, Exn msg) => (w2, Exn msg)
  end.
Proof.
  intros Hid. unfold save_task, task_dir, downloaded. rewrite Hid.
  unfold bind at 1. unfold ret at 1. unfold bind.
  destruct (fs_mkdir E id w) as [w1 [[]|msg]]; [|done].
  destruct (download_loop E id fileFormats init_locals w1) as [w2 [st|msg]]; [|done].
  by destruct (incomplete st).
Qed.

Lemma downloaded_cases (id : string) (w : world) :
  (∃ msg, fs_mkdir E id w = (w, Exn msg) ∧ downloaded E id w = (w, Exn msg)) ∨
  (∃ w1 w2 st, fs_mkdir E id w = (w1, Val tt) ∧
               downloaded E id w = (w2, Val st) ∧
               loop_inv E id w1 st w2).
Proof.
  unfold downloaded, bind.
  destruct (fs_mkdir_cases id w) as [[msg Hm]|(w1 & d1 & Hm & Hd1 & _)]; rewrite Hm.
  - left. eauto.
  - right.
    destruct (download_loop_inv id fileFormats w1 w1 init_locals) as (w2 & st & Hl & Hinv);
      [done | by eapply loop_inv_init |].
    rewrite Hl. eauto 10.
Qed.

Lemma fs_rm_cases (id : string) (w : world) (d : gmap string content) :
  task_folder w id = Some d →
  try_catch (fs_rm E id) (fun _ => ret tt) w
  = (if fails E (OpRm id) then partly_removed E id w else removed id w, Val tt).
Proof.
  intros (r & Hr & Hid)%task_folder_root.
  unfold try_catch, fs_rm, removed, partly_removed. rewrite Hr, Hid.
  by destruct (fails E _).
Qed.

(** A removal that fails changes neither the trace nor the clock, nor
    what the root holds under another name; it leaves a folder a folder,
    and of its files only some, unchanged. *)
Lemma partly_removed_trace (id : string) (w : world) :
  trace (partly_removed E id w) = trace w.
Proof.
  unfold partly_removed. destruct (root w) as [r|]; [|done].
  by destruct (r !! id).
Qed.

Lemma partly_removed_ticks (id : string) (w : world) :
  ticks (partly_removed E id w) = ticks w.
Proof.
  unfold partly_removed. destruct (root w) as [r|]; [|done].
  by destruct (r !! id).
Qed.

Lemma partly_removed_other (id other : string) (w : world) :
  other ≠ id → node_at (partly_removed E id w) other = node_at w other.
Proof.
  intros Hne. unfold partly_removed, node_at.
  destruct (root w) as [r|] eqn:Hr; [|by rewrite Hr].
  destruct (r !! id) eqn:Hid; [|by rewrite Hr].
  simpl. by rewrite lookup_insert_ne.
Qed.

Lemma partly_removed_folder (id : string) (w : world) (d : gmap string content) :
  task_folder w id = Some d →
  task_folder (partly_removed E id w) id
  = Some (filter (fun kv => rm_keeps E id kv.1 = true) d).
Proof.
  intros (r & Hr & Hid)%task_folder_root.
  unfold partly_removed, task_folder. rewrite Hr, Hid. simpl.
  by rewrite lookup_insert_eq.
Qed.

Lemma partly_removed_file (id name : string) (w : world) (c : content) :
  file_at (partly_removed E id w) id name = Some c →
  file_at w id name = Some c ∧ rm_keeps E id name = true.
Proof.
  unfold file_at. destruct (task_folder w id) as [d|] eqn:Hd.
  - rewrite (partly_removed_folder id w d Hd).
    by intros [? ?]%map_lookup_filter_Some.
  - intros H. exfalso. revert H Hd. unfold partly_removed, task_folder.
    destruct (root w) as [r|] eqn:Hr; [|by rewrite Hr].
    destruct (r !! id) as [[c'|d']|] eqn:Hid; [|done|by rewrite Hr, Hid].
    simpl. by rewrite lookup_insert_eq.
Qed.

Lemma incomplete_false (st : locals) :
  incomplete st = false ↔
  hasFailures st = false ∧ imageSmallSaved st = true ∧ imageLargeSaved st = true
  ∧ snapshotSaved st = true.
Proof.
  unfold incomplete.
  destruct (hasFailures st), (imageSmallSaved st), (imageLargeSaved st),
    (snapshotSaved st); simpl; intuition congruence.
Qed.

(** What a completed iteration of the task loop did: either the task was
    incomplete, its folder was removed (or, when the removal failed,
    left with the files that could not be deleted)
    and no record was written; or the record was written into the folder
    the downloads filled. *)
Lemma save_task_outcome (task : obj) (id : string) (w w' : world) :
  obj_get "id" task = Some (JStr id) →
  save_task E task w = (w', Val tt) →
  ∃ w1 w2 st,
    fs_mkdir E id w = (w1, Val tt) ∧
    downloaded E id w = (w2, Val st) ∧
    loop_inv E id w1 st w2 ∧
    ((incomplete st = true ∧
      w' = (if fails E (OpRm id) then partly_removed E id w2 else removed id w2) ∧
      ¬ committed id w w')
     ∨
     (incomplete st = false ∧
      fails E (OpWrite id "metadata.json") = false ∧
      w' = put id "metadata.json"
             (JsonText (JObj (record_of task st (clock E (ticks w2))))) (tick w2) ∧
      committed id w w')).
Proof.
  intros Hid Hsave. rewrite (save_task_unfold task id w Hid) in Hsave.
  destruct (downloaded_cases id w) as [(msg & _ & Hd)|(w1 & w2 & st & Hm & Hd & Hinv)];
    rewrite Hd in Hsave; [done|].
  exists w1, w2, st. split; [done|]. split; [done|]. split; [done|].
  destruct (loop_inv_folder _ _ _ _ Hinv) as [d2 Hd2].
  pose proof Hinv as (r0 & d0 & d & evs & Hr0 & Hid0 & Hr2 & Ht & Htr & Hevs & _).
  destruct (fs_mkdir_cases id w) as [[msg Hm']|(w1' & d1 & Hm' & _ & _ & (evm & Htrm & Hevm) & _)];
    rewrite Hm in Hm'; [done|]. inversion Hm'; subst w1'. clear Hm'.
  destruct (incomplete st) eqn:Hinc.
  - left. rewrite (fs_rm_cases id w2 d2 Hd2) in Hsave. injection Hsave as Hw'.
    split; [done|]. split; [done|].
    intros (evs' & Hevs' & Hin).
    assert (Htr' : ∃ tl, trace w' = (trace w ++ evm ++ evs ++ tl)%list
                         ∧ ∀ e, e ∈ tl → e = EvRm id).
    { rewrite <- Hw'. destruct (fails E (OpRm id)).
      - exists []. rewrite partly_removed_trace, Htr, Htrm, app_nil_r, <- app_assoc.
        split; [done | by intros e ?%elem_of_nil].
      - exists [EvRm id]. unfold removed. rewrite Hr2. simpl.
        rewrite Htr, Htrm, <- !app_assoc.
        split; [done | by intros e ->%list_elem_of_singleton]. }
    destruct Htr' as (tl & Htl & Hrm). rewrite Htl in Hevs'.
    apply app_inv_head in Hevs'. subst evs'.
    apply elem_of_app in Hin as [Hin|Hin]; [by apply Hevm in Hin|].
    apply elem_of_app in Hin as [Hin|Hin]; [|by apply Hrm in Hin].
    by apply Hevs, artifact_not_metadata in Hin.
  - right. split; [done|].
    assert (Hd2' : task_folder (tick w2) id = Some d2) by exact Hd2.
    destruct (fails E (OpWrite id "metadata.json")) eqn:Hf.
    + destruct (fs_writeFile_fails id "metadata.json"
                  (JsonText (JObj (record_of task st (clock E (ticks w2))))) (tick w2) Hf)
        as [msg Hw]. rewrite Hw in Hsave. done.
    + rewrite (fs_writeFile_put _ _ _ _ _ Hd2' Hf) in Hsave. injection Hsave as Hw'.
      split; [done|]. split; [done|].
      exists (evm ++ evs ++ [EvWrite id "metadata.json"])%list. split.
      * rewrite <- Hw'. unfold put, tick. simpl. rewrite Hr2, lookup_insert_eq. simpl.
        rewrite Htr, Htrm, <- !app_assoc. done.
      * rewrite !elem_of_app. right. right. by apply list_elem_of_singleton.
Qed.

Lemma record_of_visualization (task : obj) (st : locals) (now : string) :
  obj_get "visualization" (record_of task st now)
  = Some (visualization_of (snapshotData st)).
Proof.
  unfold record_of, enhancedMetadata.
  rewrite !obj_get_set_ne by done. apply obj_get_set_eq.
Qed.

Lemma record_of_displayMode (task : obj) (st : locals) (now : string) :
  obj_get "displayMode" (record_of task st now)
  = Some (JStr (displayMode_of (visualization_of (snapshotData st)))).
Proof.
  unfold record_of, enhancedMetadata.
  rewrite obj_get_set_ne by done. apply obj_get_set_eq.
Qed.

Lemma record_of_inherited (k : string) (task : obj) (st : locals) (now : string) :
  k ∉ ["visualization"; "imageAvailable"; "snapshotAvailable"; "displayMode";
       "lastUpdated"] →
  obj_get k (record_of task st now) = obj_get k task.
Proof.
  intros Hk. unfold record_of, enhancedMetadata.
  rewrite !obj_get_set_ne; [done|..]; intros ->; apply Hk; set_solver.
Qed.

Lemma obj_set_set_eq (k : string) (v v' : json) (o : obj) :
  obj_set k v (obj_set k v' o) = obj_set k v o.
Proof.
  induction o as [|[k0 v0] o IH]; simpl.
  - by rewrite String.eqb_refl.
  - destruct (String.eqb k k0) eqn:Hk; simpl; rewrite Hk; [done | by rewrite IH].
Qed.

(** A committed transaction leaves the record of its downloads in the
    task's folder. *)
Lemma committed_record (task : obj) (id : string) (w w' : world) :
  obj_get "id" task = Some (JStr id) →
  save_task E task w = (w', Val tt) →
  committed id w w' →
  ∃ w1 w2 st d2,
    downloaded E id w = (w2, Val st) ∧ loop_inv E id w1 st w2 ∧
    incomplete st = false ∧
    task_folder w2 id = Some d2 ∧
    task_folder w' id
    = Some (<[ "metadata.json" :=
               JsonText (JObj (record_of task st (clock E (ticks w2)))) ]> d2).
Proof.
  intros Hid Hsave Hc.
  destruct (save_task_outcome task id w w' Hid Hsave)
    as (w1 & w2 & st & _ & Hd & Hinv & [(_ & _ & Hn)|(Hinc & _ & Hw' & _)]); [done|].
  destruct (loop_inv_folder _ _ _ _ Hinv) as [d2 Hd2].
  exists w1, w2, st, d2. repeat split; try done.
  rewrite Hw'. by apply put_folder.
Qed.

(** A response that arrives is saved whatever its status: the body of the
    [try] never takes the branch of line 264. *)
Lemma download_try_never_breaks (id fileAlias : string) (st st' : locals)
    (w w' : world) (c : bool) :
  download_try E id fileAlias st w = (w', Val (st', c)) →
  c = true ∧ hasFailures st' = hasFailures st.
Proof.
  unfold download_try, bind, qlik_getFile.
  destruct (getSharingTaskExecutionFile E id executionId fileAlias) as [resp|]; [|done].
  simpl. destruct (includes "application/json" _).
  - destruct (fs_writeFile E id _ _ _) as [w1 [[]|]]; [|done].
    destruct (String.eqb fileAlias "snapshot"); by intros [= <- <- <-].
  - unfold lift. destruct (to_buffer _); [|done].
    destruct (fs_writeFile E id _ _ _) as [w1 [[]|]]; [|done].
    destruct (String.eqb fileAlias "image-small"); [by intros [= <- <- <-]|].
    destruct (String.eqb fileAlias "image-large"); by intros [= <- <- <-].
Qed.

Lemma fs_mkdir_val (id : string) (w w1 : world) :
  fs_mkdir E id w = (w1, Val tt) →
  ticks w1 = ticks w ∧
  (∃ evs, trace w1 = (trace w ++ evs)%list ∧ ∀ e, e ∈ evs → e = EvMkdir id) ∧
  (∀ name, name ≠ id → node_at w1 name = node_at w name).
Proof.
  intros Hm.
  destruct (fs_mkdir_cases id w) as [[msg Hm']|(w1' & d1 & Hm' & _ & Ht & Htr & Hfr & _)];
    rewrite Hm in Hm'; [done|].
  by injection Hm' as <-.
Qed.

Lemma node_at_task_folder (w w' : world) (id : string) :
  node_at w id = node_at w' id → task_folder w id = task_folder w' id.
Proof.
  unfold node_at, task_folder. intros H.
  destruct (root w) as [r|], (root w') as [r'|]; try rewrite H; try rewrite <- H; done.
Qed.

Lemma has_file_true (w : world) (id name : string) :
  has_file w id name = true ↔
  ∃ d, task_folder w id = Some d ∧ is_Some (d !! name).
Proof.
  unfold has_file. destruct (task_folder w id) as [d|].
  - rewrite bool_decide_eq_true. split; [eauto | by intros (d' & [= <-] & ?)].
  - split; [done | by intros (? & ? & _)].
Qed.

Lemma absent_no_file (w : world) (id name : string) :
  node_at w id = None → has_file w id name = false.
Proof.
  unfold has_file, task_folder, node_at. destruct (root w) as [r|]; [|done].
  by intros ->.
Qed.

Lemma loop_inv_frame (id other : string) (w0 w : world) (st : locals) :
  loop_inv E id w0 st w → other ≠ id → node_at w other = node_at w0 other.
Proof.
  intros (r0 & d0 & d & evs & Hr0 & _ & Hr & _) Hne.
  unfold node_at. rewrite Hr, Hr0. by rewrite lookup_insert_ne.
Qed.

(** A completed iteration leaves the other folders alone. *)
Lemma save_task_frame (task : obj) (id other : string) (w w' : world) :
  obj_get "id" task = Some (JStr id) →
  save_task E task w = (w', Val tt) →
  other ≠ id →
  node_at w' other = node_at w other.
Proof.
  intros Hid Hsave Hne.
  destruct (save_task_outcome task id w w' Hid Hsave)
    as (w1 & w2 & st & Hm & _ & Hinv & Hcase).
  apply fs_mkdir_val in Hm as (_ & _ & Hfr).
  rewrite <- (Hfr other Hne), <- (loop_inv_frame id other w1 w2 st Hinv Hne).
  destruct Hinv as (r0 & d0 & d & evs & _ & _ & Hr & _).
  destruct Hcase as [(_ & -> & _)|(_ & _ & -> & _)].
  - destruct (fails E (OpRm id)); [by apply partly_removed_other|].
    unfold removed, node_at. rewrite Hr. simpl. by rewrite lookup_delete_ne.
  - unfold put, tick, node_at. simpl. rewrite Hr, lookup_insert_eq. simpl.
    by rewrite lookup_insert_ne.
Qed.

(** With a removal that does not fail, a completed iteration leaves the
    task's folder complete or gone. *)
Lemma save_task_complete_or_absent (task : obj) (id : string) (w w' : world) :
  obj_get "id" task = Some (JStr id) →
  save_task E task w = (w', Val tt) →
  fails E (OpRm id) = false →
  complete_or_absent w' id.
Proof.
  intros Hid Hsave Hrm.
  destruct (save_task_outcome task id w w' Hid Hsave)
    as (w1 & w2 & st & _ & _ & Hinv & Hcase).
  pose proof (loop_inv_folder _ _ _ _ Hinv) as [d2 Hd2].
  destruct Hinv as (r0 & d0 & d & evs & _ & _ & Hr & _ & _ & _ & _ & _
                    & Hsnap & Hsmall & Hlarge).
  assert (d2 = d) as ->.
  { apply task_folder_root in Hd2 as (r & Hr' & Hd2). rewrite Hr in Hr'.
    injection Hr' as <-. rewrite lookup_insert_eq in Hd2. by injection Hd2. }
  destruct Hcase as [(_ & -> & _)|(Hinc & _ & -> & _)].
  - right. rewrite Hrm. unfold removed, node_at. rewrite Hr. simpl.
    apply lookup_delete_eq.
  - left. apply incomplete_false in Hinc as (_ & Hs & Hl & Hj).
    assert (Hf : ∀ name, name = "metadata.json" ∨ is_Some (d !! name) →
      has_file (put id "metadata.json"
                  (JsonText (JObj (record_of task st (clock E (ticks w2))))) (tick w2))
               id name = true).
    { intros name Hn. apply has_file_true. eexists. split; [by apply put_folder|].
      destruct Hn as [->|Hn]; [rewrite lookup_insert_eq; eauto|].
      destruct (decide ("metadata.json" = name)) as [<-|Hne].
      - rewrite lookup_insert_eq; eauto.
      - by rewrite lookup_insert_ne. }
    split; [apply Hf; by left|]. unfold has_artifacts.
    destruct (Hsnap Hj) as (Hjs & _). rewrite (Hf "snapshot.json") by by right.
    destruct (Hsmall Hs) as ([] & Hfs & _), (Hlarge Hl) as ([] & Hfl & _);
      simpl in Hfs, Hfl.
    + rewrite (Hf "image-small.png"), (Hf "image-large.png") by by right. done.
    + rewrite (Hf "image-small.png"), (Hf "image-large") by by right.
      simpl. by rewrite orb_true_r.
    + rewrite (Hf "image-small"), (Hf "image-large.png") by by right.
      simpl. by rewrite orb_true_r.
    + rewrite (Hf "image-small"), (Hf "image-large") by by right.
      simpl. by rewrite !orb_true_r.
Qed.

Lemma complete_or_absent_eq (w : world) (id : string) :
  complete_or_absent w id → has_metadata w id = has_artifacts w id.
Proof.
  intros [[-> ->]|Habs]; [done|].
  unfold has_metadata, has_artifacts. by rewrite !absent_no_file.
Qed.

Lemma complete_or_absent_frame (w w' : world) (id : string) :
  node_at w' id = node_at w id → complete_or_absent w id → complete_or_absent w' id.
Proof.
  intros Hn. pose proof (node_at_task_folder _ _ _ Hn) as Hf.
  unfold complete_or_absent, has_metadata, has_artifacts, has_file.
  by rewrite Hf, Hn.
Qed.

(** ** The order of the writes *)

Lemma record_after_artifacts_none (id : string) (evs : list event) :
  EvWrite id "metadata.json" ∉ evs → record_after_artifacts id evs.
Proof.
  intros Hn pre post ->. destruct Hn. apply elem_of_app. right. by left.
Qed.

Lemma record_after_artifacts_app (id : string) (s1 s2 : list event) :
  record_after_artifacts id s1 → record_after_artifacts id s2 →
  record_after_artifacts id (s1 ++ s2).
Proof.
  intros H1 H2 pre post Heq.
  apply app_eq_inv in Heq as [(k & Hs1 & Hk)|(k & -> & Hs2)].
  - destruct k as [|e k]; simpl in Hk.
    + destruct (H2 [] post) as (Habs%elem_of_nil & _); [by symmetry|done].
    + injection Hk as <- ->. by apply (H1 pre k).
  - destruct (H2 k post Hs2) as (Ha & (p1 & Hb) & (p2 & Hc)).
    split; [apply elem_of_app; by right|].
    split; [exists p1 | exists p2]; apply elem_of_app; by right.
Qed.

Lemma app_last_split (l pre post : list event) (x y : event) :
  (l ++ [x])%list = (pre ++ y :: post)%list → y ∉ l →
  pre = l ∧ y = x ∧ post = [].
Proof.
  revert pre. induction l as [|e l IH]; intros pre Heq Hy; simpl in Heq.
  - destruct pre as [|e' pre]; simpl in Heq.
    + by injection Heq as <- <-.
    + injection Heq as _ Heq. by destruct pre.
  - destruct pre as [|e' pre]; simpl in Heq.
    + injection Heq as <- _. destruct Hy. by left.
    + injection Heq as <- Heq.
      destruct (IH pre Heq) as (-> & -> & ->); [|done].
      intros Hin. apply Hy. by right.
Qed.

(** The events of a completed iteration: the record, when written, is
    the last event and the three artifact writes precede it. *)
Lemma save_task_trace (task : obj) (id : string) (w w' : world) :
  obj_get "id" task = Some (JStr id) →
  save_task E task w = (w', Val tt) →
  ∃ seg, trace w' = (trace w ++ seg)%list ∧ ∀ id', record_after_artifacts id' seg.
Proof.
  intros Hid Hsave.
  destruct (save_task_outcome task id w w' Hid Hsave)
    as (w1 & w2 & st & Hm & _ & Hinv & Hcase).
  apply fs_mkdir_val in Hm as (_ & (evm & Htrm & Hevm) & _).
  destruct Hinv as (r0 & d0 & d & evs & _ & _ & Hr & _ & Htr & Hevs & _ & _
                    & Hsnap & Hsmall & Hlarge).
  assert (Hnone : ∀ id', EvWrite id' "metadata.json" ∉ (evm ++ evs)%list).
  { intros id' [Hin|Hin]%elem_of_app; [by apply Hevm in Hin|].
    destruct (Hevs _ Hin) as (a & Ha & He). unfold fileFormats in Ha.
    repeat (apply elem_of_cons in Ha as [->|Ha]);
      [| | | by apply elem_of_nil in Ha];
      destruct He as [?|[?|[[] ?]]]; done. }
  destruct Hcase as [(_ & -> & _)|(Hinc & _ & -> & _)].
  - destruct (fails E (OpRm id)).
    + exists (evm ++ evs)%list.
      split; [by rewrite partly_removed_trace, Htr, Htrm, <- app_assoc|].
      intros id'. by apply record_after_artifacts_none.
    + exists ((evm ++ evs) ++ [EvRm id])%list. split.
      * unfold removed. rewrite Hr. simpl. by rewrite Htr, Htrm, <- !app_assoc.
      * intros id'. apply record_after_artifacts_none.
        intros [Hin|Hin]%elem_of_app; [by apply (Hnone id')|].
        by apply list_elem_of_singleton in Hin.
  - exists ((evm ++ evs) ++ [EvWrite id "metadata.json"])%list. split.
    + unfold put, tick. simpl. rewrite Hr, lookup_insert_eq. simpl.
      by rewrite Htr, Htrm, <- !app_assoc.
    + intros id' pre post Heq.
      apply app_last_split in Heq as (-> & Heq & _); [|apply Hnone].
      injection Heq as ->.
      apply incomplete_false in Hinc as (_ & Hs & Hl & Hj).
      destruct (Hsnap Hj) as (_ & Hin1 & _).
      destruct (Hsmall Hs) as (p1 & _ & Hin2), (Hlarge Hl) as (p2 & _ & Hin3).
      split; [apply elem_of_app; by right|].
      split; [exists p1 | exists p2]; apply elem_of_app; by right.
Qed.

End Saving.

(** ** The task loop *)

Section Refreshing.

Variable E : env.

Lemma save_task_no_id (task : obj) (w w' : world) (r : res unit) :
  save_task E task w = (w', r) →
  (∀ id, obj_get "id" task ≠ Some (JStr id)) →
  ∃ msg, r = Exn msg.
Proof.
  unfold save_task, task_dir, bind. intros Hs Hn.
  destruct (obj_get "id" task) as [[| | |id| |]|]; simpl in Hs;
    try (injection Hs as _ <-; eauto).
  by destruct (Hn id).
Qed.

Lemma save_tasks_cons (task : obj) (rest : list obj) (w w' : world) :
  save_tasks E (task :: rest) w = (w', Val tt) →
  ∃ id w1, obj_get "id" task = Some (JStr id) ∧
           save_task E task w = (w1, Val tt) ∧
           save_tasks E rest w1 = (w', Val tt).
Proof.
  simpl. unfold bind at 1.
  destruct (save_task E task w) as [w1 [[]|msg]] eqn:Hs; [|done].
  intros Hrest.
  destruct (obj_get "id" task) as [[| | |id| |]|] eqn:Hid;
    try (destruct (save_task_no_id task w w1 (Val tt) Hs) as [msg Hmsg];
         [intros id'; congruence | done]).
  eauto.
Qed.

Lemma save_tasks_ids (tasks : list obj) (w w' : world) :
  save_tasks E tasks w = (w', Val tt) →
  ∀ task, task ∈ tasks → ∃ id, obj_get "id" task = Some (JStr id).
Proof.
  revert w. induction tasks as [|t rest IH]; intros w Hs task Hin.
  - by apply elem_of_nil in Hin.
  - apply save_tasks_cons in Hs as (id & w1 & Hid & _ & Hrest).
    apply elem_of_cons in Hin as [->|Hin]; [eauto | by eapply IH].
Qed.

Lemma save_tasks_preserve (id : string) (tasks : list obj) (w w' : world) :
  fails E (OpRm id) = false →
  complete_or_absent w id →
  save_tasks E tasks w = (w', Val tt) →
  complete_or_absent w' id.
Proof.
  intros Hrm. revert w. induction tasks as [|t rest IH]; intros w Hc Hs.
  - by injection Hs as <-.
  - apply save_tasks_cons in Hs as (id0 & w1 & Hid & Hs1 & Hrest).
    apply (IH w1); [|done].
    destruct (decide (id = id0)) as [->|Hne].
    + by eapply save_task_complete_or_absent.
    + eapply complete_or_absent_frame; [|done]. by eapply save_task_frame.
Qed.

Lemma save_tasks_complete (tasks : list obj) (w w' : world) (task : obj) (id : string) :
  save_tasks E tasks w = (w', Val tt) →
  task ∈ tasks →
  obj_get "id" task = Some (JStr id) →
  fails E (OpRm id) = false →
  complete_or_absent w' id.
Proof.
  intros Hs Hin Hid Hrm. revert w Hs.
  induction tasks as [|t rest IH]; intros w Hs; [by apply elem_of_nil in Hin|].
  apply save_tasks_cons in Hs as (id0 & w1 & Hid0 & Hs1 & Hrest).
  apply elem_of_cons in Hin as [->|Hin].
  - rewrite Hid in Hid0. injection Hid0 as <-.
    eapply save_tasks_preserve; [done | | done].
    by eapply save_task_complete_or_absent.
  - by apply (IH Hin w1).
Qed.

Lemma save_tasks_trace (tasks : list obj) (w w' : world) :
  save_tasks E tasks w = (w', Val tt) →
  ∃ seg, trace w' = (trace w ++ seg)%list ∧ ∀ id, record_after_artifacts id seg.
Proof.
  revert w. induction tasks as [|t rest IH]; intros w Hs.
  - injection Hs as <-. exists []. rewrite app_nil_r. split; [done|].
    intros id. apply record_after_artifacts_none. by intros ?%elem_of_nil.
  - apply save_tasks_cons in Hs as (id0 & w1 & Hid0 & Hs1 & Hrest).
    destruct (save_task_trace E t id0 w w1 Hid0 Hs1) as (s1 & Ht1 & H1).
    destruct (IH w1 Hrest) as (s2 & Ht2 & H2).
    exists (s1 ++ s2)%list. split; [by rewrite Ht2, Ht1, <- app_assoc|].
    intros id. by apply record_after_artifacts_app.
Qed.

Lemma fs_mkdir_root_val (w w0 : world) :
  fs_mkdir_root E w = (w0, Val tt) →
  (∃ r, root w0 = Some r) ∧
  (∀ name, node_at w0 name = node_at w name) ∧
  ∃ evs, trace w0 = (trace w ++ evs)%list ∧ ∀ e, e ∈ evs → e = EvMkdirRoot.
Proof.
  unfold fs_mkdir_root, node_at. destruct (fails E _); [done|].
  destruct (root w) as [r|] eqn:Hr; intros [= <-]; simpl; rewrite ?Hr.
  - split; [eauto|]. split; [done|]. exists []. rewrite app_nil_r.
    split; [done | by intros e ?%elem_of_nil].
  - split; [eauto|]. split; [done|]. exists [EvMkdirRoot].
    split; [done | by intros e ->%list_elem_of_singleton].
Qed.

Lemma saveSnapshots_inv (tasks : list obj) (w w' : world) :
  saveSnapshots E tasks w = (w', Val tt) →
  ∃ w0, fs_mkdir_root E w = (w0, Val tt) ∧ save_tasks E tasks w0 = (w', Val tt).
Proof.
  unfold saveSnapshots, bind.
  destruct (fs_mkdir_root E w) as [w0 [[]|msg]]; [eauto | done].
Qed.

(** *** Totality *)

Lemma fs_mkdir_ok (id : string) (w : world) :
  fails E (OpMkdir id) = false →
  (∀ c, node_at w id ≠ Some (File c)) →
  ∃ w1, fs_mkdir E id w = (w1, Val tt).
Proof.
  intros Hf Hn. unfold fs_mkdir, node_at in *. rewrite Hf.
  destruct (root w) as [r|]; [|eauto].
  destruct (r !! id) as [[c|d]|]; eauto. by destruct (Hn c).
Qed.

Lemma save_task_total (task : obj) (id : string) (w : world) :
  obj_get "id" task = Some (JStr id) →
  fails E (OpMkdir id) = false →
  fails E (OpWrite id "metadata.json") = false →
  (∀ c, node_at w id ≠ Some (File c)) →
  ∃ w', save_task E task w = (w', Val tt).
Proof.
  intros Hid Hmk Hwr Hn. rewrite (save_task_unfold E task id w Hid).
  destruct (fs_mkdir_ok id w Hmk Hn) as [w1 Hm].
  destruct (downloaded_cases E id w) as [(msg & Hm' & _)|(w1' & w2 & st & _ & Hd & Hinv)];
    [congruence|].
  rewrite Hd. destruct (loop_inv_folder _ _ _ _ _ Hinv) as [d2 Hd2].
  destruct (incomplete st).
  - rewrite (fs_rm_cases E id w2 d2 Hd2). eauto.
  - assert (Hd2' : task_folder (tick w2) id = Some d2) by exact Hd2.
    rewrite (fs_writeFile_put E _ _ _ _ _ Hd2' Hwr). eauto.
Qed.

Lemma save_task_not_file (task : obj) (id name : string) (w w' : world) :
  obj_get "id" task = Some (JStr id) →
  save_task E task w = (w', Val tt) →
  (∀ c, node_at w name ≠ Some (File c)) →
  ∀ c, node_at w' name ≠ Some (File c).
Proof.
  intros Hid Hsave Hn c. destruct (decide (name = id)) as [->|Hne].
  - destruct (save_task_outcome E task id w w' Hid Hsave)
      as (w1 & w2 & st & _ & _ & Hinv & Hcase).
    destruct Hinv as (r0 & d0 & d & evs & _ & _ & Hr & _).
    destruct Hcase as [(_ & -> & _)|(_ & _ & -> & _)].
    + destruct (fails E (OpRm id)); unfold removed, partly_removed, node_at;
        rewrite Hr; simpl.
      * rewrite !lookup_insert_eq. simpl. by rewrite lookup_insert_eq.
      * by rewrite lookup_delete_eq.
    + unfold put, tick, node_at. simpl. rewrite Hr, lookup_insert_eq. simpl.
      by rewrite lookup_insert_eq.
  - rewrite (save_task_frame E task id name w w' Hid Hsave Hne). apply Hn.
Qed.

Lemma save_tasks_total (tasks : list obj) (w : world) :
  (∀ task, task ∈ tasks →
     ∃ id, obj_get "id" task = Some (JStr id) ∧
           fails E (OpMkdir id) = false ∧
           fails E (OpWrite id "metadata.json") = false ∧
           ∀ c, node_at w id ≠ Some (File c)) →
  ∃ w', save_tasks E tasks w = (w', Val tt).
Proof.
  revert w. induction tasks as [|t rest IH]; intros w Hall; simpl; [by eexists|].
  destruct (Hall t) as (id & Hid & Hmk & Hwr & Hn); [by left|].
  destruct (save_task_total t id w Hid Hmk Hwr Hn) as [w1 Hs].
  unfold bind. rewrite Hs. apply IH. intros task Hin.
  destruct (Hall task) as (id' & Hid' & Hmk' & Hwr' & Hn'); [by right|].
  exists id'. repeat (split; [done|]).
  exact (save_task_not_file t id id' w w1 Hid Hs Hn').
Qed.

(** *** The handler of the refresh *)

Lemma fetch_tasks_inv (items : list string) (w w' : world) (tasks : list obj) :
  fetch_tasks E items w = (w', Val tasks) →
  w' = w ∧ ∀ t, t ∈ tasks → ∃ it, it ∈ items ∧ getSharingTask E it = Val t.
Proof.
  revert tasks. induction items as [|it items IH]; intros tasks; simpl.
  - intros [= <- <-]. split; [done | by intros t ?%elem_of_nil].
  - unfold bind at 1, lift. destruct (getSharingTask E it) as [t|] eqn:Ht; [|done].
    unfold bind at 1.
    destruct (fetch_tasks E items w) as [w1 [ts|]] eqn:Hts; [|done].
    intros [= <- <-]. destruct (IH ts eq_refl) as [-> Hall]. split; [done|].
    intros t' [->|Hin]%elem_of_cons.
    + exists it. split; [by left | done].
    + destruct (Hall t' Hin) as (it' & ? & ?). exists it'. split; [by right | done].
Qed.

Lemma fetch_tasks_total (items : list string) (w : world) :
  (∀ it, it ∈ items → ∃ t, getSharingTask E it = Val t) →
  ∃ tasks, fetch_tasks E items w = (w, Val tasks).
Proof.
  induction items as [|it items IH]; intros Hall; simpl; [by eexists|].
  destruct (Hall it) as [t Ht]; [by left|].
  destruct IH as [ts Hts]; [intros it' Hin; apply Hall; by right|].
  unfold bind, lift. rewrite Ht, Hts. by eexists.
Qed.

Lemma refresh_entry_val (j : json) (w : world) :
  j ≠ JNull → ∃ e, refresh_entry j w = (w, Val e).
Proof. intros Hj. destruct j; try done; eexists; reflexivity. Qed.

Lemma refresh_entry_inv (j : json) (w w' : world) (e : entry) :
  refresh_entry j w = (w', Val e) → w' = w ∧ j ≠ JNull.
Proof. destruct j; intros H; try done; by inversion H. Qed.

(** The two handlers build the same entry from a record whose [id] and
    [name] are truthy. *)
Lemma entries_agree (folder : string) (j : json) (w : world) (e e' : entry) :
  refresh_entry j w = (w, Val e) →
  local_entry folder j w = (w, Val e') →
  truthy (e_id e) = true → truthy (e_name e) = true →
  e' = e.
Proof.
  destruct j; try done; intros [= <-] [= <-]; simpl; intros Hi Hn;
    unfold js_or; try done.
  by rewrite Hi, Hn.
Qed.

Lemma read_task_cases (id : string) (w : world) :
  (read_task E id w = (w, Val []) ∧
   ∀ j e, fs_readFile E id "metadata.json" w = (w, Val (JsonText j)) →
          refresh_entry j w ≠ (w, Val e)) ∨
  (∃ j e, fs_readFile E id "metadata.json" w = (w, Val (JsonText j)) ∧
          refresh_entry j w = (w, Val e) ∧
          read_task E id w = (w, Val [e])).
Proof.
  unfold read_task, try_catch, bind.
  pose proof (fs_readFile_world E id "metadata.json" w) as Hw.
  destruct (fs_readFile E id "metadata.json" w) as [w1 [c|msg]]; simpl in Hw; subst w1.
  - destruct c as [j|b]; simpl.
    + assert (j = JNull ∨ j ≠ JNull) as [->|Hj] by (destruct j; auto).
      * left. split; [reflexivity|]. intros j e [= <-] H.
        by apply refresh_entry_inv in H as [_ ?].
      * right. destruct (refresh_entry_val j w Hj) as [e He].
        exists j, e. rewrite He. done.
    + left. split; [reflexivity | intros j e [=]].
  - left. split; [reflexivity | intros j e [=]].
Qed.

Lemma read_enhanced_spec (tasks : list obj) (w : world) :
  (∀ task, task ∈ tasks → ∃ id, obj_get "id" task = Some (JStr id)) →
  ∃ L, read_enhanced E tasks w = (w, Val L) ∧
       ∀ e, e ∈ L ↔
            ∃ task id, task ∈ tasks ∧ obj_get "id" task = Some (JStr id) ∧
                       read_task E id w = (w, Val [e]).
Proof.
  induction tasks as [|t tasks IH]; intros Hids; simpl.
  - exists []. split; [done|]. intros e. split.
    + by intros ?%elem_of_nil.
    + by intros (? & ? & ?%elem_of_nil & _).
  - destruct (Hids t) as [id Hid]; [by left|].
    destruct IH as (L & HL & Hmem); [intros t' Hin; apply Hids; by right|].
    unfold bind at 1, task_dir. rewrite Hid. unfold ret at 1. unfold bind at 1.
    destruct (read_task_cases id w) as [[Hr _]|(j & e0 & _ & _ & Hr)]; rewrite Hr.
    + unfold bind. rewrite HL. exists L. split; [reflexivity|].
      intros e. rewrite Hmem. split.
      * intros (t' & id' & Hin & ?). exists t', id'. split; [by right | done].
      * intros (t' & id' & [->|Hin]%elem_of_cons & Hid' & He).
        -- rewrite Hid in Hid'. injection Hid' as <-. rewrite Hr in He. done.
        -- eauto.
    + unfold bind. rewrite HL. exists (e0 :: L). split; [reflexivity|].
      intros e. rewrite elem_of_cons, Hmem. split.
      * intros [->|(t' & id' & Hin & ?)].
        -- exists t, id. split; [by left | done].
        -- exists t', id'. split; [by right | done].
      * intros (t' & id' & [->|Hin]%elem_of_cons & Hid' & He).
        -- left. rewrite Hid in Hid'. injection Hid' as <-.
           rewrite Hr in He. by injection He.
        -- right. eauto.
Qed.

(** What an answer 200 of the refresh went through. *)
Lemma get_snapshots_inv (w w' : world) (L : list entry) :
  get_snapshots E w = (w', Val (Json200 L)) →
  ∃ items tasks,
    getItems E = Val items ∧
    fetch_tasks E items w = (w, Val tasks) ∧
    saveSnapshots E tasks w = (w', Val tt) ∧
    read_enhanced E tasks w' = (w', Val L).
Proof.
  unfold get_snapshots, try_catch, bind at 1, lift.
  destruct (getItems E) as [items|msg]; [|done].
  unfold bind at 1.
  destruct (fetch_tasks E items w) as [w1 [tasks|msg]] eqn:Hf; [|done].
  destruct (fetch_tasks_inv items w w1 tasks Hf) as [-> _].
  unfold bind at 1.
  destruct (saveSnapshots E tasks w) as [w2 [[]|msg]] eqn:Hs; [|done].
  unfold bind.
  pose proof Hs as (w0 & _ & Hs')%saveSnapshots_inv.
  destruct (read_enhanced_spec tasks w2 (save_tasks_ids tasks w0 w2 Hs'))
    as (L0 & HL0 & _).
  rewrite HL0. intros [= <- <-]. by exists items, tasks.
Qed.

(** What an answer 200 of the local listing went through, when the root
    exists. *)
Lemma get_local_snapshots_inv (w w' : world) (r : gmap string node) (L : list entry) :
  root w = Some r →
  get_local_snapshots E w = (w', Val (Json200 L)) →
  w' = w ∧
  read_local E (filter (fun e => is_dir e.2 = true) (map_to_list r)) w = (w, Val L).
Proof.
  intros Hr. unfold get_local_snapshots, try_catch, bind, fs_access_root, fs_readdir_root.
  rewrite Hr. simpl. destruct (fails E OpReaddir); [done|]. rewrite Hr.
  destruct (read_local_spec E (filter (fun e => is_dir e.2 = true) (map_to_list r)) w)
    as (L0 & HL0 & _).
  rewrite HL0. by intros [= <- <-].
Qed.

End Refreshing.

(** ** What makes a refresh fail *)

Section Answering.

Variable E : env.

Lemma put_log_folder (id name : string) (c : content) (w : world) (e : event)
    (d : gmap string content) :
  task_folder w id = Some d →
  task_folder (put id name c (log e w)) id = Some (<[ name := c ]> d).
Proof. intros Hd. by apply put_folder. Qed.

Lemma saved_as_json_outcome (id a : string) :
  (∃ b, role_outcome E id a = SavedJson b) ↔ saved_as_json E id a.
Proof.
  unfold role_outcome, saved_as_json, json_name.
  destruct (getSharingTaskExecutionFile E id executionId a) as [resp|msg].
  - simpl. destruct (includes "application/json" _) eqn:Hj.
    + destruct (fails E (OpWrite id (a ++ ".json"))) eqn:Hf.
      * split; [by intros (? & ?)|]. intros (r & [= <-] & _ & Hf'). congruence.
      * split; [intros _; eauto | eauto].
    + split.
      * intros (b & Hb). destruct (to_buffer _); [|done]. by destruct (fails E _).
      * intros (r & [= <-] & Hj' & _). congruence.
  - split; [by intros (? & ?) | by intros (? & ? & _)].
Qed.

Lemma saved_as_binary_outcome (id a : string) :
  (∃ png buf, role_outcome E id a = SavedBinary png buf) ↔ saved_as_binary E id a.
Proof.
  unfold role_outcome, saved_as_binary, binary_name.
  destruct (getSharingTaskExecutionFile E id executionId a) as [resp|msg].
  - simpl. destruct (includes "application/json" _) eqn:Hj.
    + split.
      * intros (p & b & Hb). by destruct (fails E _).
      * intros (r & buf & [= <-] & Hj' & _). congruence.
    + destruct (to_buffer E (data resp)) as [buf|msg] eqn:Hb.
      * destruct (fails E _) eqn:Hf.
        -- split; [by intros (? & ? & ?)|].
           intros (r & buf' & [= <-] & _ & _ & Hf'). congruence.
        -- split; [intros _; eauto 10 | eauto].
      * split; [by intros (? & ? & ?)|].
        intros (r & buf' & [= <-] & _ & Hb' & _). congruence.
  - split; [by intros (? & ? & ?) | by intros (? & ? & ? & _)].
Qed.

(** A flag of the loop is set only by the request it stands for, saved
    in the branch it stands for. *)
Lemma download_loop_flags (id : string) (aliases : list string) (st st' : locals)
    (w w' : world) (d : gmap string content) :
  task_folder w id = Some d →
  download_loop E id aliases st w = (w', Val st') →
  (snapshotSaved st = true → saved_as_json E id "snapshot") →
  (imageSmallSaved st = true → saved_as_binary E id "image-small") →
  (imageLargeSaved st = true → saved_as_binary E id "image-large") →
  (snapshotSaved st' = true → saved_as_json E id "snapshot") ∧
  (imageSmallSaved st' = true → saved_as_binary E id "image-small") ∧
  (imageLargeSaved st' = true → saved_as_binary E id "image-large").
Proof.
  revert st w d. induction aliases as [|a aliases IH]; intros st w d Hd; simpl.
  - by intros [= <- <-].
  - unfold bind. rewrite (download_one_eq E id a st w d Hd).
    destruct (role_outcome E id a) as [b|png buf|] eqn:Hout; simpl.
    + intros Hl H1 H2 H3.
      assert (Hj : saved_as_json E id a) by (apply saved_as_json_outcome; eauto).
      apply (IH _ _ _ (put_log_folder id _ _ w _ d Hd) Hl);
        destruct (String.eqb_spec a "snapshot") as [->|?]; simpl; auto.
    + intros Hl H1 H2 H3.
      assert (Hb : saved_as_binary E id a) by (apply saved_as_binary_outcome; eauto).
      apply (IH _ _ _ (put_log_folder id _ _ w _ d Hd) Hl);
        destruct (String.eqb_spec a "image-small") as [->|?]; simpl; auto;
        destruct (String.eqb_spec a "image-large") as [->|?]; simpl; auto.
    + by intros [= <- <-].
Qed.

Lemma fetch_tasks_fails (items : list string) (it msg : string) (w : world) :
  it ∈ items → getSharingTask E it = Exn msg →
  ∃ msg', fetch_tasks E items w = (w, Exn msg').
Proof.
  induction items as [|it' items IH]; intros Hin Hit; [by apply elem_of_nil in Hin|].
  simpl. unfold bind, lift.
  destruct (getSharingTask E it') as [t|m] eqn:Ht; [|eauto].
  apply elem_of_cons in Hin as [->|Hin]; [congruence|].
  destruct (IH Hin Hit) as [msg' ->]. eauto.
Qed.

(** The download phase is the creation of the folder and then the loop. *)
Lemma downloaded_loop (id : string) (w w2 : world) (st : locals) :
  downloaded E id w = (w2, Val st) →
  ∃ w1 d1, fs_mkdir E id w = (w1, Val tt) ∧ task_folder w1 id = Some d1 ∧
           download_loop E id fileFormats init_locals w1 = (w2, Val st).
Proof.
  intros Hd. unfold downloaded, bind in Hd.
  destruct (fs_mkdir_cases E id w) as [[msg Hm]|(w1 & d1 & Hm & Hd1 & _)];
    rewrite Hm in Hd; [done|].
  by exists w1, d1.
Qed.

(** The test of line 284 passes exactly when the three requests were
    saved, each in the branch of its format. *)
Lemma loop_complete_iff (id : string) (w w' : world) (st : locals)
    (d : gmap string content) :
  task_folder w id = Some d →
  download_loop E id fileFormats init_locals w = (w', Val st) →
  incomplete st = false ↔ downloads_complete E id.
Proof.
  intros Hd Hl. split.
  - intros (_ & Hs & Hlg & Hj)%incomplete_false.
    destruct (download_loop_flags id fileFormats init_locals st w w' d Hd Hl)
      as (H1 & H2 & H3); try done.
    split; [auto|]. split; auto.
  - intros ((b & Hb)%saved_as_json_outcome
            & (p1 & b1 & Hb1)%saved_as_binary_outcome
            & (p2 & b2 & Hb2)%saved_as_binary_outcome).
    revert Hl. unfold fileFormats. simpl. unfold bind.
    rewrite (download_one_eq E id "snapshot" _ w d Hd), Hb. simpl.
    rewrite (download_one_eq E id "image-small" _ _ _
               (put_log_folder id _ _ w _ d Hd)), Hb1. simpl.
    rewrite (download_one_eq E id "image-large" _ _ _
               (put_log_folder id _ _ _ _ _ (put_log_folder id _ _ w _ d Hd))), Hb2.
    simpl. by intros [= <- <-].
Qed.

Lemma passes_not_stops (id : string) : task_passes E id → task_stops E id → False.
Proof.
  intros [Hmk Hwr] [Hmk'|[Hc Hwr']]; [congruence|].
  specialize (Hwr Hc). congruence.
Qed.

(** An iteration of the task loop completes when the task passes, and
    throws when it stops. *)
Lemma save_task_result (task : obj) (id : string) (w : world) :
  obj_get "id" task = Some (JStr id) →
  (∀ c, node_at w id ≠ Some (File c)) →
  ((∃ w', save_task E task w = (w', Val tt)) ∧ task_passes E id) ∨
  ((∃ w' msg, save_task E task w = (w', Exn msg)) ∧ task_stops E id).
Proof.
  intros Hid Hn. rewrite (save_task_unfold E task id w Hid).
  destruct (fails E (OpMkdir id)) eqn:Hmk.
  - right. split; [|by left].
    destruct (downloaded_cases E id w) as [(msg & _ & Hd)|(w1 & w2 & st & Hm & _)].
    + rewrite Hd. eauto.
    + unfold fs_mkdir in Hm. by rewrite Hmk in Hm.
  - destruct (fs_mkdir_ok E id w Hmk Hn) as [w1 Hm].
    destruct (downloaded_cases E id w) as [(msg & Hm' & _)|(w1' & w2 & st & _ & Hd & Hinv)];
      [congruence|].
    rewrite Hd. destruct (downloaded_loop id w w2 st Hd) as (w0 & d1 & _ & Hd1 & Hl).
    pose proof (loop_complete_iff id w0 w2 st d1 Hd1 Hl) as Hiff.
    destruct (loop_inv_folder _ _ _ _ _ Hinv) as [d2 Hd2].
    destruct (incomplete st) eqn:Hinc.
    + left. split; [rewrite (fs_rm_cases E id w2 d2 Hd2); eauto|].
      split; [done|]. intros Hc. apply Hiff in Hc. done.
    + assert (Hc : downloads_complete E id) by by apply Hiff.
      assert (Hd2' : task_folder (tick w2) id = Some d2) by exact Hd2.
      destruct (fails E (OpWrite id "metadata.json")) eqn:Hwr.
      * right. split; [|by right].
        destruct (fs_writeFile_fails E id "metadata.json"
                    (JsonText (JObj (record_of task st (clock E (ticks w2))))) (tick w2) Hwr)
          as [msg Hw]. rewrite Hw. eauto.
      * left. split; [rewrite (fs_writeFile_put E _ _ _ _ _ Hd2' Hwr); eauto|].
        by split.
Qed.

(** The task loop completes when every task passes, and throws when one
    of them stops (the first that does). *)
Lemma save_tasks_result (tasks : list obj) (w : world) :
  (∀ task, task ∈ tasks →
     ∃ id, obj_get "id" task = Some (JStr id) ∧ ∀ c, node_at w id ≠ Some (File c)) →
  ((∃ w', save_tasks E tasks w = (w', Val tt)) ∧
   ∀ task id, task ∈ tasks → obj_get "id" task = Some (JStr id) → task_passes E id) ∨
  ((∃ w' msg, save_tasks E tasks w = (w', Exn msg)) ∧
   ∃ task id, task ∈ tasks ∧ obj_get "id" task = Some (JStr id) ∧ task_stops E id).
Proof.
  revert w. induction tasks as [|t tasks IH]; intros w Hall.
  - left. split; [by exists w|]. by intros task id ?%elem_of_nil.
  - destruct (Hall t) as (id & Hid & Hn); [by left|]. simpl. unfold bind.
    destruct (save_task_result t id w Hid Hn) as [[[w1 Hs] Hp]|[(w1 & msg & Hs) Hst]];
      rewrite Hs.
    + destruct (IH w1) as [[Hv Hps]|[Hx (t' & id' & Hin & Hid' & Hst)]].
      * intros t' Hin. destruct (Hall t') as (id' & Hid' & Hn'); [by right|].
        exists id'. split; [done|].
        by apply (save_task_not_file E t id id' w w1 Hid Hs).
      * left. split; [done|]. intros t' id' [->|Hin]%elem_of_cons Hid'.
        -- by replace id' with id by congruence.
        -- by apply (Hps t').
      * right. split; [done|]. exists t', id'. split; [by right | done].
    + right. split; [eauto|]. exists t, id. split; [by left | done].
Qed.

(** The answer of a refresh whose listing and details were obtained. *)
Lemma get_snapshots_result (w : world) (items : list string) (tasks : list obj) :
  getItems E = Val items →
  fetch_tasks E items w = (w, Val tasks) →
  (∀ task, task ∈ tasks →
     ∃ id, obj_get "id" task = Some (JStr id) ∧ ∀ c, node_at w id ≠ Some (File c)) →
  ((∃ w' L, get_snapshots E w = (w', Val (Json200 L))) ∧
   fails E OpMkdirRoot = false ∧
   ∀ task id, task ∈ tasks → obj_get "id" task = Some (JStr id) → task_passes E id) ∨
  ((∃ w' m, get_snapshots E w = (w', Val (Err500 m))) ∧
   (fails E OpMkdirRoot = true ∨
    ∃ task id, task ∈ tasks ∧ obj_get "id" task = Some (JStr id) ∧ task_stops E id)).
Proof.
  intros Hitems Htasks Hall.
  unfold get_snapshots, try_catch, bind, lift, saveSnapshots.
  rewrite Hitems, Htasks. unfold bind.
  destruct (fails E OpMkdirRoot) eqn:Hroot.
  - right. split; [|by left]. unfold fs_mkdir_root. rewrite Hroot. eauto.
  - assert (Hr : ∃ w0, fs_mkdir_root E w = (w0, Val tt)).
    { unfold fs_mkdir_root. rewrite Hroot. destruct (root w); eauto. }
    destruct Hr as [w0 Hw0]. rewrite Hw0.
    destruct (fs_mkdir_root_val E w w0 Hw0) as (_ & Hsame & _).
    destruct (save_tasks_result tasks w0) as [[[w' Hs] Hp]|[(w' & msg & Hs) Hst]].
    + intros task Hin. destruct (Hall task Hin) as (id & Hid & Hn).
      exists id. split; [done|]. intros c. rewrite Hsame. apply Hn.
    + left. split; [|by split]. rewrite Hs.
      destruct (read_enhanced_spec E tasks w' (save_tasks_ids E tasks w0 w' Hs))
        as (L & HL & _).
      rewrite HL. eauto.
    + right. split; [|by right]. rewrite Hs. eauto.
Qed.

End Answering.

(** * The claims *)

(** ** Local listing *)

(** C9: when the store root [public/snapshots] does not exist, the local
    listing answers 200 with the empty array, and the store is left
    untouched. *)
Theorem C9_missing_root_lists_nothing (E : env) (w : world) :
  root w = None →
  get_local_snapshots E w = (w, Val (Json200 [])).
Proof.
  intros Hroot.
  unfold get_local_snapshots, try_catch, bind, fs_access_root.
  rewrite Hroot. reflexivity.
Qed.

Lemma C9_missing_root_lists_nothing_witness :
  root Scenario.empty = None ∧
  get_local_snapshots Scenario.idle Scenario.empty
  = (Scenario.empty, Val (Json200 [])).
Proof.
  split; [reflexivity|].
  apply (C9_missing_root_lists_nothing Scenario.idle Scenario.empty). reflexivity.
Defined.

(** C8: with a root that can be listed, the local listing answers 200
    whatever the folders hold; a folder whose [metadata.json] cannot be
    read or parsed contributes no entry, every folder holding a record
    (an object) is returned, and every returned entry is the entry of a
    folder whose record was read and parsed. *)
Theorem C8_corrupt_entry_isolated (E : env) (w : world) :
  fails E OpReaddir = false →
  ∃ L, get_local_snapshots E w = (w, Val (Json200 L)) ∧
    (∀ d dir, node_at w d = Some (Dir dir) →
       (∀ j, fs_readFile E d "metadata.json" w ≠ (w, Val (JsonText j))) →
       read_folder E d w = (w, Val [])) ∧
    (∀ d dir o, node_at w d = Some (Dir dir) →
       fs_readFile E d "metadata.json" w = (w, Val (JsonText (JObj o))) →
       ∃ e, local_entry d (JObj o) w = (w, Val e) ∧ e ∈ L) ∧
    (∀ e, e ∈ L →
       ∃ d dir j, node_at w d = Some (Dir dir) ∧
         fs_readFile E d "metadata.json" w = (w, Val (JsonText j)) ∧
         local_entry d j w = (w, Val e)).
Proof.
  intros Hrd. unfold node_at. destruct (root w) as [r|] eqn:Hr.
  - destruct (read_local_spec E
                (filter (fun e => is_dir e.2 = true) (map_to_list r)) w)
      as (L & HL & Hmem).
    exists L. split; [|split; [|split]].
    + unfold get_local_snapshots, try_catch, bind, fs_access_root, fs_readdir_root.
      rewrite Hr, Hrd. simpl. rewrite Hr, HL. reflexivity.
    + intros d dir _ Hbad.
      destruct (read_folder_cases E d w) as [[H _]|(j & e & Hj & _)]; [done|].
      by destruct (Hbad j).
    + intros d dir o Hd Hread.
      destruct (read_folder_cases E d w) as [[_ Hno]|(j & e & Hj & He & Hrf)].
      * destruct (local_entry_val d (JObj o) w) as [e He]; [done|].
        by destruct (Hno _ e Hread).
      * rewrite Hread in Hj. inversion Hj; subst j.
        exists e. split; [done|]. apply Hmem. exists d, (Dir dir). split; [|done].
        apply list_elem_of_filter. split; [done|]. by apply elem_of_map_to_list.
    + intros e (d & n & Hin & Hrf)%Hmem.
      apply list_elem_of_filter in Hin as [Hdir Hin]. simpl in Hdir.
      apply elem_of_map_to_list in Hin. destruct n as [|dir]; [done|].
      destruct (read_folder_cases E d w) as [[H _]|(j & e' & Hj & He & Hrf')].
      * rewrite H in Hrf. done.
      * rewrite Hrf' in Hrf. inversion Hrf; subst e'. eauto 10.
  - exists []. split; [|split; [|split]]; try done.
    + unfold get_local_snapshots, try_catch, bind, fs_access_root.
      rewrite Hr. reflexivity.
    + by intros e ?%elem_of_nil.
Qed.

Lemma C8_corrupt_entry_isolated_witness :
  fails Scenario.idle OpReaddir = false ∧
  ∃ L, get_local_snapshots Scenario.idle (Scenario.store Scenario.good_and_bad)
       = (Scenario.store Scenario.good_and_bad, Val (Json200 L)) ∧
       Scenario.entry_T1 ∈ L ∧
       read_folder Scenario.idle "T9" (Scenario.store Scenario.good_and_bad)
       = (Scenario.store Scenario.good_and_bad, Val []).
Proof.
  split; [reflexivity|].
  destruct (C8_corrupt_entry_isolated Scenario.idle
              (Scenario.store Scenario.good_and_bad) eq_refl)
    as (L & HL & Hbad & Hgood & _).
  exists L. split; [exact HL|]. split.
  - assert (Hd : node_at (Scenario.store Scenario.good_and_bad) "T1"
                 = Some (Dir {[ "metadata.json" := JsonText (JObj Scenario.record_T1) ]}))
      by by_run.
    assert (Hr : fs_readFile Scenario.idle "T1" "metadata.json"
                   (Scenario.store Scenario.good_and_bad)
                 = (Scenario.store Scenario.good_and_bad,
                    Val (JsonText (JObj Scenario.record_T1)))) by by_run.
    destruct (Hgood _ _ _ Hd Hr) as (e & He & Hin).
    injection He as <-. exact Hin.
  - assert (Hd : node_at (Scenario.store Scenario.good_and_bad) "T9"
                 = Some (Dir {[ "metadata.json" := Bytes [] ]})) by by_run.
    apply (Hbad _ _ Hd).
    intros j Hj. vm_compute in Hj. discriminate Hj.
Defined.

(** C10 as stated fails: a record without [name] in folder [T1] is listed
    under the name [Snapshot T1], not [T1]. *)
Lemma C10_name_default_counterexample :
  ∃ e, get_local_snapshots Scenario.idle (Scenario.store Scenario.old_format)
       = (Scenario.store Scenario.old_format, Val (Json200 [e])) ∧
       e_id e = Some (JStr "T1") ∧
       e_name e = Some (JStr "Snapshot T1") ∧
       e_name e ≠ Some (JStr "T1").
Proof. eexists. split; [vm_compute; reflexivity|]. simpl. done. Qed.

(** C10, amended: for a record read from a folder, an absent [id] is
    replaced by the folder name and an absent [name] by the text
    [Snapshot ] followed by the folder name. *)
Theorem C10_defaults_from_folder (E : env) (w : world) (folder : string) (o : obj) :
  fs_readFile E folder "metadata.json" w = (w, Val (JsonText (JObj o))) →
  ∃ e, read_folder E folder w = (w, Val [e]) ∧
       (obj_get "id" o = None → e_id e = Some (JStr folder)) ∧
       (obj_get "name" o = None → e_name e = Some (JStr ("Snapshot " ++ folder))).
Proof.
  intros Hread. unfold read_folder, try_catch, bind. rewrite Hread. simpl.
  eexists. split; [reflexivity|]. simpl. split; intros ->; reflexivity.
Qed.

Lemma C10_defaults_from_folder_witness :
  ∃ e, read_folder Scenario.idle "T1" (Scenario.store Scenario.old_format)
       = (Scenario.store Scenario.old_format, Val [e]) ∧
       e_id e = Some (JStr "T1") ∧ e_name e = Some (JStr "Snapshot T1").
Proof.
  destruct (C10_defaults_from_folder Scenario.idle
              (Scenario.store Scenario.old_format) "T1"
              [("visualization", JStr "kpi")] eq_refl) as (e & He & Hid & Hname).
  exists e. split; [exact He|]. split; [apply Hid | apply Hname]; reflexivity.
Defined.

(** ** The transaction of one task *)

(** C1.  The claim fails on the code: the test of line 215 assigns 200 to
    the status instead of comparing with it, so the branch of line 264 is
    never taken and a response that arrives is saved whatever its status.
    The client throws for the statuses from 300 on, which the [catch] of
    line 272 handles, and returns the others as a response.  With the
    snapshot request answered 202 the download phase records no failure,
    goes on to request and save the two images, and the task's record is
    written. *)
Theorem C1_status_202_is_saved_and_committed :
  status Scenario.accepted = 202 ∧
  200 ≤ status Scenario.accepted < 300 ∧
  getSharingTaskExecutionFile Scenario.status202 "T1" executionId "snapshot"
  = Val Scenario.accepted ∧
  ∃ w2 st w',
    downloaded Scenario.status202 "T1" Scenario.empty = (w2, Val st) ∧
    hasFailures st = false ∧
    trace w2 = [EvMkdir "T1";
                EvFetch "T1" "snapshot"; EvWrite "T1" "snapshot.json";
                EvFetch "T1" "image-small"; EvWrite "T1" "image-small.png";
                EvFetch "T1" "image-large"; EvWrite "T1" "image-large.png"] ∧
    save_task Scenario.status202 Scenario.task_T1 Scenario.empty = (w', Val tt) ∧
    has_metadata w' "T1" = true.
Proof.
  split; [reflexivity|]. split; [by split|]. split; [reflexivity|].
  eexists _, _, _. split; [vm_compute; reflexivity|].
  split; [reflexivity|]. split; [reflexivity|].
  split; [vm_compute; reflexivity|]. vm_compute. reflexivity.
Qed.

(** C6: the record of a committed snapshot carries the visualization type
    read from the JSON payload (or [unknown]) and the display mode
    [snapshot] when that type is one of the supported chart types, [image]
    otherwise; [kpi] gives [snapshot] and [mappng] gives [image]. *)
Theorem C6_display_mode_of_committed_snapshot (E : env) (task : obj) (id : string)
    (w w' : world) :
  obj_get "id" task = Some (JStr id) →
  save_task E task w = (w', Val tt) →
  committed id w w' →
  (∃ resp d m,
     getSharingTaskExecutionFile E id executionId "snapshot" = Val resp ∧
     task_folder w' id = Some d ∧
     d !! "metadata.json" = Some (JsonText (JObj m)) ∧
     obj_get "visualization" m = Some (visualization_of (Some (data resp))) ∧
     obj_get "displayMode" m
     = Some (JStr (if charts_include (visualization_of (Some (data resp)))
                   then "snapshot" else "image"))) ∧
  (∀ v, charts_include v = true ↔ ∃ s, v = JStr s ∧ s ∈ SUPPORTED_CHARTS) ∧
  (∀ d, body_prop d "visualization" = Val None →
        visualization_of (Some d) = JStr "unknown") ∧
  displayMode_of (JStr "kpi") = "snapshot" ∧
  displayMode_of (JStr "mappng") = "image".
Proof.
  intros Hid Hsave Hc. split; [|split; [|split; [|split]]].
  - destruct (committed_record E task id w w' Hid Hsave Hc)
      as (w1 & w2 & st & d2 & _ & Hinv & Hinc & _ & Hfolder).
    apply incomplete_false in Hinc as (_ & _ & _ & Hsnap).
    destruct Hinv as (r0 & d0 & d & evs & _ & _ & _ & _ & _ & _ & _ & _ & Hs & _).
    destruct (Hs Hsnap) as (_ & _ & resp & Hresp & Hdata).
    exists resp. eexists _, _. split; [done|]. split; [exact Hfolder|].
    split; [apply lookup_insert_eq|].
    rewrite record_of_visualization, record_of_displayMode, Hdata. done.
  - intros v. unfold charts_include.
    destruct v as [| | |s| |]; try (split; [done | by intros (s' & ? & _)]).
    rewrite existsb_exists. split.
    + intros (s' & Hin & ->%String.eqb_eq). exists s'. split; [done|].
      by apply list_elem_of_In.
    + intros (s' & [= <-] & Hin). exists s. split; [by apply list_elem_of_In|].
      apply String.eqb_refl.
  - intros d Hd. unfold visualization_of. rewrite Hd. by destruct (body_truthy d).
  - reflexivity.
  - reflexivity.
Qed.

Lemma C6_display_mode_of_committed_snapshot_witness :
  ∃ d m,
    task_folder Scenario.fetched_once "T1" = Some d ∧
    d !! "metadata.json" = Some (JsonText (JObj m)) ∧
    obj_get "displayMode" m = Some (JStr "snapshot").
Proof.
  assert (Hsave : save_task Scenario.healthy Scenario.task_T1 Scenario.rooted
                  = (Scenario.fetched_once, Val tt)) by by_run.
  assert (Hc : committed "T1" Scenario.rooted Scenario.fetched_once).
  { exists [EvMkdir "T1";
            EvFetch "T1" "snapshot"; EvWrite "T1" "snapshot.json";
            EvFetch "T1" "image-small"; EvWrite "T1" "image-small.png";
            EvFetch "T1" "image-large"; EvWrite "T1" "image-large.png";
            EvWrite "T1" "metadata.json"].
    split; [by_run | in_list]. }
  destruct (C6_display_mode_of_committed_snapshot Scenario.healthy Scenario.task_T1
              "T1" Scenario.rooted Scenario.fetched_once eq_refl Hsave Hc)
    as ((resp & d & m & Hresp & Hd & Hm & _ & Hmode) & _).
  exists d, m. split; [exact Hd|]. split; [exact Hm|].
  rewrite Hmode. injection Hresp as <-. reflexivity.
Defined.

(** The second example of the specification, run: a payload of type
    [mappng] is committed with the display mode [image]. *)
Example mappng_is_shown_as_image :
  ∃ w' d m,
    saveSnapshots Scenario.healthy_mappng [Scenario.task_T1] Scenario.empty
    = (w', Val tt) ∧
    task_folder w' "T1" = Some d ∧
    d !! "metadata.json" = Some (JsonText (JObj m)) ∧
    obj_get "visualization" m = Some (JStr "mappng") ∧
    obj_get "displayMode" m = Some (JStr "image").
Proof.
  eexists _, _, _. split; [by_run|]. split; [by_run|]. split; [by_run|].
  split; reflexivity.
Qed.

(** C7: two committed fetches of the same task against the same remote
    responses store records that differ at most in the value of
    [lastUpdated]: same keys in the same order, same values elsewhere (so
    the same bytes once that value is masked); the stores, the clocks and
    the faults of the two fetches may differ. *)
Theorem C7_refetch_same_record (E1 E2 : env) (task : obj) (id : string)
    (w1 w1' w2 w2' : world) :
  obj_get "id" task = Some (JStr id) →
  (∀ a, getSharingTaskExecutionFile E1 id executionId a
        = getSharingTaskExecutionFile E2 id executionId a) →
  save_task E1 task w1 = (w1', Val tt) → committed id w1 w1' →
  save_task E2 task w2 = (w2', Val tt) → committed id w2 w2' →
  ∃ d1 d2 m1 m2 t1 t2,
    task_folder w1' id = Some d1 ∧ d1 !! "metadata.json" = Some (JsonText (JObj m1)) ∧
    task_folder w2' id = Some d2 ∧ d2 !! "metadata.json" = Some (JsonText (JObj m2)) ∧
    obj_get "lastUpdated" m1 = Some (JStr t1) ∧
    obj_get "lastUpdated" m2 = Some (JStr t2) ∧
    m2 = obj_set "lastUpdated" (JStr t2) m1.
Proof.
  intros Hid Hsame Hs1 Hc1 Hs2 Hc2.
  destruct (committed_record E1 task id w1 w1' Hid Hs1 Hc1)
    as (u1 & v1 & st1 & f1 & _ & Hinv1 & Hinc1 & _ & Hf1).
  destruct (committed_record E2 task id w2 w2' Hid Hs2 Hc2)
    as (u2 & v2 & st2 & f2 & _ & Hinv2 & Hinc2 & _ & Hf2).
  apply incomplete_false in Hinc1 as (_ & _ & _ & Hsnap1).
  apply incomplete_false in Hinc2 as (_ & _ & _ & Hsnap2).
  destruct Hinv1 as (? & ? & ? & ? & _ & _ & _ & _ & _ & _ & _ & _ & Hi1 & _).
  destruct Hinv2 as (? & ? & ? & ? & _ & _ & _ & _ & _ & _ & _ & _ & Hi2 & _).
  destruct (Hi1 Hsnap1) as (_ & _ & resp1 & Hresp1 & Hdata1).
  destruct (Hi2 Hsnap2) as (_ & _ & resp2 & Hresp2 & Hdata2).
  rewrite Hsame, Hresp2 in Hresp1. injection Hresp1 as <-.
  eexists _, _, _, _, _, _.
  split; [exact Hf1|]. split; [apply lookup_insert_eq|].
  split; [exact Hf2|]. split; [apply lookup_insert_eq|].
  unfold record_of, enhancedMetadata. rewrite !obj_get_set_eq, obj_set_set_eq.
  rewrite Hdata1, Hdata2. done.
Qed.

Lemma C7_refetch_same_record_witness :
  ∃ d1 d2 m1 m2 t1 t2,
    task_folder Scenario.fetched_once "T1" = Some d1 ∧
    d1 !! "metadata.json" = Some (JsonText (JObj m1)) ∧
    task_folder Scenario.fetched_twice "T1" = Some d2 ∧
    d2 !! "metadata.json" = Some (JsonText (JObj m2)) ∧
    obj_get "lastUpdated" m1 = Some (JStr t1) ∧
    obj_get "lastUpdated" m2 = Some (JStr t2) ∧
    m2 = obj_set "lastUpdated" (JStr t2) m1.
Proof.
  apply (C7_refetch_same_record Scenario.healthy Scenario.healthy_later
           Scenario.task_T1 "T1" Scenario.rooted Scenario.fetched_once
           Scenario.fetched_once Scenario.fetched_twice).
  - reflexivity.
  - reflexivity.
  - by_run.
  - exists [EvMkdir "T1";
            EvFetch "T1" "snapshot"; EvWrite "T1" "snapshot.json";
            EvFetch "T1" "image-small"; EvWrite "T1" "image-small.png";
            EvFetch "T1" "image-large"; EvWrite "T1" "image-large.png";
            EvWrite "T1" "metadata.json"].
    split; [by_run | in_list].
  - by_run.
  - exists [EvFetch "T1" "snapshot"; EvWrite "T1" "snapshot.json";
            EvFetch "T1" "image-small"; EvWrite "T1" "image-small.png";
            EvFetch "T1" "image-large"; EvWrite "T1" "image-large.png";
            EvWrite "T1" "metadata.json"].
    split; [by_run | in_list].
Defined.

(** C3 as stated fails.  A task whose large image cannot be fetched, and
    whose cleanup fails on the small image saved before (the removal
    deletes the snapshot and rejects), is left with that artifact file in
    its folder; and without any fault, a task that had a complete snapshot
    loses its whole folder, which is not its state before the
    transaction. *)
Lemma C3_rollback_counterexample :
  (∃ w2 st,
     downloaded Scenario.large_missing_stuck "T1" Scenario.empty = (w2, Val st) ∧
     hasFailures st = true ∧
     fails Scenario.large_missing_stuck (OpRm "T1") = true ∧
     saveSnapshots Scenario.large_missing_stuck [Scenario.task_T1] Scenario.empty
     = (Scenario.stuck_once, Val tt) ∧
     has_file Scenario.stuck_once "T1" "snapshot.json" = false ∧
     has_file Scenario.stuck_once "T1" "image-small.png" = true) ∧
  (has_metadata Scenario.fetched_once "T1" = true ∧
   has_artifacts Scenario.fetched_once "T1" = true ∧
   saveSnapshots Scenario.large_missing [Scenario.task_T1] Scenario.fetched_once
   = (Scenario.dropped, Val tt) ∧
   node_at Scenario.dropped "T1" = None).
Proof.
  split.
  - eexists _, _. split; [by_run|]. repeat (split; [by_run|]). by_run.
  - repeat (split; [by_run|]). by_run.
Qed.

(** C3, amended: for a task whose identifier is a plain directory name,
    when the download phase ends incomplete (a request or a write raised
    an error, or one of the three files was not saved under its expected
    name), the iteration completes and removes the folder.  When the
    removal succeeds the root holds nothing under the task's name
    afterwards: no artifact file and no metadata record, whether or not
    the folder existed before.  When the removal fails, every file left in
    the folder is a file it held after the downloads, unchanged, that the
    removal could not delete.  What the root holds under other plain
    names is untouched. *)
Theorem C3_failed_transaction_removes_folder (E : env) (task : obj) (id : string)
    (w w2 : world) (st : locals) :
  obj_get "id" task = Some (JStr id) →
  plain_name id = true →
  downloaded E id w = (w2, Val st) →
  incomplete st = true →
  ∃ w', save_task E task w = (w', Val tt) ∧
    (fails E (OpRm id) = false →
       node_at w' id = None ∧ has_metadata w' id = false ∧
       has_artifacts w' id = false ∧ ∀ name, has_file w' id name = false) ∧
    (fails E (OpRm id) = true →
       ∀ name c, file_at w' id name = Some c →
                 file_at w2 id name = Some c ∧ rm_keeps E id name = true) ∧
    (∀ other, plain_name other = true → other ≠ id →
              node_at w' other = node_at w other).
Proof.
  intros Hid _ Hd Hinc.
  destruct (downloaded_cases E id w) as [(msg & _ & Hd')|(w1 & w2' & st' & Hm & Hd' & Hinv)];
    rewrite Hd in Hd'; [done|]. injection Hd' as <- <-.
  destruct (loop_inv_folder _ _ _ _ _ Hinv) as [d2 Hd2].
  assert (Hsave : save_task E task w
                  = (if fails E (OpRm id) then partly_removed E id w2
                     else removed id w2, Val tt)).
  { rewrite (save_task_unfold E task id w Hid), Hd, Hinc.
    apply (fs_rm_cases E id w2 d2 Hd2). }
  eexists. split; [exact Hsave|]. split; [|split].
  - intros Hrm. rewrite Hrm.
    assert (Habs : node_at (removed id w2) id = None).
    { destruct Hinv as (r0 & d0 & d & evs & _ & _ & Hr & _).
      unfold removed, node_at. rewrite Hr. simpl. apply lookup_delete_eq. }
    split; [done|]. unfold has_metadata, has_artifacts.
    rewrite !(absent_no_file _ _ _ Habs). repeat split.
    intros name. by apply absent_no_file.
  - intros Hrm name c. rewrite Hrm. apply partly_removed_file.
  - intros other _ Hne. by apply (save_task_frame E task id other w _ Hid Hsave).
Qed.

Lemma C3_failed_transaction_removes_folder_witness :
  ∃ w', save_task Scenario.large_missing Scenario.task_T1 Scenario.fetched_once
        = (w', Val tt) ∧
        node_at w' "T1" = None ∧ has_metadata w' "T1" = false ∧
        has_artifacts w' "T1" = false.
Proof.
  destruct (C3_failed_transaction_removes_folder Scenario.large_missing
              Scenario.task_T1 "T1" Scenario.fetched_once
              (downloaded Scenario.large_missing "T1" Scenario.fetched_once).1
              (mkLocals (Some (data Scenario.payload_kpi)) true false true true)
              eq_refl eq_refl ltac:(by_run) eq_refl)
    as (w' & Hsave & Hok & _).
  exists w'. split; [exact Hsave|].
  destruct (Hok eq_refl) as (Ha & Hb & Hc & _). done.
Defined.

(** C2 as stated fails when a cleanup fails.  The task [T1] has a
    complete folder from an earlier refresh; in the next one its first
    request throws, so none of the three files is saved, and the cleanup
    deletes the artifact files but cannot delete the record and rejects:
    [saveSnapshots] completes and the folder holds a metadata record
    without any of the three artifact files. *)
Lemma C2_completeness_counterexample :
  has_metadata Scenario.fetched_once "T1" = true ∧
  has_artifacts Scenario.fetched_once "T1" = true ∧
  ∃ w2 st,
    downloaded Scenario.snapshot_down_stuck "T1" Scenario.fetched_once = (w2, Val st) ∧
    snapshotSaved st = false ∧ imageSmallSaved st = false ∧
    imageLargeSaved st = false ∧
    fails Scenario.snapshot_down_stuck (OpRm "T1") = true ∧
    saveSnapshots Scenario.snapshot_down_stuck [Scenario.task_T1] Scenario.fetched_once
    = (Scenario.stale, Val tt) ∧
    has_metadata Scenario.stale "T1" = true ∧
    has_file Scenario.stale "T1" "snapshot.json" = false ∧
    has_file Scenario.stale "T1" "image-small.png" = false ∧
    has_file Scenario.stale "T1" "image-large.png" = false ∧
    has_artifacts Scenario.stale "T1" = false.
Proof.
  split; [by_run|]. split; [by_run|].
  eexists _, _. split; [by_run|]. repeat (split; [by_run|]). by_run.
Qed.

(** C2, amended: with listed tasks whose identifiers are plain directory
    names, after [saveSnapshots] completes, for every listed task whose
    folder removal does not fail, the folder holds a metadata record
    exactly when it holds the three artifact files (it is complete, or it
    is gone); and in the events of the call every write of a record comes
    after a write of each of the three artifact files of that task. *)
Theorem C2_record_iff_artifacts (E : env) (tasks : list obj) (w w' : world) :
  saveSnapshots E tasks w = (w', Val tt) →
  (∀ task id, task ∈ tasks → obj_get "id" task = Some (JStr id) →
     plain_name id = true) →
  (∀ task id, task ∈ tasks → obj_get "id" task = Some (JStr id) →
     fails E (OpRm id) = false →
     has_metadata w' id = has_artifacts w' id ∧ complete_or_absent w' id) ∧
  (∃ evs, trace w' = (trace w ++ evs)%list ∧
          ∀ id, record_after_artifacts id evs).
Proof.
  intros (w0 & Hroot & Hs)%saveSnapshots_inv _. split.
  - intros task id Hin Hid Hrm.
    pose proof (save_tasks_complete E tasks w0 w' task id Hs Hin Hid Hrm) as Hc.
    split; [by apply complete_or_absent_eq | done].
  - apply fs_mkdir_root_val in Hroot as (_ & _ & evr & Htr & Hevr).
    destruct (save_tasks_trace E tasks w0 w' Hs) as (seg & Hseg & Hafter).
    exists (evr ++ seg)%list. split; [by rewrite Hseg, Htr, <- app_assoc|].
    intros id. apply record_after_artifacts_app; [|done].
    apply record_after_artifacts_none. by intros ?%Hevr.
Qed.

Lemma C2_record_iff_artifacts_witness :
  has_metadata Scenario.dropped "T1" = has_artifacts Scenario.dropped "T1" ∧
  complete_or_absent Scenario.dropped "T1".
Proof.
  destruct (C2_record_iff_artifacts Scenario.large_missing [Scenario.task_T1]
              Scenario.fetched_once Scenario.dropped ltac:(by_run)) as [H _].
  - intros task id ->%list_elem_of_singleton [= <-]. reflexivity.
  - apply (H Scenario.task_T1 "T1"); [in_list | reflexivity | reflexivity].
Defined.

(** ** The refresh *)

(** C4 as stated fails: with the task listing, the task detail and the
    three downloads all succeeding, a metadata record that cannot be
    written makes the refresh answer 500. *)
Lemma C4_record_write_failure_counterexample :
  getItems Scenario.record_unwritable = Val ["r1"] ∧
  getSharingTask Scenario.record_unwritable "r1" = Val Scenario.task_T1 ∧
  (∀ a, a ∈ fileFormats →
        ∃ resp, getSharingTaskExecutionFile Scenario.record_unwritable "T1"
                  executionId a = Val resp) ∧
  get_snapshots Scenario.record_unwritable Scenario.empty
  = (Scenario.unwritten, Val (Err500 "write failed")).
Proof.
  split; [reflexivity|]. split; [reflexivity|]. split; [|by_run].
  intros a Ha. unfold fileFormats in Ha.
  repeat (apply elem_of_cons in Ha as [->|Ha]); [| | | by apply elem_of_nil in Ha];
    eexists; reflexivity.
Qed.

(** C4, amended: a refresh whose listing or one of whose task details
    cannot be obtained answers 500.  When both are obtained, every task
    with a string identifier that is a plain directory name and under
    which the root holds no plain file, the refresh answers 200 exactly
    when the root can be created and every task passes (its folder can be
    created and, when its three downloads are saved, its record can be
    written), and 500 exactly when the creation of the root fails or a
    task stops; no failure of a download, of the write of an artifact
    file, of a cleanup or of a re-read is among these conditions. *)
Theorem C4_refresh_fails_exactly_when (E : env) (w : world) :
  (∀ msg, getItems E = Exn msg →
     get_snapshots E w = (w, Val (Err500 (message_or_default msg)))) ∧
  (∀ items it msg,
     getItems E = Val items → it ∈ items → getSharingTask E it = Exn msg →
     ∃ m, get_snapshots E w = (w, Val (Err500 m))) ∧
  (∀ items tasks,
     getItems E = Val items →
     fetch_tasks E items w = (w, Val tasks) →
     (∀ task, task ∈ tasks →
        ∃ id, obj_get "id" task = Some (JStr id) ∧ plain_name id = true ∧
              ∀ c, node_at w id ≠ Some (File c)) →
     ((∃ w' L, get_snapshots E w = (w', Val (Json200 L))) ↔
      fails E OpMkdirRoot = false ∧
      ∀ task id, task ∈ tasks → obj_get "id" task = Some (JStr id) →
                 task_passes E id) ∧
     ((∃ w' m, get_snapshots E w = (w', Val (Err500 m))) ↔
      fails E OpMkdirRoot = true ∨
      ∃ task id, task ∈ tasks ∧ obj_get "id" task = Some (JStr id) ∧
                 task_stops E id)).
Proof.
  split; [|split].
  - intros msg Hg. unfold get_snapshots, try_catch, bind, lift. by rewrite Hg.
  - intros items it msg Hg Hin Hit.
    destruct (fetch_tasks_fails E items it msg w Hin Hit) as [msg' Hf].
    unfold get_snapshots, try_catch, bind, lift. rewrite Hg, Hf. eauto.
  - intros items tasks Hg Hf Hall.
    assert (Hall' : ∀ task, task ∈ tasks →
              ∃ id, obj_get "id" task = Some (JStr id) ∧
                    ∀ c, node_at w id ≠ Some (File c)).
    { intros task Hin. destruct (Hall task Hin) as (id & Hid & _ & Hn). eauto. }
    assert (Hclash : fails E OpMkdirRoot = false →
              (∀ task id, task ∈ tasks → obj_get "id" task = Some (JStr id) →
                          task_passes E id) →
              (fails E OpMkdirRoot = true ∨
               ∃ task id, task ∈ tasks ∧ obj_get "id" task = Some (JStr id) ∧
                          task_stops E id) → False).
    { intros Hroot Hp [Hroot'|(task & id & Hin & Hid & Hst)]; [congruence|].
      apply (passes_not_stops E id); [by apply (Hp task) | done]. }
    destruct (get_snapshots_result E w items tasks Hg Hf Hall')
      as [(Hok & Hroot & Hp)|[(w1 & m1 & Hko) Hst]].
    + split; split.
      * by intros _.
      * by intros _.
      * intros (w2 & m2 & Hko). destruct Hok as (w1 & L & Hok). congruence.
      * intros Hst. destruct (Hclash Hroot Hp Hst).
    + split; split.
      * intros (w2 & L & Hok). congruence.
      * intros [Hroot Hp]. destruct (Hclash Hroot Hp Hst).
      * by intros _.
      * intros _. eauto.
Qed.

Lemma C4_refresh_fails_exactly_when_witness :
  downloaded Scenario.large_missing_stuck "T1" Scenario.rooted
  = (Scenario2.attempted_stuck, Val Scenario2.attempted_locals) ∧
  fails Scenario.large_missing_stuck (OpRm "T1") = true ∧
  ∃ w' L, get_snapshots Scenario.large_missing_stuck Scenario.empty
          = (w', Val (Json200 L)).
Proof.
  split; [by_run|]. split; [reflexivity|].
  destruct (C4_refresh_fails_exactly_when Scenario.large_missing_stuck Scenario.empty)
    as (_ & _ & H).
  destruct (H ["r1"] [Scenario.task_T1] eq_refl eq_refl) as [[_ Hok] _].
  - intros task ->%list_elem_of_singleton. exists "T1". by repeat split.
  - apply Hok. split; [reflexivity|].
    intros task id ->%list_elem_of_singleton [= <-]. split; [reflexivity|].
    intros _. reflexivity.
Defined.

(** C5 as stated fails: the folder of a task that is no longer monitored
    stays in the store, so after a refresh that lists no task (and answers
    200 with no entry) the local listing still returns the entry of
    [T1]. *)
Lemma C5_stale_folder_counterexample :
  get_snapshots Scenario.healthy Scenario.empty
  = (Scenario.refreshed, Val (Json200 [Scenario.entry_T1])) ∧
  get_snapshots Scenario.idle Scenario.refreshed
  = (Scenario.refreshed, Val (Json200 [])) ∧
  get_local_snapshots Scenario.idle Scenario.refreshed
  = (Scenario.refreshed, Val (Json200 [Scenario.entry_T1])) ∧
  ¬ same_entries [] [Scenario.entry_T1].
Proof.
  repeat (split; [by_run|]).
  intros H. destruct (H Scenario.entry_T1) as [_ Hin].
  apply elem_of_nil in Hin; [done | by left].
Qed.

(** C5, amended: with listed tasks whose identifiers are plain directory
    names, the refresh answers with the entries re-read from the store it
    leaves; each of them has a counterpart in the local listing made from
    the same record, equal to it when the record's [id] and [name] are
    truthy; and each entry the local listing makes from the folder of a
    listed task has such a counterpart in the refresh answer.  The local
    listing holds an entry for every folder of the store with a readable
    record that is not [null], whether its task is listed or not. *)
Theorem C5_refresh_entries_are_listed (E : env) (w w' w'' : world)
    (L L' : list entry) :
  get_snapshots E w = (w', Val (Json200 L)) →
  get_local_snapshots E w' = (w'', Val (Json200 L')) →
  (∀ items it task id,
     getItems E = Val items → it ∈ items → getSharingTask E it = Val task →
     obj_get "id" task = Some (JStr id) → plain_name id = true) →
  ∃ items tasks,
    getItems E = Val items ∧
    fetch_tasks E items w = (w, Val tasks) ∧
    read_enhanced E tasks w' = (w', Val L) ∧
    (∀ e0, e0 ∈ L →
       ∃ task id e, task ∈ tasks ∧ obj_get "id" task = Some (JStr id) ∧
         read_task E id w' = (w', Val [e0]) ∧
         read_folder E id w' = (w', Val [e]) ∧ e ∈ L' ∧
         (truthy (e_id e0) = true → truthy (e_name e0) = true → e = e0)) ∧
    (∀ task id e, task ∈ tasks → obj_get "id" task = Some (JStr id) →
       read_folder E id w' = (w', Val [e]) →
       ∃ e0, read_task E id w' = (w', Val [e0]) ∧ e0 ∈ L ∧
             (truthy (e_id e0) = true → truthy (e_name e0) = true → e = e0)) ∧
    (∀ folder d j,
       plain_name folder = true →
       node_at w' folder = Some (Dir d) →
       d !! "metadata.json" = Some (JsonText j) →
       fails E (OpRead folder "metadata.json") = false →
       j ≠ JNull →
       ∃ e, local_entry folder j w' = (w', Val e) ∧ e ∈ L').
Proof.
  intros Hrefresh Hlocal _.
  destruct (get_snapshots_inv E w w' L Hrefresh)
    as (items & tasks & Hitems & Htasks & Hsave & Hread).
  exists items, tasks. repeat (split; [done|]).
  pose proof Hsave as (w0 & _ & Hs)%saveSnapshots_inv.
  destruct (read_enhanced_spec E tasks w' (save_tasks_ids E tasks w0 w' Hs))
    as (L0 & HL0 & Hmem).
  rewrite HL0 in Hread. injection Hread as ->.
  assert (Hpair : ∀ id, 
    (∃ e0, read_task E id w' = (w', Val [e0])) ∨ (∃ e, read_folder E id w' = (w', Val [e])) →
    ∃ j e0 e, fs_readFile E id "metadata.json" w' = (w', Val (JsonText j)) ∧
      read_task E id w' = (w', Val [e0]) ∧
      read_folder E id w' = (w', Val [e]) ∧
      (truthy (e_id e0) = true → truthy (e_name e0) = true → e = e0)).
  { intros id Hsome.
    assert (∃ j, fs_readFile E id "metadata.json" w' = (w', Val (JsonText j)) ∧ j ≠ JNull)
      as (j & Hj & Hnn).
    { destruct Hsome as [[e0 He0]|[e He]].
      - destruct (read_task_cases E id w') as [[Hr _]|(j & e' & Hj & Hre & _)];
          [congruence|].
        exists j. split; [done|]. by apply refresh_entry_inv in Hre as [_ ?].
      - destruct (read_folder_cases E id w') as [[Hr _]|(j & e' & Hj & Hle & _)];
          [congruence|].
        exists j. split; [done|]. by apply local_entry_inv in Hle as [_ ?]. }
    destruct (refresh_entry_val j w' Hnn) as [e0 He0].
    destruct (local_entry_val id j w' Hnn) as [e He].
    exists j, e0, e. split; [done|].
    destruct (read_task_cases E id w') as [[_ Hno]|(j1 & e1 & Hj1 & Hre1 & Hrt)];
      [by destruct (Hno j e0 Hj)|].
    destruct (read_folder_cases E id w') as [[_ Hno]|(j2 & e2 & Hj2 & Hle2 & Hrf)];
      [by destruct (Hno j e Hj)|].
    rewrite Hj in Hj1, Hj2. injection Hj1 as <-. injection Hj2 as <-.
    rewrite He0 in Hre1. injection Hre1 as <-.
    rewrite He in Hle2. injection Hle2 as <-.
    repeat (split; [done|]). by apply (entries_agree id j w'). }
  split; [|split].
  - intros e0 (task & id & Hin & Hid & Hrt)%Hmem.
    destruct (Hpair id) as (j & e0' & e & Hj & Hrt' & Hrf & Hagree); [eauto|].
    rewrite Hrt in Hrt'. injection Hrt' as <-.
    exists task, id, e. repeat (split; [done|]). split; [|done].
    apply fs_readFile_lookup in Hj as (_ & _ & r & d & Hr & Hd & _).
    destruct (get_local_snapshots_inv E w' w'' r L' Hr Hlocal) as [_ Hloc].
    destruct (read_local_spec E
                (filter (fun e => is_dir e.2 = true) (map_to_list r)) w')
      as (L1 & HL1 & Hmem1).
    rewrite HL1 in Hloc. injection Hloc as ->.
    apply Hmem1. exists id, (Dir d). split; [|done].
    apply list_elem_of_filter. split; [done|]. by apply elem_of_map_to_list.
  - intros task id e Hin Hid Hrf.
    destruct (Hpair id) as (j & e0 & e' & Hj & Hrt & Hrf' & Hagree); [eauto|].
    rewrite Hrf in Hrf'. injection Hrf' as <-.
    exists e0. split; [done|]. split; [|done].
    apply Hmem. eauto.
  - intros folder d j _ Hnode Hd Hread Hnn.
    destruct (root w') as [r|] eqn:Hr; [|by unfold node_at in Hnode; rewrite Hr in Hnode].
    assert (Hfolder : r !! folder = Some (Dir d)).
    { unfold node_at in Hnode. by rewrite Hr in Hnode. }
    assert (Hj : fs_readFile E folder "metadata.json" w' = (w', Val (JsonText j))).
    { apply fs_readFile_lookup. split; [done|]. split; [done|]. by exists r, d. }
    destruct (local_entry_val folder j w' Hnn) as [e He].
    exists e. split; [done|].
    destruct (read_folder_cases E folder w') as [[_ Hno]|(j2 & e2 & Hj2 & Hle2 & Hrf)];
      [by destruct (Hno j e Hj)|].
    rewrite Hj in Hj2. injection Hj2 as <-.
    rewrite He in Hle2. injection Hle2 as <-.
    destruct (get_local_snapshots_inv E w' w'' r L' Hr Hlocal) as [_ Hloc].
    destruct (read_local_spec E
                (filter (fun e => is_dir e.2 = true) (map_to_list r)) w')
      as (L1 & HL1 & Hmem1).
    rewrite HL1 in Hloc. injection Hloc as ->.
    apply Hmem1. exists folder, (Dir d). split; [|done].
    apply list_elem_of_filter. split; [done|]. by apply elem_of_map_to_list.
Qed.

Lemma C5_refresh_entries_are_listed_witness :
  ∃ items tasks,
    getItems Scenario.healthy = Val items ∧
    fetch_tasks Scenario.healthy items Scenario.empty = (Scenario.empty, Val tasks) ∧
    read_enhanced Scenario.healthy tasks Scenario.refreshed
    = (Scenario.refreshed, Val [Scenario.entry_T1]).
Proof.
  destruct (C5_refresh_entries_are_listed Scenario.healthy Scenario.empty
              Scenario.refreshed Scenario.refreshed
              [Scenario.entry_T1] [Scenario.entry_T1]
              ltac:(by_run) ltac:(by_run))
    as (items & tasks & H1 & H2 & H3 & _).
  - intros items it task id _ _ [= <-] [= <-]. reflexivity.
  - by exists items, tasks.
Defined.

(** * Further properties *)

(** A name that is none of the names of an explicit list. *)
Ltac not_in_list :=
  let H := fresh in
  intros H; repeat (apply elem_of_cons in H as [?|H]; [done|]);
  by apply elem_of_nil in H.

(** ** Strings *)

Lemma prefix_spec (n h : string) :
  String.prefix n h = true ↔ ∃ post, h = n ++ post.
Proof.
  revert h. induction n as [|c n IH]; intros h; simpl.
  - split; [intros _; by exists h | intros _; by destruct h].
  - destruct h as [|c' h]; [split; [done | by intros (? & ?)]|]. simpl.
    destruct (Ascii.ascii_dec c c') as [->|Hne].
    + rewrite IH. split; intros (post & Hp); exists post; [by rewrite Hp | by injection Hp].
    + split; [done | intros (post & Hp); by injection Hp].
Qed.

Lemma includes_eq (n h : string) :
  includes n h =
  if String.prefix n h then true
  else match h with
       | EmptyString => false
       | String _ h' => includes n h'
       end.
Proof. by destruct h. Qed.

(** [includes] is the substring test. *)
Lemma includes_spec (n h : string) :
  includes n h = true ↔ ∃ pre post, h = pre ++ n ++ post.
Proof.
  induction h as [|c h IH]; rewrite includes_eq.
  - destruct (String.prefix n "") eqn:Hp.
    + apply prefix_spec in Hp as (post & Hp). split; [|done].
      intros _. by exists "", post.
    + split; [done|]. intros (pre & post & Heq).
      destruct pre; [|done]. simpl in Heq.
      assert (String.prefix n "" = true) by (apply prefix_spec; eauto). congruence.
  - destruct (String.prefix n (String c h)) eqn:Hp.
    + apply prefix_spec in Hp as (post & Hp). split; [|done].
      intros _. by exists "", post.
    + rewrite IH. split.
      * intros (pre & post & ->). by exists (String c pre), post.
      * intros (pre & post & Heq). destruct pre as [|c' pre]; simpl in Heq.
        -- assert (String.prefix n (String c h) = true) by (apply prefix_spec; eauto).
           congruence.
        -- injection Heq as _ ->. eauto.
Qed.

(** ** The requests of a task *)

Lemma fetched_app (l1 l2 : list event) :
  fetched (l1 ++ l2) = (fetched l1 ++ fetched l2)%list.
Proof.
  induction l1 as [|e l1 IH]; [done|]. destruct e; simpl; by rewrite ?IH.
Qed.

Section Requests.

Variable E : env.

Lemma put_trace (id name : string) (c : content) (w : world) (e : event)
    (d : gmap string content) :
  task_folder w id = Some d →
  trace (put id name c (log e w)) = (trace w ++ [e; EvWrite id name])%list.
Proof.
  intros (r & Hr & Hid)%task_folder_root. unfold put. simpl.
  rewrite Hr, Hid. simpl. by rewrite <- app_assoc.
Qed.

(** The requests of the download loop, for any list of formats: they are
    made in the order of the list and stop at the first failure. *)
Lemma download_loop_requests (id : string) (aliases : list string) (st : locals)
    (w : world) (d : gmap string content) :
  task_folder w id = Some d →
  ∃ w' st' evs k,
    download_loop E id aliases st w = (w', Val st') ∧
    trace w' = (trace w ++ evs)%list ∧
    fetched evs = take k aliases ∧
    (k ≤ length aliases)%nat ∧
    (aliases ≠ [] → (1 ≤ k)%nat) ∧
    (hasFailures st = true → hasFailures st' = true) ∧
    (hasFailures st = false → hasFailures st' = false → k = length aliases) ∧
    (hasFailures st = false → hasFailures st' = true →
       ∃ a, aliases !! pred k = Some a ∧ last evs = Some (EvFetch id a)).
Proof.
  revert st w d. induction aliases as [|a aliases IH]; intros st w d Hd; simpl.
  - exists w, st, [], 0%nat. rewrite app_nil_r. repeat split; try done.
    intros ? ?; congruence.
  - unfold bind. rewrite (download_one_eq E id a st w d Hd).
    destruct (role_outcome E id a) as [b|png buf|]; simpl.
    + destruct (IH (if String.eqb a "snapshot" then set_snapshot b st else st)
                  (put id (json_name a) (JsonText (body_json b)) (log (EvFetch id a) w))
                  (<[ json_name a := JsonText (body_json b) ]> d))
        as (w' & st' & evs & k & Hl & Htr & Hf & Hk & Hk1 & Hkeep & Hok & Hbad);
        [by apply put_log_folder|].
      assert (Hsame : hasFailures (if String.eqb a "snapshot" then set_snapshot b st
                                   else st) = hasFailures st)
        by by destruct (String.eqb a "snapshot").
      rewrite Hsame in Hkeep, Hok, Hbad.
      exists w', st', ([EvFetch id a; EvWrite id (json_name a)] ++ evs)%list, (S k).
      split; [done|]. split.
      { rewrite Htr, (put_trace id _ _ w _ d Hd), <- app_assoc. done. }
      split; [simpl; by rewrite Hf|]. split; [simpl; lia|]. split; [lia|].
      split; [done|]. split; [intros H1 H2; by rewrite (Hok H1 H2)|].
      intros H1 H2. destruct (Hbad H1 H2) as (a' & Hlook & Hlast).
      destruct k as [|k]; [destruct aliases; [done | specialize (Hk1 ltac:(done)); lia]|].
      exists a'. split; [done|]. rewrite last_app, Hlast. done.
    + destruct (IH (if String.eqb a "image-small" then set_imageSmall st
                    else if String.eqb a "image-large" then set_imageLarge st else st)
                  (put id (binary_name a png) (Bytes buf) (log (EvFetch id a) w))
                  (<[ binary_name a png := Bytes buf ]> d))
        as (w' & st' & evs & k & Hl & Htr & Hf & Hk & Hk1 & Hkeep & Hok & Hbad);
        [by apply put_log_folder|].
      assert (Hsame : hasFailures (if String.eqb a "image-small" then set_imageSmall st
                    else if String.eqb a "image-large" then set_imageLarge st else st)
                      = hasFailures st).
      { destruct (String.eqb a "image-small"); [done|].
        by destruct (String.eqb a "image-large"). }
      rewrite Hsame in Hkeep, Hok, Hbad.
      exists w', st', ([EvFetch id a; EvWrite id (binary_name a png)] ++ evs)%list, (S k).
      split; [done|]. split.
      { rewrite Htr, (put_trace id _ _ w _ d Hd), <- app_assoc. done. }
      split; [simpl; by rewrite Hf|]. split; [simpl; lia|]. split; [lia|].
      split; [done|]. split; [intros H1 H2; by rewrite (Hok H1 H2)|].
      intros H1 H2. destruct (Hbad H1 H2) as (a' & Hlook & Hlast).
      destruct k as [|k]; [destruct aliases; [done | specialize (Hk1 ltac:(done)); lia]|].
      exists a'. split; [done|]. rewrite last_app, Hlast. done.
    + exists (log (EvFetch id a) w), (set_hasFailures st), [EvFetch id a], 1%nat.
      split; [done|]. split; [done|]. split; [simpl; by destruct aliases|].
      split; [simpl; lia|]. split; [done|]. split; [done|].
      split; [done|]. intros _ _. by exists a.
Qed.

End Requests.

Section Transaction.

Variable E : env.

Lemma fetched_mkdir (id : string) (evs : list event) :
  (∀ e, e ∈ evs → e = EvMkdir id) → fetched evs = [].
Proof.
  induction evs as [|e evs IH]; intros H; [done|].
  rewrite (H e) by by left. simpl. apply IH. intros e' He'. apply H. by right.
Qed.

(** X1: the three formats are requested in the fixed order, one after the
    other, and a failure stops the requests: the run of a failed download
    phase ends with the request that failed. *)
Theorem requests_in_order_until_failure (id : string) (w w2 : world) (st : locals) :
  downloaded E id w = (w2, Val st) →
  ∃ evs k,
    trace w2 = (trace w ++ evs)%list ∧
    fetched evs = take k fileFormats ∧
    (1 ≤ k ≤ 3)%nat ∧
    (hasFailures st = false → k = 3%nat) ∧
    (hasFailures st = true →
       ∃ a, fileFormats !! pred k = Some a ∧ last evs = Some (EvFetch id a)).
Proof.
  intros Hd. unfold downloaded, bind in Hd.
  destruct (fs_mkdir_cases E id w) as [[msg Hm]|(w1 & d1 & Hm & Hd1 & _ & (evm & Htrm & Hevm) & _)];
    rewrite Hm in Hd; [done|].
  destruct (download_loop_requests E id fileFormats init_locals w1 d1 Hd1)
    as (w' & st' & evs & k & Hl & Htr & Hf & Hk & Hk1 & _ & Hok & Hbad).
  rewrite Hl in Hd. injection Hd as <- <-.
  exists (evm ++ evs)%list, k. split; [by rewrite Htr, Htrm, <- app_assoc|].
  split; [by rewrite fetched_app, (fetched_mkdir id evm Hevm)|].
  split; [split; [by apply Hk1 | exact Hk]|].
  split; [by apply Hok|].
  intros Hfail. destruct (Hbad eq_refl Hfail) as (a & Ha & Hlast).
  exists a. split; [done|]. by rewrite last_app, Hlast.
Qed.

(** X2: a task is complete exactly when the snapshot was saved as JSON and
    the two images as binary files, the data of each image being a Blob,
    a Buffer or a value [Buffer.from] accepts. *)
Theorem complete_iff_three_saved (id : string) (w w2 : world) (st : locals) :
  downloaded E id w = (w2, Val st) →
  incomplete st = false ↔
  saved_as_json E id "snapshot" ∧
  saved_as_binary E id "image-small" ∧
  saved_as_binary E id "image-large".
Proof.
  intros Hd.
  destruct (downloaded_loop E id w w2 st Hd) as (w1 & d1 & _ & Hd1 & Hl).
  exact (loop_complete_iff E id w1 w2 st d1 Hd1 Hl).
Qed.

(** X3: the name and the content a response is saved under: [<format>.json]
    with the JSON text of the data when the content type, in lower case,
    contains [application/json]; otherwise the bytes of the data (those
    of the Blob or Buffer, or those [Buffer.from] makes of it), under
    [<format>.png] when it contains [image/png] and under the bare format
    name when it does not (a missing header counts as the empty type). *)
Theorem saved_name_follows_content_type (id a : string) (st st' : locals)
    (w w' : world) (d : gmap string content) (resp : response) :
  task_folder w id = Some d →
  getSharingTaskExecutionFile E id executionId a = Val resp →
  download_one E id a st w = (w', Val (st', true)) →
  ∃ name c,
    w' = put id name c (log (EvFetch id a) w) ∧
    task_folder w' id = Some (<[ name := c ]> d) ∧
    ((∃ pre post, toLowerCase (header_or_empty (content_type resp))
                  = pre ++ "application/json" ++ post) ∧
     name = a ++ ".json" ∧ c = JsonText (body_json (data resp))
     ∨
     ¬ (∃ pre post, toLowerCase (header_or_empty (content_type resp))
                    = pre ++ "application/json" ++ post) ∧
     ∃ buf, to_buffer E (data resp) = Val buf ∧ c = Bytes buf ∧
       ((∃ pre post, toLowerCase (header_or_empty (content_type resp))
                     = pre ++ "image/png" ++ post) ∧ name = a ++ ".png"
        ∨
        ¬ (∃ pre post, toLowerCase (header_or_empty (content_type resp))
                       = pre ++ "image/png" ++ post) ∧ name = a)).
Proof.
  intros Hd Hresp. rewrite (download_one_eq E id a st w d Hd).
  unfold role_outcome. rewrite Hresp. simpl.
  destruct (includes "application/json" _) eqn:Hj.
  - destruct (fails E _); [done|]. intros [= <- _].
    exists (a ++ ".json"), (JsonText (body_json (data resp))).
    split; [done|]. split; [by apply put_log_folder|].
    left. split; [by apply includes_spec | done].
  - destruct (to_buffer E (data resp)) as [buf|]; [|done].
    destruct (includes "image/png" _) eqn:Hp; simpl.
    + destruct (fails E _); [done|]. intros [= <- _].
      exists (a ++ ".png"), (Bytes buf).
      split; [done|]. split; [by apply put_log_folder|].
      right. split; [intros H%includes_spec; congruence|].
      exists buf. repeat split. left. split; [by apply includes_spec | done].
    + destruct (fails E _); [done|]. intros [= <- _].
      exists a, (Bytes buf).
      split; [done|]. split; [by apply put_log_folder|].
      right. split; [intros H%includes_spec; congruence|].
      exists buf. repeat split. right.
      split; [intros H%includes_spec; congruence | done].
Qed.

End Transaction.

(** ** The metadata record *)

Lemma keys_obj_set_in (k : string) (v : json) (o : obj) :
  k ∈ keys o → keys (obj_set k v o) = keys o.
Proof.
  unfold keys. induction o as [|[k' v'] o IH]; simpl; [by intros ?%elem_of_nil|].
  intros Hin. destruct (String.eqb_spec k k') as [->|Hne]; simpl; [done|].
  apply elem_of_cons in Hin as [?|Hin]; [done|]. by rewrite IH.
Qed.

Lemma keys_obj_set_fresh (k : string) (v : json) (o : obj) :
  k ∉ keys o → keys (obj_set k v o) = (keys o ++ [k])%list.
Proof.
  unfold keys. induction o as [|[k' v'] o IH]; simpl; [done|].
  intros Hn. destruct (String.eqb_spec k k') as [->|Hne]; simpl.
  - destruct Hn. by left.
  - rewrite IH; [done|]. intros Hin. apply Hn. by right.
Qed.

Lemma filter_fresh_snoc (k : string) (ks l : list string) :
  k ∉ l →
  filter (fun x => x ∉ (ks ++ [k])%list) l = filter (fun x => x ∉ ks) l.
Proof.
  induction l as [|x l IH]; intros Hk; [done|].
  rewrite !filter_cons, IH by (intros ?; apply Hk; by right).
  assert (x ≠ k) by (intros ->; apply Hk; by left).
  destruct (decide (x ∉ ks)) as [Hx|Hx].
  - rewrite decide_True; [done|]. by intros [?|?%list_elem_of_singleton]%elem_of_app.
  - rewrite decide_False; [done|]. intros Hn. apply Hx. intros Hin. apply Hn.
    apply elem_of_app. by left.
Qed.

Lemma keys_foldl_obj_set (kvs : list (string * json)) (o : obj) :
  NoDup kvs.*1 →
  keys (foldl (fun o kv => obj_set kv.1 kv.2 o) o kvs)
  = (keys o ++ filter (fun k => k ∉ keys o) kvs.*1)%list.
Proof.
  revert o. induction kvs as [|[k v] kvs IH]; intros o Hnd; simpl.
  - by rewrite app_nil_r.
  - apply NoDup_cons in Hnd as [Hk Hnd]. rewrite IH by done.
    destruct (decide (k ∈ keys o)) as [Hin|Hnin].
    + rewrite keys_obj_set_in by done. rewrite filter_cons_False; [done | by intros ?].
    + rewrite keys_obj_set_fresh by done. rewrite filter_cons_True by done.
      rewrite filter_fresh_snoc by done. by rewrite <- app_assoc.
Qed.

(** X4: the record written at the commit: the five derived properties have
    the derived values whatever the task held under those names, every
    other property is the task's; the task's keys come first, in the
    task's order, followed by the derived keys the task did not have. *)
Theorem record_overrides_and_keeps (task : obj) (v : json) (dm now : string) :
  (∀ k, obj_get k (enhancedMetadata task v dm now) =
        if String.eqb k "lastUpdated" then Some (JStr now)
        else if String.eqb k "displayMode" then Some (JStr dm)
        else if String.eqb k "snapshotAvailable" then Some (JBool true)
        else if String.eqb k "imageAvailable" then Some (JBool true)
        else if String.eqb k "visualization" then Some v
        else obj_get k task) ∧
  keys (enhancedMetadata task v dm now)
  = (keys task ++ filter (fun k => k ∉ keys task) derived_keys)%list.
Proof.
  split.
  - intros k. unfold enhancedMetadata.
    destruct (String.eqb_spec k "lastUpdated") as [->|H1]; [apply obj_get_set_eq|].
    rewrite obj_get_set_ne by done.
    destruct (String.eqb_spec k "displayMode") as [->|H2]; [apply obj_get_set_eq|].
    rewrite obj_get_set_ne by done.
    destruct (String.eqb_spec k "snapshotAvailable") as [->|H3]; [apply obj_get_set_eq|].
    rewrite obj_get_set_ne by done.
    destruct (String.eqb_spec k "imageAvailable") as [->|H4]; [apply obj_get_set_eq|].
    rewrite obj_get_set_ne by done.
    destruct (String.eqb_spec k "visualization") as [->|H5]; [apply obj_get_set_eq|].
    by rewrite obj_get_set_ne.
  - change (enhancedMetadata task v dm now)
      with (foldl (fun o kv => obj_set kv.1 kv.2 o) task
              [("visualization", v); ("imageAvailable", JBool true);
               ("snapshotAvailable", JBool true); ("displayMode", JStr dm);
               ("lastUpdated", JStr now)]).
    apply keys_foldl_obj_set. simpl.
    apply (bool_decide_unpack _). by vm_compute.
Qed.

Section Transaction2.

Variable E : env.

(** *** What a transaction leaves alone *)

Lemma save_task_frame_any (task : obj) (other : string) (w w' : world) (r : res unit) :
  save_task E task w = (w', r) →
  obj_get "id" task ≠ Some (JStr other) →
  node_at w' other = node_at w other.
Proof.
  intros Hs Hne.
  destruct (obj_get "id" task) as [[| | |id| |]|] eqn:Hid;
    try (unfold save_task, task_dir, bind in Hs; rewrite Hid in Hs;
         by injection Hs as <- _).
  assert (Hoi : other ≠ id) by congruence.
  rewrite (save_task_unfold E task id w Hid) in Hs.
  destruct (downloaded_cases E id w) as [(msg & _ & Hd)|(w1 & w2 & st & Hm & Hd & Hinv)];
    rewrite Hd in Hs; [by injection Hs as <- _|].
  apply fs_mkdir_val in Hm as (_ & _ & Hfr).
  rewrite <- (Hfr other Hoi), <- (loop_inv_frame E id other w1 w2 st Hinv Hoi).
  destruct (loop_inv_folder _ _ _ _ _ Hinv) as [d2 Hd2].
  destruct Hinv as (r0 & d0 & d & evs & _ & _ & Hr & _).
  destruct (incomplete st).
  - rewrite (fs_rm_cases E id w2 d2 Hd2) in Hs. injection Hs as <- _.
    destruct (fails E (OpRm id)); [by apply partly_removed_other|].
    unfold removed, node_at. rewrite Hr. simpl. by rewrite lookup_delete_ne.
  - assert (Hd2' : task_folder (tick w2) id = Some d2) by exact Hd2.
    destruct (fails E (OpWrite id "metadata.json")) eqn:Hf.
    + destruct (fs_writeFile_fails E id "metadata.json"
                  (JsonText (JObj (record_of task st (clock E (ticks w2))))) (tick w2) Hf)
        as [msg Hw]. rewrite Hw in Hs. by injection Hs as <- _.
    + rewrite (fs_writeFile_put E _ _ _ _ _ Hd2' Hf) in Hs. injection Hs as <- _.
      unfold put, tick, node_at. simpl. rewrite Hr, lookup_insert_eq. simpl.
      by rewrite lookup_insert_ne.
Qed.

Lemma save_tasks_frame_any (tasks : list obj) (other : string) (w w' : world)
    (r : res unit) :
  save_tasks E tasks w = (w', r) →
  (∀ task, task ∈ tasks → obj_get "id" task ≠ Some (JStr other)) →
  node_at w' other = node_at w other.
Proof.
  revert w. induction tasks as [|t tasks IH]; intros w Hs Hall; simpl in Hs.
  - by injection Hs as <- _.
  - unfold bind in Hs. destruct (save_task E t w) as [w1 [[]|msg]] eqn:Ht.
    + rewrite (IH w1 Hs) by (intros t' Hin; apply Hall; by right).
      apply (save_task_frame_any t other w w1 _ Ht). apply Hall. by left.
    + injection Hs as <- _.
      apply (save_task_frame_any t other w w1 _ Ht). apply Hall. by left.
Qed.

(** X5: with listed tasks whose identifiers are plain directory names,
    [saveSnapshots] changes nothing, whatever its result, under a name of
    the root that is not the identifier of a listed task. *)
Theorem saveSnapshots_touches_listed_only (tasks : list obj) (other : string)
    (w w' : world) (r : res unit) :
  saveSnapshots E tasks w = (w', r) →
  plain_name other = true →
  (∀ task id, task ∈ tasks → obj_get "id" task = Some (JStr id) →
              plain_name id = true ∧ id ≠ other) →
  node_at w' other = node_at w other.
Proof.
  unfold saveSnapshots, bind. intros Hs _ Hplain.
  assert (Hall : ∀ task, task ∈ tasks → obj_get "id" task ≠ Some (JStr other)).
  { intros task Hin Hid. by destruct (Hplain task other Hin Hid). }
  destruct (fs_mkdir_root E w) as [w0 [[]|msg]] eqn:Hroot.
  - apply fs_mkdir_root_val in Hroot as (_ & Hsame & _).
    rewrite <- Hsame. by apply (save_tasks_frame_any tasks other w0 w' r).
  - injection Hs as <- _. unfold fs_mkdir_root in Hroot.
    destruct (fails E OpMkdirRoot); [by injection Hroot as <-|].
    by destruct (root w).
Qed.

(** *** The clock *)

(** X6: a completed iteration reads the clock once when it commits, after
    the downloads, and stores that reading as [lastUpdated]; it does not
    read the clock when the task is incomplete. *)
Theorem clock_read_once_at_commit (task : obj) (id : string) (w w' : world) :
  obj_get "id" task = Some (JStr id) →
  save_task E task w = (w', Val tt) →
  (committed id w w' ∧ ticks w' = S (ticks w) ∧
   ∃ d m, task_folder w' id = Some d ∧
          d !! "metadata.json" = Some (JsonText (JObj m)) ∧
          obj_get "lastUpdated" m = Some (JStr (clock E (ticks w))))
  ∨ (¬ committed id w w' ∧ ticks w' = ticks w).
Proof.
  intros Hid Hsave.
  destruct (save_task_outcome E task id w w' Hid Hsave)
    as (w1 & w2 & st & Hm & _ & Hinv & Hcase).
  apply fs_mkdir_val in Hm as (Ht1 & _ & _).
  destruct (loop_inv_folder _ _ _ _ _ Hinv) as [d2 Hd2].
  pose proof Hinv as (r0 & d0 & d & evs & _ & _ & Hr & Ht2 & _).
  destruct Hcase as [(_ & Hw' & Hn)|(_ & _ & Hw' & Hc)].
  - right. split; [done|]. rewrite Hw'.
    destruct (fails E (OpRm id)); [rewrite partly_removed_ticks; congruence|].
    unfold removed. rewrite Hr. simpl. congruence.
  - left. split; [done|]. split.
    + rewrite Hw'. unfold put, tick. simpl. rewrite Hr, lookup_insert_eq. simpl.
      congruence.
    + eexists _, _. split; [rewrite Hw'; by apply put_folder|].
      split; [apply lookup_insert_eq|].
      unfold record_of, enhancedMetadata. rewrite obj_get_set_eq. congruence.
Qed.

(** *** Earlier files *)

(** X7: a commit removes nothing: every file the folder held before the
    transaction is still in it afterwards (possibly overwritten). *)
Theorem commit_keeps_earlier_files (task : obj) (id name : string) (w w' : world) :
  obj_get "id" task = Some (JStr id) →
  save_task E task w = (w', Val tt) →
  committed id w w' →
  has_file w id name = true →
  has_file w' id name = true.
Proof.
  intros Hid Hsave Hc (d & Hd & Hn)%has_file_true.
  destruct (save_task_outcome E task id w w' Hid Hsave)
    as (w1 & w2 & st & Hm & _ & Hinv & [(_ & _ & Hno)|(_ & _ & Hw' & _)]); [done|].
  destruct (fs_mkdir_cases E id w) as [[msg Hm']|(w1' & d1 & Hm' & Hd1 & _ & _ & _ & Hold)];
    rewrite Hm in Hm'; [done|]. injection Hm' as <-.
  assert (d1 = d) as ->.
  { destruct Hold as [Hold|[Habs _]]; [congruence|].
    apply task_folder_root in Hd as (r & Hr & Hrd).
    unfold node_at in Habs. rewrite Hr in Habs. congruence. }
  destruct (loop_inv_folder _ _ _ _ _ Hinv) as [d2 Hd2].
  destruct Hinv as (r0 & d0 & d' & evs & Hr0 & Hid0 & Hr & _ & _ & _ & Hmono & _).
  assert (d0 = d) as ->.
  { apply task_folder_root in Hd1 as (r & Hr' & Hrd). congruence. }
  assert (d2 = d') as ->.
  { apply task_folder_root in Hd2 as (r & Hr' & Hrd). rewrite Hr in Hr'.
    injection Hr' as <-. rewrite lookup_insert_eq in Hrd. by injection Hrd. }
  apply has_file_true. eexists. split; [rewrite Hw'; by apply put_folder|].
  destruct (decide ("metadata.json" = name)) as [<-|Hne].
  - rewrite lookup_insert_eq; eauto.
  - rewrite lookup_insert_ne by done. by apply Hmono.
Qed.

(** X8: a transaction that does not commit writes no record.  A record
    found in the folder afterwards was left by a cleanup that failed and
    could not delete it, and is the record the folder held before the
    transaction, unchanged. *)
Theorem uncommitted_record_is_the_old_one (task : obj) (id : string) (w w' : world)
    (c : content) :
  obj_get "id" task = Some (JStr id) →
  save_task E task w = (w', Val tt) →
  ¬ committed id w w' →
  file_at w' id "metadata.json" = Some c →
  fails E (OpRm id) = true ∧ rm_keeps E id "metadata.json" = true ∧
  file_at w id "metadata.json" = Some c.
Proof.
  intros Hid Hsave Hn Hc.
  destruct (save_task_outcome E task id w w' Hid Hsave)
    as (w1 & w2 & st & Hm & _ & Hinv & [(_ & Hw' & _)|(_ & _ & _ & ?)]); [|done].
  destruct (fs_mkdir_cases E id w) as [[msg Hm']|(w1' & d1 & Hm' & Hd1 & _ & _ & _ & Hold)];
    rewrite Hm in Hm'; [done|]. injection Hm' as <-.
  destruct (loop_inv_folder _ _ _ _ _ Hinv) as [d2 Hd2].
  destruct Hinv as (r0 & d0 & d' & evs & Hr0 & Hid0 & Hr & _ & _ & _ & _ & Hmeta & _).
  assert (d0 = d1) as ->.
  { apply task_folder_root in Hd1 as (r & Hr' & Hrd). congruence. }
  assert (d2 = d') as ->.
  { apply task_folder_root in Hd2 as (r & Hr' & Hrd). rewrite Hr in Hr'.
    injection Hr' as <-. rewrite lookup_insert_eq in Hrd. by injection Hrd. }
  subst w'. destruct (fails E (OpRm id)).
  - apply partly_removed_file in Hc as [Hc Hk]. split; [done|]. split; [done|].
    unfold file_at in Hc. rewrite Hd2, Hmeta in Hc.
    destruct Hold as [Hold|[_ ->]]; [|by rewrite lookup_empty in Hc].
    unfold file_at. by rewrite Hold.
  - exfalso. revert Hc. unfold file_at, task_folder, removed. rewrite Hr. simpl.
    by rewrite lookup_delete_eq.
Qed.

(** *** The entry of a committed task *)

Lemma visualization_of_truthy (sd : option body) :
  truthy (Some (visualization_of sd)) = true.
Proof.
  unfold visualization_of. destruct sd as [d|]; [|done].
  destruct (body_truthy d); [|done].
  destruct (body_prop d "visualization") as [[v|]|]; try done.
  by destruct (truthy (Some v)) eqn:Hv.
Qed.

(** X9: when the record of a committed task can be read back, the refresh
    makes of it the entry with the task's identifier, the task's own
    [name] (undefined when the task has none), the visualization type of
    the snapshot payload the transaction saved, both availability flags
    true, and the display mode of that type. *)
Theorem committed_task_entry (task : obj) (id : string) (w w' : world) :
  obj_get "id" task = Some (JStr id) →
  save_task E task w = (w', Val tt) →
  committed id w w' →
  fails E (OpRead id "metadata.json") = false →
  ∃ resp,
    getSharingTaskExecutionFile E id executionId "snapshot" = Val resp ∧
    read_task E id w'
    = (w', Val [mkEntry (Some (JStr id)) (obj_get "name" task)
                        (Some (visualization_of (Some (data resp))))
                        (Some (JBool true)) (Some (JBool true))
                        (Some (JStr (displayMode_of
                                       (visualization_of (Some (data resp))))))]).
Proof.
  intros Hid Hsave Hc Hread.
  destruct (committed_record E task id w w' Hid Hsave Hc)
    as (w1 & w2 & st & d2 & _ & Hinv & Hinc & _ & Hf).
  apply incomplete_false in Hinc as (_ & _ & _ & Hj).
  destruct Hinv as (r0 & d0 & d & evs & _ & _ & _ & _ & _ & _ & _ & _ & Hsnap & _).
  destruct (Hsnap Hj) as (_ & _ & resp & Hresp & Hdata).
  exists resp. split; [done|]. rewrite <- Hdata.
  assert (Hr : fs_readFile E id "metadata.json" w'
               = (w', Val (JsonText (JObj (record_of task st (clock E (ticks w2))))))).
  { apply fs_readFile_lookup. split; [done|]. split; [done|].
    apply task_folder_root in Hf as (r & Hr & Hrd).
    exists r. eexists. split; [done|]. split; [done|]. apply lookup_insert_eq. }
  unfold read_task, try_catch, bind. rewrite Hr. simpl.
  unfold refresh_entry, bind, lift, get_prop.
  rewrite record_of_visualization, record_of_displayMode.
  rewrite !record_of_inherited by not_in_list. rewrite Hid.
  unfold record_of, enhancedMetadata.
  rewrite (obj_get_set_ne "imageAvailable" "lastUpdated") by done.
  rewrite (obj_get_set_ne "imageAvailable" "displayMode") by done.
  rewrite (obj_get_set_ne "imageAvailable" "snapshotAvailable") by done.
  rewrite obj_get_set_eq.
  rewrite (obj_get_set_ne "snapshotAvailable" "lastUpdated") by done.
  rewrite (obj_get_set_ne "snapshotAvailable" "displayMode") by done.
  rewrite obj_get_set_eq.
  unfold ret. unfold js_or. rewrite visualization_of_truthy. simpl.
  unfold displayMode_of.
  by destruct (charts_include (visualization_of (snapshotData st))).
Qed.

End Transaction2.

(** ** The status of a response *)

Section Status.

Variable E : env.
Variable f : Z → Z.

Lemma download_try_restatus (id a : string) (st : locals) (w : world) :
  download_try (restatus f E) id a st w = download_try E id a st w.
Proof.
  unfold download_try, bind, qlik_getFile. simpl.
  by destruct (getSharingTaskExecutionFile E id executionId a).
Qed.

Lemma download_loop_restatus (id : string) (aliases : list string) (st : locals)
    (w : world) :
  download_loop (restatus f E) id aliases st w = download_loop E id aliases st w.
Proof.
  revert st w. induction aliases as [|a aliases IH]; intros st w; [done|].
  simpl. unfold bind, download_one, try_catch. rewrite download_try_restatus.
  destruct (download_try E id a st w) as [w1 [[st1 []]|msg]]; simpl; auto.
Qed.

Lemma save_task_restatus (task : obj) (w : world) :
  save_task (restatus f E) task w = save_task E task w.
Proof.
  unfold save_task, bind. destruct (task_dir task w) as [w0 [id|msg]]; [|done].
  change (fs_mkdir (restatus f E) id w0) with (fs_mkdir E id w0).
  destruct (fs_mkdir E id w0) as [w1 [[]|msg]]; [|done].
  rewrite download_loop_restatus.
  destruct (download_loop E id fileFormats init_locals w1) as [w2 [st|msg]]; [|done].
  by destruct (incomplete st).
Qed.

Lemma save_tasks_restatus (tasks : list obj) (w : world) :
  save_tasks (restatus f E) tasks w = save_tasks E tasks w.
Proof.
  revert w. induction tasks as [|t tasks IH]; intros w; [done|].
  simpl. unfold bind. rewrite save_task_restatus.
  destruct (save_task E t w) as [w1 [[]|msg]]; auto.
Qed.

Lemma fetch_tasks_restatus (items : list string) (w : world) :
  fetch_tasks (restatus f E) items w = fetch_tasks E items w.
Proof.
  induction items as [|it items IH]; [done|].
  simpl. unfold bind, lift. simpl.
  destruct (getSharingTask E it) as [t|msg]; [|done]. by rewrite IH.
Qed.

Lemma read_enhanced_restatus (tasks : list obj) (w : world) :
  read_enhanced (restatus f E) tasks w = read_enhanced E tasks w.
Proof.
  revert w. induction tasks as [|t tasks IH]; intros w; [done|].
  simpl. unfold bind. destruct (task_dir t w) as [w0 [id|msg]]; [|done].
  change (read_task (restatus f E) id w0) with (read_task E id w0).
  destruct (read_task E id w0) as [w1 [l|msg]]; [|done]. by rewrite IH.
Qed.

(** X10: the status of a response has no influence on a refresh: with any
    other statuses in the responses, the refresh leaves the same store
    and gives the same answer. *)
Theorem refresh_ignores_status (w : world) :
  get_snapshots (restatus f E) w = get_snapshots E w.
Proof.
  unfold get_snapshots, try_catch, bind, lift, saveSnapshots. simpl.
  destruct (getItems E) as [items|msg]; [|done].
  rewrite fetch_tasks_restatus.
  destruct (fetch_tasks E items w) as [w1 [tasks|msg]]; [|done].
  unfold bind.
  change (fs_mkdir_root (restatus f E) w1) with (fs_mkdir_root E w1).
  destruct (fs_mkdir_root E w1) as [w2 [[]|msg]]; [|done].
  rewrite save_tasks_restatus.
  destruct (save_tasks E tasks w2) as [w3 [[]|msg]]; [|done].
  by rewrite read_enhanced_restatus.
Qed.

End Status.

(** ** The handlers *)

Section Handlers.

Variable E : env.

Lemma message_or_default_nonempty (msg : string) : message_or_default msg ≠ "".
Proof. unfold message_or_default. by destruct (String.eqb_spec msg ""). Qed.

(** X11: the local listing changes nothing in the store and always answers;
    it answers 500, with a message that is not empty, exactly when the
    root exists and cannot be listed. *)
Theorem local_listing_reads_only (w : world) :
  ∃ h, get_local_snapshots E w = (w, Val h) ∧
       ((∃ m, h = Err500 m) ↔ root w ≠ None ∧ fails E OpReaddir = true) ∧
       (∀ m, h = Err500 m → m ≠ "").
Proof.
  unfold get_local_snapshots, try_catch, bind, fs_access_root, fs_readdir_root.
  destruct (root w) as [r|] eqn:Hr; simpl.
  - destruct (fails E OpReaddir) eqn:Hf.
    + eexists. split; [reflexivity|]. split.
      * split; [done | intros _; eauto].
      * intros m [= <-]. apply message_or_default_nonempty.
    + rewrite Hr.
      destruct (read_local_spec E
                  (filter (fun e => is_dir e.2 = true) (map_to_list r)) w)
        as (L & HL & _).
      rewrite HL. eexists. split; [reflexivity|]. split.
      * split; [by intros (? & ?) | by intros (_ & ?)].
      * by intros m.
  - eexists. split; [reflexivity|]. split.
    + split; [by intros (? & ?) | by intros (? & _)].
    + by intros m.
Qed.

Lemma js_or_default (a : jsval) (b : json) :
  js_or a (Some b) ≠ None ∧
  (truthy (Some b) = true → truthy (js_or a (Some b)) = true).
Proof.
  unfold js_or. destruct (truthy a) eqn:Ha; [|done].
  split; [by destruct a | done].
Qed.

Lemma entry_json_keys (e : entry) :
  e_id e ≠ None → e_name e ≠ None → e_visualization e ≠ None →
  e_imageAvailable e ≠ None → e_snapshotAvailable e ≠ None →
  e_displayMode e ≠ None →
  keys (entry_json e)
  = ["id"; "name"; "visualization"; "imageAvailable"; "snapshotAvailable";
     "displayMode"].
Proof.
  destruct e as [[?|] [?|] [?|] [?|] [?|] [?|]]; simpl; try done.
Qed.

(** An entry of the local listing is made of the six fields of a
    record, each with its default. *)
Lemma local_entry_shape (w w' : world) (L : list entry) (e : entry) :
  get_local_snapshots E w = (w', Val (Json200 L)) →
  e ∈ L →
  ∃ d a1 a2 a3 a4 a5 a6,
    e = mkEntry (js_or a1 (Some (JStr d)))
                (js_or a2 (Some (JStr ("Snapshot " ++ d))))
                (js_or a3 (Some (JStr "unknown")))
                (js_or a4 (Some (JBool false)))
                (js_or a5 (Some (JBool false)))
                (js_or a6 (Some (JStr "image"))).
Proof.
  intros Hl Hin. destruct (root w) as [r|] eqn:Hr.
  - destruct (get_local_snapshots_inv E w w' r L Hr Hl) as [_ Hloc].
    destruct (read_local_spec E
                (filter (fun e => is_dir e.2 = true) (map_to_list r)) w)
      as (L0 & HL0 & Hmem).
    rewrite HL0 in Hloc. injection Hloc as HLL. subst L0.
    destruct (proj1 (Hmem e) Hin) as (d & n & _ & Hrf).
    destruct (read_folder_cases E d w) as [[Hr0 _]|(j & e' & _ & He & Hrf')];
      [congruence|].
    rewrite Hrf' in Hrf. injection Hrf as Hee. subst e'.
    exists d. destruct j; try done; injection He as <-; eauto 10.
  - unfold get_local_snapshots, try_catch, bind, fs_access_root in Hl.
    rewrite Hr in Hl. simpl in Hl. injection Hl as _ <-. by apply elem_of_nil in Hin.
Qed.

(** X12: every entry of the local listing is whole: none of its six
    fields is undefined, so the object sent has the six keys, and the
    name, the visualization and the display mode are truthy. *)
Theorem local_entries_are_whole (w w' : world) (L : list entry) (e : entry) :
  get_local_snapshots E w = (w', Val (Json200 L)) →
  e ∈ L →
  keys (entry_json e)
  = ["id"; "name"; "visualization"; "imageAvailable"; "snapshotAvailable";
     "displayMode"] ∧
  truthy (e_name e) = true ∧
  truthy (e_visualization e) = true ∧
  truthy (e_displayMode e) = true.
Proof.
  intros Hl Hin.
  destruct (local_entry_shape w w' L e Hl Hin)
    as (d & a1 & a2 & a3 & a4 & a5 & a6 & ->).
  split; [apply entry_json_keys; simpl; apply js_or_default|].
  simpl. repeat split; by apply js_or_default.
Qed.

(** X13: a record that is not an object: [null] is skipped by both handlers;
    any other value (a number, a string, a boolean, an array) has none
    of the fields, so the local listing gives the entry of defaults for
    the folder and the refresh an entry without [id] and [name]. *)
Theorem records_that_are_not_objects (d : string) (w : world) (j : json) :
  fs_readFile E d "metadata.json" w = (w, Val (JsonText j)) →
  (∀ o, j ≠ JObj o) →
  (j = JNull →
     read_folder E d w = (w, Val []) ∧ read_task E d w = (w, Val [])) ∧
  (j ≠ JNull →
     read_folder E d w = (w, Val [default_entry d]) ∧
     read_task E d w
     = (w, Val [mkEntry None None (Some (JStr "unknown")) (Some (JBool false))
                        (Some (JBool false)) (Some (JStr "image"))])).
Proof.
  intros Hr Hno. unfold read_folder, read_task, try_catch, bind. rewrite Hr. simpl.
  destruct j as [| | | | |o]; try (split; [done | intros _; by split]).
  - split; [intros _; by split | done].
  - by destruct (Hno o).
Qed.

(** X14: when the catalogue cannot be listed, or the detail of one of its
    tasks cannot be obtained, the refresh answers 500 and has changed
    nothing: no request for a file was made and the store is as it was. *)
Theorem refresh_needs_the_whole_catalogue (w : world) (msg : string) :
  (getItems E = Exn msg ∨
   ∃ items it, getItems E = Val items ∧ it ∈ items ∧ getSharingTask E it = Exn msg) →
  ∃ m, get_snapshots E w = (w, Val (Err500 m)) ∧ m ≠ "".
Proof.
  intros [Hg|(items & it & Hg & Hin & Hit)];
    unfold get_snapshots, try_catch, bind at 1, lift; rewrite Hg.
  - eexists. split; [reflexivity | apply message_or_default_nonempty].
  - unfold bind at 1. destruct (fetch_tasks_fails E items it msg w Hin Hit) as [msg' ->].
    eexists. split; [reflexivity | apply message_or_default_nonempty].
Qed.

(** X15: with no monitored task the refresh makes the root when it is missing,
    changes nothing else and answers 200 with no entry. *)
Theorem refresh_of_an_empty_catalogue (w : world) :
  getItems E = Val [] →
  fails E OpMkdirRoot = false →
  ∃ w', get_snapshots E w = (w', Val (Json200 [])) ∧
        root w' ≠ None ∧
        (root w ≠ None → w' = w) ∧
        ∀ name, node_at w' name = node_at w name.
Proof.
  intros Hg Hf.
  unfold get_snapshots, try_catch, bind, lift, saveSnapshots. rewrite Hg. simpl.
  unfold bind, fs_mkdir_root. rewrite Hf.
  destruct (root w) as [r|] eqn:Hr; simpl.
  - exists w. rewrite Hr. by repeat split.
  - eexists. split; [reflexivity|]. simpl. repeat split; try done.
    intros name. unfold node_at. simpl. by rewrite Hr.
Qed.

End Handlers.

(** ** Start of the server *)

(** X16: the checks of the environment let the server start exactly when
    every variable of the list is set to a text that is not empty;
    otherwise the process exits with code 1 after reporting the first
    variable of the list that is unset. *)
Theorem check_env_reports_first_unset (penv : string → option string)
    (vars : list string) :
  (check_env penv vars = Proceed ↔
   ∀ v, v ∈ vars → ∃ s, penv v = Some s ∧ s ≠ "") ∧
  (∀ code v, check_env penv vars = Exit code v →
     code = 1 ∧ env_unset penv v = true ∧
     ∃ before after, vars = (before ++ v :: after)%list ∧
                     ∀ u, u ∈ before → env_unset penv u = false).
Proof.
  assert (Hset : ∀ v, env_unset penv v = false ↔ ∃ s, penv v = Some s ∧ s ≠ "").
  { intros v. unfold env_unset. destruct (penv v) as [s|].
    - destruct (String.eqb_spec s ""); split; try done.
      + intros (s' & [= <-] & ?). done.
      + eauto.
    - split; [done | by intros (? & ? & _)]. }
  induction vars as [|u vars [IH1 IH2]]; simpl.
  - split; [split; [by intros _ v ?%elem_of_nil | done] | done].
  - destruct (env_unset penv u) eqn:Hu.
    + split.
      * split; [done|]. intros Hall.
        assert (env_unset penv u = false) by (apply Hset, Hall; by left). congruence.
      * intros code v [= <- <-]. repeat split; [done|].
        exists [], vars. split; [done | by intros ? ?%elem_of_nil].
    + split.
      * rewrite IH1. split.
        -- intros Hall v [->|Hin]%elem_of_cons; [by apply Hset | by apply Hall].
        -- intros Hall v Hin. apply Hall. by right.
      * intros code v Hex. destruct (IH2 code v Hex) as (-> & Hv & before & after & -> & Hb).
        repeat split; [done|]. exists (u :: before), after. split; [done|].
        intros u' [->|Hin]%elem_of_cons; [done | by apply Hb].
Qed.

(** ** The page *)

(** X17: what the page's [getLocalSnapshots] gives when its request reaches
    the handler: for an answer 200, the array of the entries, each an
    object with the six keys; for an answer 500, the error
    [Server error (500)]. *)
Theorem page_gets_whole_entries_or_an_error (E : env) (w : world) (h : http)
    (fetch : string → res fetch_response) :
  get_local_snapshots E w = (w, Val h) →
  fetch "/get-local-snapshots" = Val (sent h) →
  match h with
  | Json200 L =>
      getLocalSnapshots fetch = Val (JArr (map (fun e => JObj (entry_json e)) L)) ∧
      ∀ e, e ∈ L →
        keys (entry_json e)
        = ["id"; "name"; "visualization"; "imageAvailable"; "snapshotAvailable";
           "displayMode"]
  | Err500 _ => getLocalSnapshots fetch = Exn "Server error (500)"
  end.
Proof.
  intros Hl Hf. unfold getLocalSnapshots, fetch_json. rewrite Hf.
  destruct h as [L|m]; simpl; [|reflexivity].
  split; [reflexivity|]. intros e Hin.
  destruct (local_entry_shape E w w L e Hl Hin)
    as (d & a1 & a2 & a3 & a4 & a5 & a6 & ->).
  apply entry_json_keys; simpl; apply js_or_default.
Qed.

(** ** The further properties on the scenarios *)

Lemma requests_in_order_until_failure_witness :
  ∃ evs k,
    trace Scenario2.attempted = (trace Scenario.rooted ++ evs)%list ∧
    fetched evs = take k fileFormats ∧
    ∃ a, fileFormats !! pred k = Some a ∧ last evs = Some (EvFetch "T1" a).
Proof.
  destruct (requests_in_order_until_failure Scenario.large_missing "T1"
              Scenario.rooted Scenario2.attempted Scenario2.attempted_locals
              ltac:(by_run))
    as (evs & k & Htr & Hf & _ & _ & Hlast).
  exists evs, k. split; [exact Htr|]. split; [exact Hf|]. by apply Hlast.
Defined.

Lemma complete_iff_three_saved_witness :
  saved_as_json Scenario.healthy "T1" "snapshot" ∧
  saved_as_binary Scenario.healthy "T1" "image-small" ∧
  saved_as_binary Scenario.healthy "T1" "image-large".
Proof.
  apply (complete_iff_three_saved Scenario.healthy "T1" Scenario.rooted
           Scenario2.downloaded_all Scenario2.all_saved ltac:(by_run)).
  reflexivity.
Defined.

Lemma saved_name_follows_content_type_witness :
  ∃ name c,
    Scenario2.small_saved
    = put "T1" name c (log (EvFetch "T1" "image-small") Scenario2.folder_made) ∧
    task_folder Scenario2.small_saved "T1" = Some (<[ name := c ]> ∅).
Proof.
  destruct (saved_name_follows_content_type Scenario.healthy "T1" "image-small"
              init_locals (set_imageSmall init_locals)
              Scenario2.folder_made Scenario2.small_saved ∅ Scenario.image_png
              ltac:(by_run) eq_refl ltac:(by_run))
    as (name & c & Hw & Hf & _).
  by exists name, c.
Defined.

Lemma saveSnapshots_touches_listed_only_witness :
  node_at Scenario2.beside "T9"
  = node_at (Scenario.store Scenario.good_and_bad) "T9".
Proof.
  apply (saveSnapshots_touches_listed_only Scenario.large_missing
           [Scenario.task_T1] "T9" (Scenario.store Scenario.good_and_bad)
           Scenario2.beside (Val tt)).
  - by_run.
  - reflexivity.
  - intros task id ->%list_elem_of_singleton [= <-]. split; [reflexivity | discriminate].
Defined.

Lemma committed_once :
  save_task Scenario.healthy Scenario.task_T1 Scenario.rooted
  = (Scenario.fetched_once, Val tt) ∧
  committed "T1" Scenario.rooted Scenario.fetched_once.
Proof.
  split; [by_run|].
  exists [EvMkdir "T1";
          EvFetch "T1" "snapshot"; EvWrite "T1" "snapshot.json";
          EvFetch "T1" "image-small"; EvWrite "T1" "image-small.png";
          EvFetch "T1" "image-large"; EvWrite "T1" "image-large.png";
          EvWrite "T1" "metadata.json"].
  split; [by_run | in_list].
Defined.

Lemma committed_again :
  save_task Scenario.healthy_later Scenario.task_T1 Scenario.fetched_once
  = (Scenario.fetched_twice, Val tt) ∧
  committed "T1" Scenario.fetched_once Scenario.fetched_twice.
Proof.
  split; [by_run|].
  exists [EvFetch "T1" "snapshot"; EvWrite "T1" "snapshot.json";
          EvFetch "T1" "image-small"; EvWrite "T1" "image-small.png";
          EvFetch "T1" "image-large"; EvWrite "T1" "image-large.png";
          EvWrite "T1" "metadata.json"].
  split; [by_run | in_list].
Defined.

Lemma clock_read_once_at_commit_witness :
  ticks Scenario.fetched_once = S (ticks Scenario.rooted).
Proof.
  destruct (clock_read_once_at_commit Scenario.healthy Scenario.task_T1 "T1"
              Scenario.rooted Scenario.fetched_once eq_refl (proj1 committed_once))
    as [(_ & Ht & _)|(Hn & _)]; [exact Ht|].
  destruct (Hn (proj2 committed_once)).
Defined.

Lemma commit_keeps_earlier_files_witness :
  has_file Scenario.fetched_twice "T1" "image-small.png" = true.
Proof.
  apply (commit_keeps_earlier_files Scenario.healthy_later Scenario.task_T1 "T1"
           "image-small.png" Scenario.fetched_once Scenario.fetched_twice eq_refl
           (proj1 committed_again) (proj2 committed_again)).
  by_run.
Defined.

Lemma uncommitted_record_is_the_old_one_witness :
  fails Scenario.snapshot_down_stuck (OpRm "T1") = true ∧
  rm_keeps Scenario.snapshot_down_stuck "T1" "metadata.json" = true ∧
  file_at Scenario.fetched_once "T1" "metadata.json"
  = Some (JsonText (JObj Scenario.record_T1)).
Proof.
  apply (uncommitted_record_is_the_old_one Scenario.snapshot_down_stuck
           Scenario.task_T1 "T1" Scenario.fetched_once Scenario.stale
           (JsonText (JObj Scenario.record_T1)) eq_refl).
  - by_run.
  - intros (evs & Htr & Hin).
    assert (Hstale : trace Scenario.stale
                     = (trace Scenario.fetched_once ++ [EvFetch "T1" "snapshot"])%list)
      by by_run.
    rewrite Hstale in Htr. apply app_inv_head in Htr. subst evs.
    apply list_elem_of_singleton in Hin. discriminate Hin.
  - by_run.
Defined.

Lemma committed_task_entry_witness :
  read_task Scenario.healthy "T1" Scenario.fetched_once
  = (Scenario.fetched_once, Val [Scenario.entry_T1]).
Proof.
  destruct (committed_task_entry Scenario.healthy Scenario.task_T1 "T1"
              Scenario.rooted Scenario.fetched_once eq_refl
              (proj1 committed_once) (proj2 committed_once) eq_refl)
    as (resp & Hresp & Hread).
  change (Val Scenario.payload_kpi = Val resp) in Hresp.
  injection Hresp as <-. exact Hread.
Defined.

Lemma local_entries_are_whole_witness :
  keys (entry_json Scenario.entry_T1)
  = ["id"; "name"; "visualization"; "imageAvailable"; "snapshotAvailable";
     "displayMode"] ∧
  truthy (e_name Scenario.entry_T1) = true ∧
  truthy (e_visualization Scenario.entry_T1) = true ∧
  truthy (e_displayMode Scenario.entry_T1) = true.
Proof.
  apply (local_entries_are_whole Scenario.idle
           (Scenario.store Scenario.good_and_bad)
           (Scenario.store Scenario.good_and_bad) [Scenario.entry_T1]).
  - by_run.
  - in_list.
Defined.

Lemma records_that_are_not_objects_witness :
  read_folder Scenario.idle "T7" (Scenario.store Scenario2.odd_store)
  = (Scenario.store Scenario2.odd_store, Val [default_entry "T7"]).
Proof.
  destruct (records_that_are_not_objects Scenario.idle "T7"
              (Scenario.store Scenario2.odd_store) (JNum 42) ltac:(by_run)
              ltac:(intros o; discriminate)) as [_ H].
  destruct (H ltac:(discriminate)) as [Hf _]. exact Hf.
Defined.

Lemma refresh_needs_the_whole_catalogue_witness :
  ∃ m, get_snapshots Scenario2.offline Scenario.empty
       = (Scenario.empty, Val (Err500 m)) ∧ m ≠ "".
Proof.
  apply (refresh_needs_the_whole_catalogue Scenario2.offline Scenario.empty
           "fetch failed").
  left. reflexivity.
Defined.

Lemma refresh_of_an_empty_catalogue_witness :
  ∃ w', get_snapshots Scenario.idle Scenario.empty = (w', Val (Json200 [])) ∧
        root w' ≠ None.
Proof.
  destruct (refresh_of_an_empty_catalogue Scenario.idle Scenario.empty
              eq_refl eq_refl) as (w' & Hg & Hr & _).
  by exists w'.
Defined.

Lemma page_gets_whole_entries_or_an_error_witness :
  getLocalSnapshots (Scenario2.delivers (Err500 "readdir failed"))
  = Exn "Server error (500)".
Proof.
  apply (page_gets_whole_entries_or_an_error Scenario2.unlistable
           (Scenario.store Scenario.good_and_bad) (Err500 "readdir failed")
           (Scenario2.delivers (Err500 "readdir failed"))).
  - by_run.
  - reflexivity.
Defined.
